(** * slowly-unhinged: the hub's registration API and the companion's
      control-and-pipeline code, embedded in Rocq.

    Sources embedded here:
    - [hub/index.js]      the hub (Express) : [normalizeScreenName],
                          [deliverDefaultNanobananaKey], POST /api/register-agent,
                          [getActiveAgent], the look-up, unregistration and
                          background-proxy routes, [fetchBackgroundWithRetry];
    - [hub/zoom_app.js]   the Zoom webview  : [normalizeScreenName],
                          [pollAgentTunnel], [pollBackgroundAndApply];
    - [plan.md]           the companion's TypeScript: wheels and their
                          persisted state, gesture recognizer and its frame
                          loop, capture pipeline, WAV encoder, completion
                          parsing, event log, preflight, session start/stop.

    Modelling conventions.
    - A JavaScript string is a sequence of UTF-16 code units.  The model uses
      Rocq's [string], one [ascii] per code unit, so it covers the strings
      whose code units are all below 256.  On that fragment [trim],
      [toLowerCase] and the regular expression class [\s] are given exactly as
      ECMAScript defines them.  [JSON.parse] is the one operation that leads
      out of the fragment, through a [\uXXXX] escape; the reader follows the
      escape and reports such a text as [Json.Wide], and what is stated of
      the code that parses is stated for the other texts.
    - A JavaScript number that the code uses as an integer (wheel positions,
      indices, delays) is a [Z]; the remainder operator [%] is [Z.rem]
      (the sign follows the dividend).  [NaN] is added where the code can
      produce it.  Coordinates and clock readings are rationals ([Q]).
    - Module-level [let]/[const] variables are the fields of state records,
      and functions that assign them are state transformers.
    - An [async] function is cut at its [await]s: the code between two
      suspension points runs atomically on the single JavaScript thread, and
      is one transition of the model. *)

From Stdlib Require Import ZArith QArith Qabs Lqa Ascii String List Bool Lia.
From stdpp Require Import base option list gmap strings.
Import ListNotations.

Local Open Scope string_scope.
Local Open Scope Z_scope.

(** ** JavaScript primitives used by the code *)

Module Js.

(** Code units that [String.prototype.trim] strips and that [\s] matches
    (ECMAScript WhiteSpace and LineTerminator), below 256:
    TAB, LF, VT, FF, CR, SPACE and NO-BREAK SPACE. *)
Definition is_whitespace (c : ascii) : bool :=
  match N_of_ascii c with
  | 9 | 10 | 11 | 12 | 13 | 32 | 160 => true
  | _ => false
  end%N.

Fixpoint trimStart (s : string) : string :=
  match s with
  | EmptyString => EmptyString
  | String c r => if is_whitespace c then trimStart r else s
  end.

Fixpoint trimEnd (s : string) : string :=
  match s with
  | EmptyString => EmptyString
  | String c r =>
      match trimEnd r with
      | EmptyString => if is_whitespace c then EmptyString else String c EmptyString
      | r' => String c r'
      end
  end.

(** [s.trim()] *)
Definition trim (s : string) : string := trimEnd (trimStart s).

(** Lower-case mapping of one code unit below 256: A-Z, and the Latin-1
    capitals U+00C0..U+00DE except the multiplication sign U+00D7. *)
Definition lower_char (c : ascii) : ascii :=
  let n := N_of_ascii c in
  if ((65 <=? n) && (n <=? 90))%N then ascii_of_N (n + 32)
  else if ((192 <=? n) && (n <=? 222) && negb (n =? 215))%N then ascii_of_N (n + 32)
  else c.

(** [s.toLowerCase()] *)
Fixpoint toLowerCase (s : string) : string :=
  match s with
  | EmptyString => EmptyString
  | String c r => String (lower_char c) (toLowerCase r)
  end.

(** [s.replace(/\s+/g, " ")]: the scan copies code units that are not white
    space, and writes one space for each maximal run of white space.
    [in_run] tells that the previous code unit belongs to the run being
    replaced. *)
Fixpoint replace_ws_from (in_run : bool) (s : string) : string :=
  match s with
  | EmptyString => EmptyString
  | String c r =>
      if is_whitespace c
      then if in_run then replace_ws_from true r
           else String " " (replace_ws_from true r)
      else String c (replace_ws_from false r)
  end.

Definition replace_ws_runs (s : string) : string := replace_ws_from false s.

#[local] Set Warnings "-register-all".

(** JavaScript values, as far as the code inspects them. *)
Inductive jsval : Type :=
| JUndefined
| JNull
| JBool (b : bool)
| JNum (q : Q)
| JStr (s : string)
| JArr (items : list jsval)
| JObj (props : list (string * jsval)).

Definition is_empty (s : string) : bool :=
  match s with EmptyString => true | _ => false end.

(** ToBoolean *)
Definition truthy (v : jsval) : bool :=
  match v with
  | JUndefined | JNull => false
  | JBool b => b
  | JNum q => negb (Qeq_bool q 0)
  | JStr s => negb (is_empty s)
  | JArr _ | JObj _ => true
  end.

End Js.

(** ** [JSON.parse]

    A reader for JSON texts (ECMA-404): white space, literals, numbers,
    strings with escapes, arrays and objects.  The text is a string of the
    model, but a [\uXXXX] escape in it denotes any of the 65536 code
    units, so the reader keeps the strings that it reads as lists of code
    units ([value]); where it answers [None], [JSON.parse] throws a
    [SyntaxError].  [parse] hands the value on as a [jsval] when every
    string that was read, keys included, is a string of the model.  When
    one of them has a code unit at or above U+0100 it answers [Wide]:
    [JSON.parse] returns a value there, and the model gives no account of
    it. *)

Module Json.
Import Js.

Definition dquote : ascii := "034"%char.

Definition is_json_ws (c : ascii) : bool :=
  match N_of_ascii c with
  | 9 | 10 | 13 | 32 => true
  | _ => false
  end%N.

Fixpoint skip_ws (s : string) : string :=
  match s with
  | EmptyString => EmptyString
  | String c r => if is_json_ws c then skip_ws r else s
  end.

(** The rest of [s] after the character [c], when [s] starts with it. *)
Definition next_is (c : ascii) (s : string) : option string :=
  match s with
  | String d r => if Ascii.eqb d c then Some r else None
  | EmptyString => None
  end.

(** The rest of [s] after the word [p], when [s] starts with it. *)
Fixpoint strip_prefix (p s : string) : option string :=
  match p with
  | EmptyString => Some s
  | String a p' =>
      match s with
      | String b s' => if Ascii.eqb a b then strip_prefix p' s' else None
      | EmptyString => None
      end
  end.

Definition digit_of (c : ascii) : option Z :=
  let n := Z.of_N (N_of_ascii c) in
  if (48 <=? n) && (n <=? 57) then Some (n - 48) else None.

Definition hex_of (c : ascii) : option Z :=
  let n := Z.of_N (N_of_ascii c) in
  if (48 <=? n) && (n <=? 57) then Some (n - 48)
  else if (97 <=? n) && (n <=? 102) then Some (n - 87)
  else if (65 <=? n) && (n <=? 70) then Some (n - 55)
  else None.

(** The longest prefix of decimal digits: the number read after [acc], how
    many digits were read, and the rest. *)
Fixpoint read_digits (acc : Z) (count : nat) (s : string) : Z * nat * string :=
  match s with
  | EmptyString => (acc, count, s)
  | String c r =>
      match digit_of c with
      | Some d => read_digits (10 * acc + d) (S count) r
      | None => (acc, count, s)
      end
  end.

(** [m * 10^e] *)
Definition scale10 (m e : Z) : Q :=
  if 0 <=? e then inject_Z (m * 10 ^ e)
  else Qmake m (Z.to_pos (10 ^ (- e))).

(** The exponent part, if there is one: e or E, an optional sign, digits. *)
Definition read_exponent (m : Z) (fracDigits : nat) (s : string)
    : option (Q * string) :=
  let plain := Some (scale10 m (- Z.of_nat fracDigits), s) in
  match s with
  | String c r =>
      if Ascii.eqb c "e" || Ascii.eqb c "E" then
        let '(neg, r1) :=
          match next_is "-" r with
          | Some x => (true, x)
          | None =>
              match next_is "+" r with
              | Some x => (false, x)
              | None => (false, r)
              end
          end in
        let '(ev, n, r2) := read_digits 0 0 r1 in
        match n with
        | O => None
        | S _ =>
            Some (scale10 m ((if neg : bool then - ev else ev)
                             - Z.of_nat fracDigits), r2)
        end
      else plain
  | EmptyString => plain
  end.

(** The fraction part, if there is one: a point and digits. *)
Definition read_fraction (ip : Z) (s : string) : option (Q * string) :=
  match next_is "." s with
  | Some r =>
      let '(m, n, r1) := read_digits ip 0 r in
      match n with
      | O => None
      | S _ => read_exponent m n r1
      end
  | None => read_exponent ip 0 s
  end.

(** A number: an optional minus sign; a zero, or a non-zero digit and more
    digits; an optional fraction; an optional exponent. *)
Definition read_number (s : string) : option (Q * string) :=
  let '(neg, s1) :=
    match next_is "-" s with
    | Some r => (true, r)
    | None => (false, s)
    end in
  match s1 with
  | EmptyString => None
  | String c r =>
      match digit_of c with
      | None => None
      | Some d =>
          let '(ip, s2) :=
            if d =? 0 then (0, r)
            else let '(v, _, r') := read_digits d 1 r in (v, r') in
          match read_fraction ip s2 with
          | Some (q, rest) => Some (if neg : bool then (- q)%Q else q, rest)
          | None => None
          end
      end
  end.

#[local] Set Warnings "-register-all".

(** What [JSON.parse] returns: the strings are lists of code units, each
    between 0 and 65535. *)
Inductive value : Type :=
| VNull
| VBool (b : bool)
| VNum (q : Q)
| VStr (units : list Z)
| VArr (items : list value)
| VObj (props : list (list Z * value)).

(** The code unit of a character of the text. *)
Definition unit_of (c : ascii) : Z := Z.of_N (N_of_ascii c).

Definition cons_unit (u : Z) (x : option (list Z * string))
    : option (list Z * string) :=
  match x with
  | Some (units, rest) => Some (u :: units, rest)
  | None => None
  end.

(** The code units of a string after its opening quote, up to the closing
    quote. *)
Fixpoint read_string (s : string) : option (list Z * string) :=
  match s with
  | EmptyString => None
  | String c r =>
      if Ascii.eqb c dquote then Some ([], r)
      else if Ascii.eqb c "\" then
        match r with
        | EmptyString => None
        | String e r1 =>
            if Ascii.eqb e dquote then cons_unit (unit_of dquote) (read_string r1)
            else if Ascii.eqb e "\" then cons_unit (unit_of "\") (read_string r1)
            else if Ascii.eqb e "/" then cons_unit (unit_of "/") (read_string r1)
            else if Ascii.eqb e "b" then cons_unit 8 (read_string r1)
            else if Ascii.eqb e "f" then cons_unit 12 (read_string r1)
            else if Ascii.eqb e "n" then cons_unit 10 (read_string r1)
            else if Ascii.eqb e "r" then cons_unit 13 (read_string r1)
            else if Ascii.eqb e "t" then cons_unit 9 (read_string r1)
            else if Ascii.eqb e "u" then
              match r1 with
              | String h1 (String h2 (String h3 (String h4 r2))) =>
                  match hex_of h1, hex_of h2, hex_of h3, hex_of h4 with
                  | Some a, Some b, Some c', Some d =>
                      cons_unit (((a * 16 + b) * 16 + c') * 16 + d)
                                (read_string r2)
                  | _, _, _, _ => None
                  end
              | _ => None
              end
            else None
        end
      else if (N_of_ascii c <? 32)%N then None
      else cons_unit (unit_of c) (read_string r)
  end.

(** A value that is not an array or an object: a string, a literal or a
    number.  [s] starts with [c]. *)
Definition read_scalar (c : ascii) (s : string) : option (value * string) :=
  if Ascii.eqb c dquote then
    match next_is dquote s with
    | Some r =>
        match read_string r with
        | Some (str, r1) => Some (VStr str, r1)
        | None => None
        end
    | None => None
    end
  else if Ascii.eqb c "t" then
    match strip_prefix "true" s with
    | Some r1 => Some (VBool true, r1)
    | None => None
    end
  else if Ascii.eqb c "f" then
    match strip_prefix "false" s with
    | Some r1 => Some (VBool false, r1)
    | None => None
    end
  else if Ascii.eqb c "n" then
    match strip_prefix "null" s with
    | Some r1 => Some (VNull, r1)
    | None => None
    end
  else
    match read_number s with
    | Some (q, r1) => Some (VNum q, r1)
    | None => None
    end.

Fixpoint read_value (fuel : nat) (s : string) {struct fuel}
    : option (value * string) :=
  match fuel with
  | O => None
  | S fuel' =>
      match skip_ws s with
      | EmptyString => None
      | String c r as s0 =>
          if Ascii.eqb c "{" then
            match next_is "}" (skip_ws r) with
            | Some r1 => Some (VObj [], r1)
            | None => read_members fuel' [] (skip_ws r)
            end
          else if Ascii.eqb c "[" then
            match next_is "]" (skip_ws r) with
            | Some r1 => Some (VArr [], r1)
            | None => read_elements fuel' [] (skip_ws r)
            end
          else read_scalar c s0
      end
  end

(** The elements of an array from the start of one value on; [acc] holds
    the values already read, last first. *)
with read_elements (fuel : nat) (acc : list value) (s : string) {struct fuel}
    : option (value * string) :=
  match fuel with
  | O => None
  | S fuel' =>
      match read_value fuel' s with
      | None => None
      | Some (v, r) =>
          match next_is "," (skip_ws r) with
          | Some r1 => read_elements fuel' (v :: acc) r1
          | None =>
              match next_is "]" (skip_ws r) with
              | Some r1 => Some (VArr (rev (v :: acc)), r1)
              | None => None
              end
          end
      end
  end

(** The members of an object from the start of one key on. *)
with read_members (fuel : nat) (acc : list (list Z * value)) (s : string)
    {struct fuel} : option (value * string) :=
  match fuel with
  | O => None
  | S fuel' =>
      match next_is dquote (skip_ws s) with
      | None => None
      | Some r =>
          match read_string r with
          | None => None
          | Some (key, r1) =>
              match next_is ":" (skip_ws r1) with
              | None => None
              | Some r2 =>
                  match read_value fuel' r2 with
                  | None => None
                  | Some (v, r3) =>
                      match next_is "," (skip_ws r3) with
                      | Some r4 => read_members fuel' ((key, v) :: acc) r4
                      | None =>
                          match next_is "}" (skip_ws r3) with
                          | Some r4 => Some (VObj (rev ((key, v) :: acc)), r4)
                          | None => None
                          end
                      end
                  end
              end
          end
      end
  end.

(** The string of the model that has these code units, if all of them are
    below 256. *)
Fixpoint narrow_units (units : list Z) : option string :=
  match units with
  | [] => Some EmptyString
  | u :: rest =>
      if u <? 256 then
        match narrow_units rest with
        | Some s => Some (String (ascii_of_N (Z.to_N u)) s)
        | None => None
        end
      else None
  end.

(** The value of the model that a value read from a text is, if every
    string in it, keys included, is a string of the model. *)
Fixpoint narrow (v : value) : option jsval :=
  match v with
  | VNull => Some JNull
  | VBool b => Some (JBool b)
  | VNum q => Some (JNum q)
  | VStr units =>
      match narrow_units units with
      | Some s => Some (JStr s)
      | None => None
      end
  | VArr items =>
      let narrow_items :=
        fix go (l : list value) : option (list jsval) :=
          match l with
          | [] => Some []
          | x :: rest =>
              match narrow x, go rest with
              | Some x', Some rest' => Some (x' :: rest')
              | _, _ => None
              end
          end in
      match narrow_items items with
      | Some items' => Some (JArr items')
      | None => None
      end
  | VObj props =>
      let narrow_props :=
        fix go (l : list (list Z * value)) : option (list (string * jsval)) :=
          match l with
          | [] => Some []
          | (key, x) :: rest =>
              match narrow_units key, narrow x, go rest with
              | Some key', Some x', Some rest' => Some ((key', x') :: rest')
              | _, _, _ => None
              end
          end in
      match narrow_props props with
      | Some props' => Some (JObj props')
      | None => None
      end
  end.


(** What [JSON.parse(text)] does, as far as the model can tell. *)
Inductive Parsed :=
| Value (v : jsval)     (* it returns this value *)
| SyntaxError           (* it throws *)
| Wide.                 (* it returns a value, and a string or a key of the
                           text has a code unit at or above U+0100 *)

(** [JSON.parse(text)]: one value, white space around it, nothing else.
    The fuel is more than the length of the text, which is all the reader
    can use ([JsonFacts.parse_fuel] below). *)
Definition parse (text : string) : Parsed :=
  match read_value (S (String.length text)) text with
  | Some (v, rest) =>
      if is_empty (skip_ws rest) then
        match narrow v with
        | Some parsed => Value parsed
        | None => Wide
        end
      else SyntaxError
  | None => SyntaxError
  end.

(** The own property [key] of an object; when a key is repeated in the
    text the last member wins. *)
Fixpoint own_property (key : string) (props : list (string * jsval)) : jsval :=
  match props with
  | [] => JUndefined
  | (k, v) :: rest =>
      match own_property key rest with
      | JUndefined => if String.eqb k key then v else JUndefined
      | found => found
      end
  end.

(** [parsed.key] for the keys "status", "prompt" and "reason": [None] is
    the [TypeError] of reading a property of [null]; numbers, booleans,
    strings and arrays have no such property. *)
Definition get_property (parsed : jsval) (key : string) : option jsval :=
  match parsed with
  | JNull | JUndefined => None
  | JObj props => Some (own_property key props)
  | _ => Some JUndefined
  end.

(** A reader is adequate at [fuel0] when each of its runs with that fuel
    that finds a value consumes at least one character, and finds the same
    value with any fuel above the number of characters consumed. *)
Definition adequate {A} (read : nat -> A -> string -> option (value * string))
    (fuel0 : nat) : Prop :=
  forall a s v rest,
    read fuel0 a s = Some (v, rest) ->
    (String.length rest < String.length s)%nat
    /\ forall fuel,
         (String.length s - String.length rest < fuel)%nat ->
         read fuel a s = Some (v, rest).

(** Writes a JSON text with apostrophes in place of the double quotes. *)
Fixpoint dq (s : string) : string :=
  match s with
  | EmptyString => EmptyString
  | String c r => String (if Ascii.eqb c "'" then dquote else c) (dq r)
  end.

End Json.

(** ** The hub: [hub/index.js] and [hub/zoom_app.js] *)

Module Hub.
Import Js.

(** [hub/index.js], lines 54-59. *)
Definition normalizeScreenName (input : jsval) : string :=
  match input with
  | JStr s => replace_ws_runs (toLowerCase (trim s))
  | _ => EmptyString
  end.

(** The body of a POST /api/register-agent request, after [express.json()].
    A property that is absent is [JUndefined]. *)
Record RegisterBody := {
  screenName : jsval;
  tunnelUrl : jsval;
  requiresNanobananaKey : jsval;
  hasLocalNanobananaKey : jsval;
}.

(** What the handler cannot decide itself: the process environment and the
    outcome of every call that leaves the process. *)
Record World := {
  HUB_NANOBANANA_API_KEY : option string;   (* process.env, [None] = unset *)
  NANOBANANA_API_KEY : option string;
  firestore_set_ok : bool;                  (* agentRef.set(..) resolves *)
  firestore_delete_ok : bool;               (* agentRef.delete() resolves;
                                               a rejection is only logged *)
  axios_post_ok : nat -> bool;              (* the POST of attempt n (from 0) resolves *)
}.

(** The calls the handler makes, in order. *)
Inductive Effect :=
| FirestoreSet (doc : string)
| FirestoreDelete (doc : string) (ok : bool)
| Sleep (ms : Z)
| AxiosPost (url : string).

Record Response := { status : Z; body : string }.

(** [s.replace(/\/$/, "")]: one trailing slash is removed. *)
Fixpoint strip_trailing_slash (s : string) : string :=
  match s with
  | EmptyString => EmptyString
  | String c r =>
      match r with
      | EmptyString => if Ascii.eqb c "/" then EmptyString else s
      | _ => String c (strip_trailing_slash r)
      end
  end.

(** [process.env.X?.trim()], a string or undefined. *)
Definition env_trim (x : option string) : option string :=
  match x with Some s => Some (trim s) | None => None end.

(** [a || b] on optional strings: the first that is a non-empty string. *)
Definition or_else (a b : option string) : option string :=
  match a with
  | Some s => if is_empty s then b else a
  | None => b
  end.

Definition maxAttempts : nat := 15.

(** The [while (attempt < maxAttempts)] loop of
    [deliverDefaultNanobananaKey]; [fuel] bounds the iterations still
    possible.  The result is [true] when a POST resolved ([return]) and
    [false] when the function throws [lastError]. *)
Fixpoint deliver_loop (post : nat -> bool) (url : string)
    (fuel attempt : nat) : list Effect * bool :=
  match fuel with
  | O => ([], false)
  | S fuel' =>
      if (attempt <? maxAttempts)%nat then
        if post attempt then ([AxiosPost url], true)
        else
          let attempt' := S attempt in
          let delayMs := Z.min 12000 (1000 * Z.of_nat attempt') in
          if (maxAttempts <=? attempt')%nat then ([AxiosPost url], false)
          else
            let '(effs, ok) := deliver_loop post url fuel' attempt' in
            (AxiosPost url :: Sleep delayMs :: effs, ok)
      else ([], false)
  end.

(** [hub/index.js], lines 70-113.  [false] stands for a rejected promise. *)
Definition deliverDefaultNanobananaKey (w : World) (tunnelUrl : jsval)
    : list Effect * bool :=
  match or_else (env_trim (HUB_NANOBANANA_API_KEY w))
                (env_trim (NANOBANANA_API_KEY w)) with
  | None => ([], false)
  | Some secret =>
      if is_empty secret then ([], false)
      else
        match tunnelUrl with
        | JStr u =>
            let tunnelBase := strip_trailing_slash u in
            let requestUrl := (tunnelBase ++ "/internal/secrets/nanobanana")%string in
            let '(effs, ok) := deliver_loop (axios_post_ok w) requestUrl maxAttempts 0 in
            (Sleep 2000 :: effs, ok)
        | _ => ([], false)      (* tunnelUrl.replace is not a function *)
        end
  end.

(** A destructuring default [x = false]: it replaces [undefined] only. *)
Definition default_false (v : jsval) : jsval :=
  match v with JUndefined => JBool false | _ => v end.

Definition needsDefaultNanobananaKey (b : RegisterBody) : bool :=
  truthy (default_false (requiresNanobananaKey b))
  && negb (truthy (default_false (hasLocalNanobananaKey b))).

(** [hub/index.js], lines 170-233: the handler of POST /api/register-agent. *)
Definition register_agent (w : World) (b : RegisterBody)
    : Response * list Effect :=
  let normalizedScreenName := normalizeScreenName (screenName b) in
  if is_empty normalizedScreenName || negb (truthy (tunnelUrl b)) then
    ({| status := 400; body := "screenName and tunnelUrl are required." |}, [])
  else if negb (firestore_set_ok w) then
    ({| status := 500; body := "Failed to register agent." |},
     [FirestoreSet normalizedScreenName])
  else if needsDefaultNanobananaKey b then
    match deliverDefaultNanobananaKey w (tunnelUrl b) with
    | (effs, true) =>
        ({| status := 200; body := "Agent registered successfully." |},
         FirestoreSet normalizedScreenName :: effs)
    | (effs, false) =>
        ({| status := 500;
            body := "Failed to deliver default nanobanana key from Hub." |},
         FirestoreSet normalizedScreenName :: effs
           ++ [FirestoreDelete normalizedScreenName (firestore_delete_ok w)])
    end
  else
    ({| status := 200; body := "Agent registered successfully." |},
     [FirestoreSet normalizedScreenName]).

(** The request passed the validation and the agent record was written:
    the point at which the handler turns to the key. *)
Definition record_written (w : World) (b : RegisterBody) : bool :=
  negb (is_empty (normalizeScreenName (screenName b)))
  && truthy (tunnelUrl b) && firestore_set_ok w.

Definition count_posts (effs : list Effect) : nat :=
  length (List.filter
            (fun e => match e with AxiosPost _ => true | _ => false end) effs).

(** A hub with its key configured, whose POSTs to the tunnel all fail. *)
Definition world_unreachable : World :=
  {| HUB_NANOBANANA_API_KEY := Some " hub-key ";
     NANOBANANA_API_KEY := None;
     firestore_set_ok := true;
     firestore_delete_ok := true;
     axios_post_ok := fun _ => false |}.

(** A hub whose first POST fails and whose second one resolves. *)
Definition world_second_try : World :=
  {| HUB_NANOBANANA_API_KEY := None;
     NANOBANANA_API_KEY := Some "fallback-key";
     firestore_set_ok := true;
     firestore_delete_ok := true;
     axios_post_ok := fun n => (0 <? n)%nat |}.

(** A registration that asks for the hub's key. *)
Definition body_needs_key : RegisterBody :=
  {| screenName := JStr "  Ada   Lovelace ";
     tunnelUrl := JStr "https://tunnel.example/";
     requiresNanobananaKey := JBool true;
     hasLocalNanobananaKey := JUndefined |}.

End Hub.

Module ZoomApp.
Import Js.

(** [hub/zoom_app.js], lines 22-27. *)
Definition normalizeScreenName (input : jsval) : string :=
  match input with
  | JStr s => replace_ws_runs (toLowerCase (trim s))
  | _ => EmptyString
  end.

End ZoomApp.

(** The screen-name normal form in the words of the specification: the
    input trimmed, lowercased, its words joined by single spaces. *)
Module NameSpec.
Import Js.

(** The fields of [s] between consecutive white-space code units. *)
Fixpoint fields (s : string) : list string :=
  match s with
  | EmptyString => [EmptyString]
  | String c r =>
      if is_whitespace c then EmptyString :: fields r
      else match fields r with
           | f :: fs => String c f :: fs
           | [] => [String c EmptyString]
           end
  end.

(** The maximal runs of code units that are not white space. *)
Definition words (s : string) : list string :=
  List.filter (fun w => negb (is_empty w)) (fields s).

Definition unwords (ws : list string) : string := String.concat " " ws.

Definition spec_normalizeScreenName (input : jsval) : string :=
  match input with
  | JStr s => unwords (words (toLowerCase (trim s)))
  | _ => EmptyString
  end.

(** The last code unit of [s], if there is one, is not white space. *)
Fixpoint ends_clean (s : string) : bool :=
  match s with
  | EmptyString => true
  | String c EmptyString => negb (is_whitespace c)
  | String _ r => ends_clean r
  end.

(** The first code unit of [s] is white space. *)
Definition starts_ws (s : string) : bool :=
  match s with
  | String c _ => is_whitespace c
  | EmptyString => false
  end.

End NameSpec.


(** ** The companion ([plan.md]): the rotary wheels *)

Module Dial.
Import Js.

(** A wheel position as the array holds it: a number, [NaN] included. *)
Inductive jsnum := Int (z : Z) | NaN.

(** [CHARSET]: space, [@], [.], [-], the 26 letters and the 10 digits. *)
Definition CHARSET : list ascii :=
  list_ascii_of_string " @.-abcdefghijklmnopqrstuvwxyz0123456789".
Definition CHARSET_length : Z := Z.of_nat (length CHARSET).
Definition WHEEL_COUNT : Z := 20.

(** The module-level variables of the wheels.  [wheelPositions] is the
    array object: its integer-keyed properties.  Reading a key that is not
    there gives [undefined]; writing one adds it. *)
Record Wheels := {
  wheelPositions : gmap Z jsnum;
  activeWheelIndex : Z;
  wheelsLocked : bool;
  wheelStateLoaded : bool;
  suppressWheelStateSave : bool;
  wheelStateSaveTimeout : bool;       (* a debounced save is pending *)
}.

Definition set_wheelPositions (p : gmap Z jsnum) (w : Wheels) : Wheels :=
  {| wheelPositions := p; activeWheelIndex := activeWheelIndex w;
     wheelsLocked := wheelsLocked w; wheelStateLoaded := wheelStateLoaded w;
     suppressWheelStateSave := suppressWheelStateSave w;
     wheelStateSaveTimeout := wheelStateSaveTimeout w |}.

Definition set_activeWheelIndex (i : Z) (w : Wheels) : Wheels :=
  {| wheelPositions := wheelPositions w; activeWheelIndex := i;
     wheelsLocked := wheelsLocked w; wheelStateLoaded := wheelStateLoaded w;
     suppressWheelStateSave := suppressWheelStateSave w;
     wheelStateSaveTimeout := wheelStateSaveTimeout w |}.

Definition set_wheelsLocked (b : bool) (w : Wheels) : Wheels :=
  {| wheelPositions := wheelPositions w; activeWheelIndex := activeWheelIndex w;
     wheelsLocked := b; wheelStateLoaded := wheelStateLoaded w;
     suppressWheelStateSave := suppressWheelStateSave w;
     wheelStateSaveTimeout := wheelStateSaveTimeout w |}.

Definition set_wheelStateSaveTimeout (b : bool) (w : Wheels) : Wheels :=
  {| wheelPositions := wheelPositions w; activeWheelIndex := activeWheelIndex w;
     wheelsLocked := wheelsLocked w; wheelStateLoaded := wheelStateLoaded w;
     suppressWheelStateSave := suppressWheelStateSave w;
     wheelStateSaveTimeout := b |}.

(** [Array.from({ length: WHEEL_COUNT }, () => 0)] *)
Definition initial_positions : gmap Z jsnum :=
  list_to_map (List.map (fun i => (Z.of_nat i, Int 0)) (seq 0 (Z.to_nat WHEEL_COUNT))).

Definition initial_wheels : Wheels :=
  {| wheelPositions := initial_positions; activeWheelIndex := 0;
     wheelsLocked := false; wheelStateLoaded := false;
     suppressWheelStateSave := false; wheelStateSaveTimeout := false |}.

(** [plan.md], lines 1756-1767. *)
Definition scheduleWheelStateSave (w : Wheels) : Wheels :=
  if negb (wheelStateLoaded w) || suppressWheelStateSave w then w
  else set_wheelStateSaveTimeout true w.

(** [plan.md], lines 840-845. *)
Definition setActiveWheel (index : Z) (w : Wheels) : Wheels :=
  scheduleWheelStateSave
    (set_activeWheelIndex
       (Z.rem (Z.rem index WHEEL_COUNT + WHEEL_COUNT) WHEEL_COUNT) w).

(** [wheelPositions[index] + delta + CHARSET.length]: a key that is absent
    reads [undefined], and [undefined + n] is [NaN]. *)
Definition read_position (p : gmap Z jsnum) (index : Z) : jsnum :=
  match p !! index with
  | Some v => v
  | None => NaN
  end.

Definition js_add (a : jsnum) (b : Z) : jsnum :=
  match a with Int x => Int (x + b) | NaN => NaN end.

(** [a % m] for a non-zero [m]. *)
Definition js_rem (a : jsnum) (m : Z) : jsnum :=
  match a with Int x => Int (Z.rem x m) | NaN => NaN end.

(** [plan.md], lines 847-856. *)
Definition adjustWheel (index delta : Z) (w : Wheels) : Wheels :=
  let v :=
    js_rem (js_add (js_add (read_position (wheelPositions w) index) delta)
                   CHARSET_length)
           CHARSET_length in
  scheduleWheelStateSave
    (set_wheelPositions (<[index := v]> (wheelPositions w)) w).

(** The listeners that [buildWheel] (lines 908-927) installs on wheel
    [index]: the scroll listener with [event.deltaY], the click listener
    with [event.clientY] and the wheel's bounding rectangle. *)
Definition onWheelScroll (index : Z) (deltaY : Q) (w : Wheels) : Wheels :=
  if wheelsLocked w then w
  else
    let direction := if Qlt_le_dec 0 deltaY then 1 else -1 in
    adjustWheel index direction (setActiveWheel index w).

Definition onWheelClick (index : Z) (clientY rect_top rect_height : Q)
    (w : Wheels) : Wheels :=
  if wheelsLocked w then w
  else
    let midpoint := (rect_top + rect_height / 2)%Q in
    let direction := if Qlt_le_dec clientY midpoint then -1 else 1 in
    adjustWheel index direction (setActiveWheel index w).

(** The two operations of the dial controller, and sequences of them. *)
Inductive DialOp :=
| Adjust (index delta : Z)
| SetActive (index : Z).

Definition run_op (w : Wheels) (op : DialOp) : Wheels :=
  match op with
  | Adjust index delta => adjustWheel index delta w
  | SetActive index => setActiveWheel index w
  end.

Definition run_ops (ops : list DialOp) (w : Wheels) : Wheels :=
  fold_left run_op ops w.

(** The range invariant of the specification: the vector has the twenty
    positions 0..19, each an integer of [0, 40), and the active index is in
    [0, 20). *)
Definition position_in_range (v : jsnum) : Prop :=
  match v with
  | Int p => 0 <= p < CHARSET_length
  | NaN => False
  end.

Definition in_range (w : Wheels) : Prop :=
  (forall i, 0 <= i < WHEEL_COUNT ->
     exists v, wheelPositions w !! i = Some v /\ position_in_range v)
  /\ (forall i, ~ 0 <= i < WHEEL_COUNT -> wheelPositions w !! i = None)
  /\ 0 <= activeWheelIndex w < WHEEL_COUNT.

(** The operations the callers in [plan.md] issue: an index of a wheel that
    exists, and a step that the single [+ CHARSET.length] of [adjustWheel]
    absorbs. *)
Definition op_supported (op : DialOp) : Prop :=
  match op with
  | Adjust index delta => 0 <= index < WHEEL_COUNT /\ - CHARSET_length <= delta
  | SetActive _ => True
  end.

End Dial.

(** ** The companion ([plan.md]): the prompt decision *)

Module Decision.
Import Js Json.

(** [BackgroundPromptDecision], lines 138-148. *)
Inductive BackgroundPromptDecision :=
| Generate (prompt rawText : string)
| Skip (reason rawText : string).










End Decision.

(** ** The companion ([plan.md]): the gesture recognizer *)

Module Gesture.
Import Js Dial.

Local Open Scope Q_scope.
Local Open Scope list_scope.

Definition Qleb (a b : Q) : bool := Qle_bool a b.          (* a <= b *)
Definition Qltb (a b : Q) : bool := negb (Qle_bool b a).   (* a < b *)

(** [Math.hypot(a, b)].  The root of the rational [a*a + b*b = n/d] is
    [sqrt (n*d) / d]; the integer root is taken after scaling by [10^24],
    so the result is the root rounded down at the twelfth decimal of
    [sqrt (n*d)], and it is exact when [a*a + b*b] is the square of a
    rational. *)
Definition Math_hypot (a b : Q) : Q :=
  let r := Qred (a * a + b * b) in
  let n := Qnum r in
  let d := Zpos (Qden r) in
  Qred (Qmake (Z.sqrt (n * d * 10 ^ 24)) (Z.to_pos (d * 10 ^ 12))).

(** Lines 188-198. *)
Definition GESTURE_HISTORY_WINDOW_MS : Q := 350.
Definition GESTURE_IDLE_STATUS_DELAY_MS : Q := 1000.
Definition SWIPE_MIN_DISPLACEMENT : Q := 12 # 100.
Definition WHEEL_ADJUST_COOLDOWN_MS : Q := 400.
Definition WHEEL_SWITCH_COOLDOWN_MS : Q := 400.
Definition CLAP_COOLDOWN_MS : Q := 2000.
Definition CLAP_DISTANCE_THRESHOLD : Q := 12 # 100.
Definition CLAP_DELTA_THRESHOLD : Q := - (6 # 100).
Definition CLAP_MAX_INTERVAL_MS : Q := 250.
Definition FINGER_EXTENSION_MIN_DELTA : Q := 15 # 1000.
Definition PALM_OPEN_MIN_AVG_TIP_DISTANCE : Q := 18 # 100.

Inductive HandLabel := Left | Right.

Definition HandLabel_eqb (a b : HandLabel) : bool :=
  match a, b with
  | Left, Left | Right, Right => true
  | _, _ => false
  end.

(** [HandSample = { x, y, time }] *)
Record HandSample := { x : Q; y : Q; time : Q }.

(** [HandObservation = { label, center: { x, y } }] *)
Record HandObservation := { label : HandLabel; center_x : Q; center_y : Q }.

(** [NormalizedLandmark = { x, y, z }] *)
Record NormalizedLandmark := { lm_x : Q; lm_y : Q; lm_z : Q }.

(** One handedness category of the detector. *)
Record Category := { categoryName : string; displayName : string }.

(** [HandLandmarkerResult]: [None] is a property that is absent. *)
Record HandLandmarkerResult := {
  landmarks : option (list (list NormalizedLandmark));
  handednesses : option (list (list Category));
}.

(** The commands of the recognizer, named as in the specification; each
    stands for one call site of [processHandLandmarks] and
    [handleClapDetection]:
    [SpinUp] = [adjustWheel(activeWheelIndex, -1)],
    [SpinDown] = [adjustWheel(activeWheelIndex, 1)],
    [NextDial] = [setActiveWheel(activeWheelIndex + 1)],
    [PrevDial] = [setActiveWheel(activeWheelIndex - 1)],
    [Clap] = [handleClapSubmit()]. *)
Inductive Command := SpinUp | SpinDown | NextDial | PrevDial | Clap.

(** [const gestureState = { ... }], lines 353-357. *)
Record GestureState := {
  lastWheelAdjustTime : Q;
  lastWheelSwitchTime : Q;
  lastClapTime : Q;
}.

(** The module-level variables of the recognizer, lines 344-357 and 280-292. *)
Record Gestures := {
  gesturesLocked : bool;
  gestureLoopId : bool;                 (* an animation frame is requested *)
  lastGestureVideoTimeMs : Q;
  handHistories_Left : list HandSample;
  handHistories_Right : list HandSample;
  lastTwoHandDistance : option (Q * Q); (* { distance, time } or null *)
  gestureState : GestureState;
  currentGestureStatus : string;
  lastGestureStatusTime : Q;
}.

Definition initial_gestures : Gestures :=
  {| gesturesLocked := false; gestureLoopId := false;
     lastGestureVideoTimeMs := -1;
     handHistories_Left := []; handHistories_Right := [];
     lastTwoHandDistance := None;
     gestureState := {| lastWheelAdjustTime := 0; lastWheelSwitchTime := 0;
                        lastClapTime := 0 |};
     currentGestureStatus := "Gestures inactive.";
     lastGestureStatusTime := 0 |}.

Definition set_gesturesLocked (b : bool) (g : Gestures) : Gestures :=
  {| gesturesLocked := b; gestureLoopId := gestureLoopId g;
     lastGestureVideoTimeMs := lastGestureVideoTimeMs g;
     handHistories_Left := handHistories_Left g;
     handHistories_Right := handHistories_Right g;
     lastTwoHandDistance := lastTwoHandDistance g;
     gestureState := gestureState g;
     currentGestureStatus := currentGestureStatus g;
     lastGestureStatusTime := lastGestureStatusTime g |}.

Definition set_loop (loopId : bool) (videoTime : Q) (g : Gestures) : Gestures :=
  {| gesturesLocked := gesturesLocked g; gestureLoopId := loopId;
     lastGestureVideoTimeMs := videoTime;
     handHistories_Left := handHistories_Left g;
     handHistories_Right := handHistories_Right g;
     lastTwoHandDistance := lastTwoHandDistance g;
     gestureState := gestureState g;
     currentGestureStatus := currentGestureStatus g;
     lastGestureStatusTime := lastGestureStatusTime g |}.

Definition handHistories (g : Gestures) (l : HandLabel) : list HandSample :=
  match l with
  | Left => handHistories_Left g
  | Right => handHistories_Right g
  end.

Definition set_handHistory (l : HandLabel) (h : list HandSample)
    (g : Gestures) : Gestures :=
  {| gesturesLocked := gesturesLocked g; gestureLoopId := gestureLoopId g;
     lastGestureVideoTimeMs := lastGestureVideoTimeMs g;
     handHistories_Left :=
       match l with Left => h | Right => handHistories_Left g end;
     handHistories_Right :=
       match l with Left => handHistories_Right g | Right => h end;
     lastTwoHandDistance := lastTwoHandDistance g;
     gestureState := gestureState g;
     currentGestureStatus := currentGestureStatus g;
     lastGestureStatusTime := lastGestureStatusTime g |}.

Definition set_lastTwoHandDistance (d : option (Q * Q)) (g : Gestures)
    : Gestures :=
  {| gesturesLocked := gesturesLocked g; gestureLoopId := gestureLoopId g;
     lastGestureVideoTimeMs := lastGestureVideoTimeMs g;
     handHistories_Left := handHistories_Left g;
     handHistories_Right := handHistories_Right g;
     lastTwoHandDistance := d;
     gestureState := gestureState g;
     currentGestureStatus := currentGestureStatus g;
     lastGestureStatusTime := lastGestureStatusTime g |}.

Definition set_gestureState (gs : GestureState) (g : Gestures) : Gestures :=
  {| gesturesLocked := gesturesLocked g; gestureLoopId := gestureLoopId g;
     lastGestureVideoTimeMs := lastGestureVideoTimeMs g;
     handHistories_Left := handHistories_Left g;
     handHistories_Right := handHistories_Right g;
     lastTwoHandDistance := lastTwoHandDistance g;
     gestureState := gs;
     currentGestureStatus := currentGestureStatus g;
     lastGestureStatusTime := lastGestureStatusTime g |}.

Definition set_lastWheelAdjustTime (t : Q) (g : Gestures) : Gestures :=
  set_gestureState
    {| lastWheelAdjustTime := t;
       lastWheelSwitchTime := lastWheelSwitchTime (gestureState g);
       lastClapTime := lastClapTime (gestureState g) |} g.

Definition set_lastWheelSwitchTime (t : Q) (g : Gestures) : Gestures :=
  set_gestureState
    {| lastWheelAdjustTime := lastWheelAdjustTime (gestureState g);
       lastWheelSwitchTime := t;
       lastClapTime := lastClapTime (gestureState g) |} g.

Definition set_lastClapTime (t : Q) (g : Gestures) : Gestures :=
  set_gestureState
    {| lastWheelAdjustTime := lastWheelAdjustTime (gestureState g);
       lastWheelSwitchTime := lastWheelSwitchTime (gestureState g);
       lastClapTime := t |} g.

(** [plan.md], lines 793-801. *)
Definition setGestureStatus (message : string) (timestamp : Q)
    (g : Gestures) : Gestures :=
  {| gesturesLocked := gesturesLocked g; gestureLoopId := gestureLoopId g;
     lastGestureVideoTimeMs := lastGestureVideoTimeMs g;
     handHistories_Left := handHistories_Left g;
     handHistories_Right := handHistories_Right g;
     lastTwoHandDistance := lastTwoHandDistance g;
     gestureState := gestureState g;
     currentGestureStatus :=
       if String.eqb message (currentGestureStatus g)
       then currentGestureStatus g else message;
     lastGestureStatusTime := timestamp |}.

(** The [while] loop of [pushHandSample]: samples older than the cutoff
    leave the front of the history. *)
Fixpoint shift_older (cutoff : Q) (history : list HandSample)
    : list HandSample :=
  match history with
  | [] => []
  | s :: rest => if Qltb (time s) cutoff then shift_older cutoff rest else history
  end.

(** [plan.md], lines 1696-1703. *)
Definition pushHandSample (l : HandLabel) (sample : HandSample)
    (g : Gestures) : Gestures :=
  let history := handHistories g l ++ [sample] in
  let cutoff := time sample - GESTURE_HISTORY_WINDOW_MS in
  set_handHistory l (shift_older cutoff history) g.

(** [plan.md], lines 1705-1707. *)
Definition clearHandHistory (l : HandLabel) (g : Gestures) : Gestures :=
  set_handHistory l [] g.

Definition fingerPairs : list (nat * nat) :=
  [(8, 6); (12, 10); (16, 14); (20, 18)]%nat.

(** [plan.md], lines 1709-1754. *)
Definition isPalmOpen (lms : list NormalizedLandmark) : bool :=
  match lms with
  | [] => false
  | wrist :: _ =>
      let extendedCount :=
        fold_left
          (fun (n : nat) '(tipIndex, pipIndex) =>
             match nth_error lms tipIndex, nth_error lms pipIndex with
             | Some tip, Some pip =>
                 if Qltb FINGER_EXTENSION_MIN_DELTA (lm_y pip - lm_y tip)
                 then S n else n
             | _, _ => n
             end)
          fingerPairs O in
      let '(sumTipDistance, count) :=
        fold_left
          (fun '(acc, n) '(tipIndex, _) =>
             match nth_error lms tipIndex with
             | Some tip =>
                 (acc + Math_hypot (lm_x tip - lm_x wrist) (lm_y tip - lm_y wrist),
                  S n)
             | None => (acc, n)
             end)
          fingerPairs (0, O) in
      let avgTipDistance :=
        match count with
        | O => sumTipDistance
        | S _ => sumTipDistance / inject_Z (Z.of_nat count)
        end in
      (3 <=? extendedCount)%nat
      && Qleb PALM_OPEN_MIN_AVG_TIP_DISTANCE avgTipDistance
  end.

(** [plan.md], lines 1823-1838: [{ dx, dy, elapsedMs }] or [null]. *)
Definition getRecentDisplacement (history : list HandSample)
    : option (Q * Q * Q) :=
  match history with
  | [] | [_] => None
  | first :: _ =>
      let last := List.last history first in
      let elapsedMs := time last - time first in
      if Qleb elapsedMs 0 then None
      else Some (x last - x first, y last - y first, elapsedMs)
  end.

(** [plan.md], lines 1840-1872.  Where the result is [true] the code calls
    [handleClapSubmit()]; that activation writes none of these variables
    before its first [await], and [processHandLandmarks] below records the
    call as the command [Clap]. *)
Definition handleClapDetection (centers : list HandObservation) (now : Q)
    (g : Gestures) : Gestures * bool :=
  match List.find (fun e => HandLabel_eqb (label e) Left) centers,
        List.find (fun e => HandLabel_eqb (label e) Right) centers with
  | Some left_, Some right_ =>
      let distance :=
        Math_hypot (center_x left_ - center_x right_)
                   (center_y left_ - center_y right_) in
      let otherwise := (set_lastTwoHandDistance (Some (distance, now)) g, false) in
      match lastTwoHandDistance g with
      | Some (lastDistance, lastTime) =>
          let deltaDistance := distance - lastDistance in
          let elapsed := now - lastTime in
          if Qleb elapsed CLAP_MAX_INTERVAL_MS
             && Qleb deltaDistance CLAP_DELTA_THRESHOLD
             && Qleb distance CLAP_DISTANCE_THRESHOLD
             && Qltb CLAP_COOLDOWN_MS (now - lastClapTime (gestureState g))
          then
            (setGestureStatus "Clap detected – submitting" now
               (set_lastTwoHandDistance None (set_lastClapTime now g)),
             true)
          else otherwise
      | None => otherwise
      end
  | _, _ => (set_lastTwoHandDistance None g, false)
  end.

(** The label of the hand at [index], lines 2001-2008. *)
Definition label_of (r : HandLandmarkerResult) (index : nat) : option HandLabel :=
  match handednesses r with
  | None => None
  | Some hs =>
      match nth_error hs index with
      | None => None
      | Some cats =>
          match cats with
          | [] => None
          | handedness :: _ =>
              if String.eqb (categoryName handedness) "Left"
                 || String.eqb (displayName handedness) "Left" then Some Left
              else if String.eqb (categoryName handedness) "Right"
                      || String.eqb (displayName handedness) "Right" then Some Right
              else None
          end
      end
  end.

(** What the [forEach] over [result.landmarks] (lines 2000-2037)
    accumulates. *)
Record Scan := {
  scan_gestures : Gestures;
  seenLabels : list HandLabel;
  observations : list HandObservation;
  closedPalmDetected : bool;
}.

Definition scan_hand (r : HandLandmarkerResult) (now : Q) (acc : Scan)
    (index : nat) (lms : list NormalizedLandmark) : Scan :=
  match label_of r index with
  | None => acc
  | Some l =>
      let seen := seenLabels acc ++ [l] in
      if negb (isPalmOpen lms) then
        {| scan_gestures := clearHandHistory l (scan_gestures acc);
           seenLabels := seen;
           observations := observations acc;
           closedPalmDetected := true |}
      else
        let sum_x := fold_left (fun a p => a + lm_x p) lms 0 in
        let sum_y := fold_left (fun a p => a + lm_y p) lms 0 in
        let count := inject_Z (Z.of_nat (match length lms with O => 1 | n => n end)) in
        let cx := sum_x / count in
        let cy := sum_y / count in
        {| scan_gestures :=
             pushHandSample l {| x := cx; y := cy; time := now |} (scan_gestures acc);
           seenLabels := seen;
           observations :=
             observations acc ++ [{| label := l; center_x := cx; center_y := cy |}];
           closedPalmDetected := closedPalmDetected acc |}
  end.

Fixpoint scan_hands (r : HandLandmarkerResult) (now : Q) (acc : Scan)
    (index : nat) (hands : list (list NormalizedLandmark)) : Scan :=
  match hands with
  | [] => acc
  | lms :: rest => scan_hands r now (scan_hand r now acc index lms) (S index) rest
  end.

Definition clear_unseen (seen : list HandLabel) (g : Gestures) : Gestures :=
  fold_left
    (fun g l => if existsb (HandLabel_eqb l) seen then g else clearHandHistory l g)
    [Left; Right] g.

(** The wheels and the recognizer together, and the commands issued so far
    in the frame being processed. *)
Record Frame := {
  fr_wheels : Wheels;
  fr_gestures : Gestures;
  fr_commands : list Command;
}.

(** The first [for] loop, lines 2059-2082: the state after the loop, and
    [gestureHandled]. *)
Fixpoint spin_loop (now : Q) (obs : list HandObservation) (f : Frame)
    : Frame * bool :=
  match obs with
  | [] => (f, false)
  | o :: rest =>
      match getRecentDisplacement (handHistories (fr_gestures f) (label o)) with
      | Some (dx, dy, elapsedMs) =>
          if Qleb elapsedMs GESTURE_HISTORY_WINDOW_MS
             && Qleb SWIPE_MIN_DISPLACEMENT (Qabs dy)
             && Qltb (Qabs dx) (Qabs dy)
          then
            if Qleb dy (- SWIPE_MIN_DISPLACEMENT) then
              ({| fr_wheels :=
                    adjustWheel (activeWheelIndex (fr_wheels f)) (-1) (fr_wheels f);
                  fr_gestures :=
                    set_lastWheelAdjustTime now
                      (setGestureStatus "Wheel up" now (fr_gestures f));
                  fr_commands := fr_commands f ++ [SpinUp] |}, true)
            else if Qleb SWIPE_MIN_DISPLACEMENT dy then
              ({| fr_wheels :=
                    adjustWheel (activeWheelIndex (fr_wheels f)) 1 (fr_wheels f);
                  fr_gestures :=
                    set_lastWheelAdjustTime now
                      (setGestureStatus "Wheel down" now (fr_gestures f));
                  fr_commands := fr_commands f ++ [SpinDown] |}, true)
            else spin_loop now rest f
          else spin_loop now rest f
      | None => spin_loop now rest f
      end
  end.

(** The second [for] loop, lines 2086-2109. *)
Fixpoint switch_loop (now : Q) (obs : list HandObservation) (f : Frame)
    : Frame * bool :=
  match obs with
  | [] => (f, false)
  | o :: rest =>
      match getRecentDisplacement (handHistories (fr_gestures f) (label o)) with
      | Some (dx, dy, elapsedMs) =>
          if Qleb elapsedMs GESTURE_HISTORY_WINDOW_MS
             && Qleb SWIPE_MIN_DISPLACEMENT (Qabs dx)
             && Qltb (Qabs dy) (Qabs dx)
          then
            if Qleb dx (- SWIPE_MIN_DISPLACEMENT) then
              ({| fr_wheels :=
                    setActiveWheel (activeWheelIndex (fr_wheels f) + 1) (fr_wheels f);
                  fr_gestures :=
                    set_lastWheelSwitchTime now
                      (setGestureStatus "Next wheel" now (fr_gestures f));
                  fr_commands := fr_commands f ++ [NextDial] |}, true)
            else if Qleb SWIPE_MIN_DISPLACEMENT dx then
              ({| fr_wheels :=
                    setActiveWheel (activeWheelIndex (fr_wheels f) - 1) (fr_wheels f);
                  fr_gestures :=
                    set_lastWheelSwitchTime now
                      (setGestureStatus "Previous wheel" now (fr_gestures f));
                  fr_commands := fr_commands f ++ [PrevDial] |}, true)
            else switch_loop now rest f
          else switch_loop now rest f
      | None => switch_loop now rest f
      end
  end.

Definition idle_status (message : string) (now : Q) (g : Gestures) : Gestures :=
  if Qltb GESTURE_IDLE_STATUS_DELAY_MS (now - lastGestureStatusTime g)
  then setGestureStatus message now g else g.

(** [plan.md], lines 1978-2118: one frame.  The frame starts with no
    command issued. *)
Definition processHandLandmarks (result : option HandLandmarkerResult)
    (now : Q) (w : Wheels) (g : Gestures) : Frame :=
  let unchanged := {| fr_wheels := w; fr_gestures := g; fr_commands := [] |} in
  if gesturesLocked g then unchanged
  else
    let no_hands :=
      {| fr_wheels := w;
         fr_gestures :=
           idle_status "Hands not detected." now
             (set_lastTwoHandDistance None
                (clearHandHistory Right (clearHandHistory Left g)));
         fr_commands := [] |} in
    match result with
    | None => no_hands
    | Some r =>
        match landmarks r with
        | None | Some [] => no_hands
        | Some hands =>
            let sc :=
              scan_hands r now
                {| scan_gestures := g; seenLabels := []; observations := [];
                   closedPalmDetected := false |} O hands in
            let g1 := clear_unseen (seenLabels sc) (scan_gestures sc) in
            match observations sc with
            | [] =>
                {| fr_wheels := w;
                   fr_gestures :=
                     idle_status
                       (if closedPalmDetected sc
                        then "Palms closed – move freely."
                        else "Hands not detected.")
                       now (set_lastTwoHandDistance None g1);
                   fr_commands := [] |}
            | obs =>
                let f0 := {| fr_wheels := w; fr_gestures := g1; fr_commands := [] |} in
                let '(f1, handled1) :=
                  if Qltb WHEEL_ADJUST_COOLDOWN_MS
                       (now - lastWheelAdjustTime (gestureState g1))
                  then spin_loop now obs f0 else (f0, false) in
                let '(f2, handled2) :=
                  if negb handled1
                     && Qltb WHEEL_SWITCH_COOLDOWN_MS
                          (now - lastWheelSwitchTime (gestureState (fr_gestures f1)))
                  then switch_loop now obs f1 else (f1, handled1) in
                let '(g3, clapTriggered) := handleClapDetection obs now (fr_gestures f2) in
                let f3 :=
                  {| fr_wheels := fr_wheels f2; fr_gestures := g3;
                     fr_commands :=
                       if clapTriggered then fr_commands f2 ++ [Clap]
                       else fr_commands f2 |} in
                let gestureHandled := handled2 || clapTriggered in
                if negb gestureHandled
                then {| fr_wheels := fr_wheels f3;
                        fr_gestures := idle_status "Hands ready." now (fr_gestures f3);
                        fr_commands := fr_commands f3 |}
                else f3
            end
        end
    end.

(** The 21 landmarks of an open hand, as vertical offsets from its centre:
    the wrist (0) below, the four fingertips (8, 12, 16, 20) above, their
    middle joints (6, 10, 14, 18) at the centre.  The offsets sum to 0. *)
Definition open_hand_offsets : list Q :=
  [ 2#10; 5#100; 5#100; 5#100; 5#100; 5#100; 0; 5#100; -(2#10);
    5#100; 0; 5#100; -(2#10); 5#100; 0; 5#100; -(2#10); 5#100; 0; 5#100;
    -(2#10) ].

Definition open_hand_at (cx cy : Q) : list NormalizedLandmark :=
  List.map (fun dy => {| lm_x := cx; lm_y := cy + dy; lm_z := 0 |})
           open_hand_offsets.

Definition category (name : string) : Category :=
  {| categoryName := name; displayName := name |}.

(** A detection of an open left hand centred at [(lx, ly)] and an open
    right hand centred at [(rx, ry)]. *)
Definition two_open_hands (lx ly rx ry : Q) : HandLandmarkerResult :=
  {| landmarks := Some [open_hand_at lx ly; open_hand_at rx ry];
     handednesses := Some [[category "Left"]; [category "Right"]] |}.



(** Two frames 100 ms apart: the left hand comes down by 0.20 and ends
    next to the right hand, which does not move. *)
Definition drop_frame_1 : Frame :=
  processHandLandmarks
    (Some (two_open_hands (50#100) (30#100) (55#100) (50#100)))
    3000 initial_wheels initial_gestures.

Definition drop_frame_2 : Frame :=
  processHandLandmarks
    (Some (two_open_hands (50#100) (50#100) (55#100) (50#100)))
    3100 (fr_wheels drop_frame_1) (fr_gestures drop_frame_1).

(** Wheels that are locked, with a name on them. *)
Definition locked_wheels : Wheels :=
  set_wheelsLocked true (adjustWheel 3 7 initial_wheels).









End Gesture.

(** ** The companion ([plan.md]): the capture pipeline *)

Module Pipeline.
Import Js Decision.

Local Open Scope list_scope.

(** Lines 236-238. *)
Definition AUTO_TRANSCRIPTION_RETRY_DELAY_MS : Z := 1000.
Definition AUTO_TRANSCRIPTION_FALLBACK_DELAY_MS : Z := 1000.
Definition AUTO_TRANSCRIPTION_POST_IMAGE_DELAY_MS : Z := 300.

(** The module-level variables of the pipeline (lines 161, 181-182,
    288-290), and the two elements of the page that it reads or writes. *)
Record Vars := {
  autoTranscriptionEnabled : bool;
  autoTranscriptionTimer : option Z;     (* the pending timer, with its delay *)
  autoAwaitingBackgroundImage : bool;
  isTranscriptionInProgress : bool;      (* captureBusy *)
  isBackgroundImageInProgress : bool;    (* renderBusy *)
  lastBackgroundPrompt : option string;  (* lastAcceptedPrompt *)
  backgroundImage_src : option string;   (* backgroundImageEl.src *)
  transcribeBtnEl : bool;                (* the button exists *)
}.

Definition initial_vars : Vars :=
  {| autoTranscriptionEnabled := false; autoTranscriptionTimer := None;
     autoAwaitingBackgroundImage := false;
     isTranscriptionInProgress := false;
     isBackgroundImageInProgress := false;
     lastBackgroundPrompt := None; backgroundImage_src := None;
     transcribeBtnEl := true |}.

Definition set_autoTranscriptionEnabled (b : bool) (v : Vars) : Vars :=
  {| autoTranscriptionEnabled := b;
     autoTranscriptionTimer := autoTranscriptionTimer v;
     autoAwaitingBackgroundImage := autoAwaitingBackgroundImage v;
     isTranscriptionInProgress := isTranscriptionInProgress v;
     isBackgroundImageInProgress := isBackgroundImageInProgress v;
     lastBackgroundPrompt := lastBackgroundPrompt v;
     backgroundImage_src := backgroundImage_src v;
     transcribeBtnEl := transcribeBtnEl v |}.

Definition set_autoTranscriptionTimer (t : option Z) (v : Vars) : Vars :=
  {| autoTranscriptionEnabled := autoTranscriptionEnabled v;
     autoTranscriptionTimer := t;
     autoAwaitingBackgroundImage := autoAwaitingBackgroundImage v;
     isTranscriptionInProgress := isTranscriptionInProgress v;
     isBackgroundImageInProgress := isBackgroundImageInProgress v;
     lastBackgroundPrompt := lastBackgroundPrompt v;
     backgroundImage_src := backgroundImage_src v;
     transcribeBtnEl := transcribeBtnEl v |}.

Definition set_autoAwaitingBackgroundImage (b : bool) (v : Vars) : Vars :=
  {| autoTranscriptionEnabled := autoTranscriptionEnabled v;
     autoTranscriptionTimer := autoTranscriptionTimer v;
     autoAwaitingBackgroundImage := b;
     isTranscriptionInProgress := isTranscriptionInProgress v;
     isBackgroundImageInProgress := isBackgroundImageInProgress v;
     lastBackgroundPrompt := lastBackgroundPrompt v;
     backgroundImage_src := backgroundImage_src v;
     transcribeBtnEl := transcribeBtnEl v |}.

Definition set_isTranscriptionInProgress (b : bool) (v : Vars) : Vars :=
  {| autoTranscriptionEnabled := autoTranscriptionEnabled v;
     autoTranscriptionTimer := autoTranscriptionTimer v;
     autoAwaitingBackgroundImage := autoAwaitingBackgroundImage v;
     isTranscriptionInProgress := b;
     isBackgroundImageInProgress := isBackgroundImageInProgress v;
     lastBackgroundPrompt := lastBackgroundPrompt v;
     backgroundImage_src := backgroundImage_src v;
     transcribeBtnEl := transcribeBtnEl v |}.

Definition set_isBackgroundImageInProgress (b : bool) (v : Vars) : Vars :=
  {| autoTranscriptionEnabled := autoTranscriptionEnabled v;
     autoTranscriptionTimer := autoTranscriptionTimer v;
     autoAwaitingBackgroundImage := autoAwaitingBackgroundImage v;
     isTranscriptionInProgress := isTranscriptionInProgress v;
     isBackgroundImageInProgress := b;
     lastBackgroundPrompt := lastBackgroundPrompt v;
     backgroundImage_src := backgroundImage_src v;
     transcribeBtnEl := transcribeBtnEl v |}.

Definition set_lastBackgroundPrompt (p : option string) (v : Vars) : Vars :=
  {| autoTranscriptionEnabled := autoTranscriptionEnabled v;
     autoTranscriptionTimer := autoTranscriptionTimer v;
     autoAwaitingBackgroundImage := autoAwaitingBackgroundImage v;
     isTranscriptionInProgress := isTranscriptionInProgress v;
     isBackgroundImageInProgress := isBackgroundImageInProgress v;
     lastBackgroundPrompt := p;
     backgroundImage_src := backgroundImage_src v;
     transcribeBtnEl := transcribeBtnEl v |}.

Definition set_backgroundImage_src (u : option string) (v : Vars) : Vars :=
  {| autoTranscriptionEnabled := autoTranscriptionEnabled v;
     autoTranscriptionTimer := autoTranscriptionTimer v;
     autoAwaitingBackgroundImage := autoAwaitingBackgroundImage v;
     isTranscriptionInProgress := isTranscriptionInProgress v;
     isBackgroundImageInProgress := isBackgroundImageInProgress v;
     lastBackgroundPrompt := lastBackgroundPrompt v;
     backgroundImage_src := u;
     transcribeBtnEl := transcribeBtnEl v |}.

(** [plan.md], lines 733-738. *)
Definition clearAutoTranscriptionTimer (v : Vars) : Vars :=
  set_autoTranscriptionTimer None v.

(** [plan.md], lines 740-761: the timer is armed; its callback is
    [timer_callback] below. *)
Definition scheduleAutoTranscription (delayMs : Z) (v : Vars) : Vars :=
  if negb (autoTranscriptionEnabled v) then v
  else
    let clampedDelay := Z.max 0 delayMs in
    set_autoTranscriptionTimer (Some clampedDelay) (clearAutoTranscriptionTimer v).

(** [plan.md], lines 763-771. *)
Definition startAutoTranscriptionLoop (initialDelayMs : Z) (v : Vars) : Vars :=
  let v1 :=
    if negb (autoTranscriptionEnabled v)
    then set_autoAwaitingBackgroundImage false (set_autoTranscriptionEnabled true v)
    else v in
  scheduleAutoTranscription initialDelayMs v1.

(** [plan.md], lines 773-782. *)
Definition stopAutoTranscriptionLoop (v : Vars) : Vars :=
  if negb (autoTranscriptionEnabled v) then v
  else
    clearAutoTranscriptionTimer
      (set_autoAwaitingBackgroundImage false (set_autoTranscriptionEnabled false v)).

(** Where an activation of [triggerTranscriptionCapture] is suspended:
    the [await] whose promise it waits for.  The stages of the
    specification are Recording ([AtEnsureCapture], [AtRecording]),
    Encoding, Transcribing and Deciding. *)
Inductive CaptureAwait :=
| AtEnsureCapture                     (* await ensureCapture() *)
| AtRecording                         (* await recordMicrophoneSample(..) *)
| AtEncoding                          (* await prepareTranscriptionPayload(..) *)
| AtTranscribing                      (* await fetch(..); await response.text() *)
| AtDeciding (previousPrompt : option string).
                                      (* await generateVirtualBackgroundPrompt(
                                           transcript, lastBackgroundPrompt) *)

(** How an awaited promise settles. *)
Inductive Settle :=
| EnsureCaptureResolved (captureReady : bool)
| RecordingResolved
| RecordingRejected
| EncodingResolved
| EncodingRejected
| TranscriptionResolved (response_ok : bool) (transcript : string)
                                      (* transcript: what extractCompletionText
                                         finds in the response body *)
| TranscriptionRejected
| DecisionResolved (decision : BackgroundPromptDecision)
| DecisionRejected.

(** How [invoke("generate_background_image")] settles: a result with its
    [dataUrl] (absent or empty makes the code throw), or a rejection. *)
Inductive RenderSettle :=
| RenderResolved (dataUrl : option string)
| RenderRejected.

(** The single JavaScript thread with the activations that are suspended:
    those of [triggerTranscriptionCapture], each with its [await], and those
    of [requestBackgroundImage], each with the prompt it sent. *)
Record System := {
  vars : Vars;
  captures : list CaptureAwait;
  renders : list string;
}.

Definition initial_system : System :=
  {| vars := initial_vars; captures := []; renders := [] |}.

(** [plan.md], lines 1337-1349: [triggerTranscriptionCapture] up to its
    first [await].  [None]: the call returned; [Some a]: it is suspended. *)
Definition triggerTranscriptionCapture (v : Vars) : Vars * option CaptureAwait :=
  if isTranscriptionInProgress v then
    (if autoTranscriptionEnabled v
     then scheduleAutoTranscription AUTO_TRANSCRIPTION_RETRY_DELAY_MS v
     else v,
     None)
  else
    (set_isTranscriptionInProgress true (set_autoAwaitingBackgroundImage false v),
     Some AtEnsureCapture).

(** The two early exits, lines 1351-1379. *)
Definition capture_abort (v : Vars) : Vars :=
  let v1 := set_isTranscriptionInProgress false v in
  if autoTranscriptionEnabled v1
  then scheduleAutoTranscription AUTO_TRANSCRIPTION_RETRY_DELAY_MS v1
  else v1.

(** The [finally] block, lines 1500-1514. *)
Definition capture_finally (v : Vars) : Vars :=
  let v1 := set_isTranscriptionInProgress false v in
  if autoTranscriptionEnabled v1 && negb (autoAwaitingBackgroundImage v1)
  then scheduleAutoTranscription AUTO_TRANSCRIPTION_FALLBACK_DELAY_MS v1
  else v1.

(** [plan.md], lines 1635-1656: [requestBackgroundImage] up to its
    [await].  [Some p]: the render of [p] is in flight. *)
Definition requestBackgroundImage (prompt : string) (v : Vars)
    : Vars * option string :=
  let trimmed := trim prompt in
  if is_empty trimmed then (v, None)
  else if isBackgroundImageInProgress v then (v, None)
  else
    let v1 :=
      if autoTranscriptionEnabled v
      then set_autoAwaitingBackgroundImage true v else v in
    (set_isBackgroundImageInProgress true v1, Some trimmed).

(** [plan.md], lines 1658-1693: [requestBackgroundImage] after the
    [await]. *)
Definition requestBackgroundImage_settled (r : RenderSettle) (v : Vars) : Vars :=
  let v1 :=
    match r with
    | RenderResolved (Some dataUrl) =>
        if is_empty dataUrl then v
        else set_backgroundImage_src (Some dataUrl) v
    | RenderResolved None => v
    | RenderRejected => v
    end in
  let v2 :=
    set_autoAwaitingBackgroundImage false
      (set_isBackgroundImageInProgress false v1) in
  if autoTranscriptionEnabled v2
  then scheduleAutoTranscription AUTO_TRANSCRIPTION_POST_IMAGE_DELAY_MS v2
  else v2.

(** [plan.md], lines 1533-1565: [handleVirtualBackgroundPrompt] after
    [generateVirtualBackgroundPrompt] settled with [d]. *)
Definition handleVirtualBackgroundPrompt_decided
    (d : option BackgroundPromptDecision) (v : Vars) : Vars * option string :=
  match d with
  | Some (Generate prompt _) =>
      requestBackgroundImage prompt (set_lastBackgroundPrompt (Some prompt) v)
  | Some (Skip _ _) => (v, None)
  | None => (v, None)
  end.

(** One resumption of an activation of [triggerTranscriptionCapture]:
    the variables after it, the [await] it stops at next ([None]: the
    activation is over), and the render it started, if any.  The outer
    [None] is a settlement that does not fit the [await]. *)
Definition capture_resume (a : CaptureAwait) (s : Settle) (v : Vars)
    : option (Vars * option CaptureAwait * option string) :=
  match a, s with
  | AtEnsureCapture, EnsureCaptureResolved false =>
      Some (capture_abort v, None, None)
  | AtEnsureCapture, EnsureCaptureResolved true =>
      if negb (transcribeBtnEl v) then Some (capture_abort v, None, None)
      else Some (v, Some AtRecording, None)
  | AtRecording, RecordingResolved => Some (v, Some AtEncoding, None)
  | AtRecording, RecordingRejected => Some (capture_finally v, None, None)
  | AtEncoding, EncodingResolved => Some (v, Some AtTranscribing, None)
  | AtEncoding, EncodingRejected => Some (capture_finally v, None, None)
  | AtTranscribing, TranscriptionRejected => Some (capture_finally v, None, None)
  | AtTranscribing, TranscriptionResolved false _ =>
      Some (capture_finally v, None, None)
  | AtTranscribing, TranscriptionResolved true transcript =>
      if is_empty transcript then Some (capture_finally v, None, None)
      else if is_empty (trim transcript) then Some (capture_finally v, None, None)
      else Some (v, Some (AtDeciding (lastBackgroundPrompt v)), None)
  | AtDeciding _, DecisionResolved d =>
      let '(v1, render) := handleVirtualBackgroundPrompt_decided (Some d) v in
      Some (capture_finally v1, None, render)
  | AtDeciding _, DecisionRejected =>
      let '(v1, render) := handleVirtualBackgroundPrompt_decided None v in
      Some (capture_finally v1, None, render)
  | _, _ => None
  end.

(** What can happen next. *)
Inductive Event :=
| Click_transcribe                       (* the listener of transcribeBtnEl *)
| Timer_fires                            (* the callback of the pending timer *)
| Capture_settles (i : nat) (s : Settle) (* the promise of activation i settles *)
| Render_settles (i : nat) (r : RenderSettle)
| Start_loop (initialDelayMs : Z)        (* startAutoTranscriptionLoop *)
| Stop_loop.                             (* stopAutoTranscriptionLoop *)

Definition launch (sys : System) (r : Vars * option CaptureAwait) : System :=
  {| vars := fst r;
     captures := match snd r with
                 | Some a => captures sys ++ [a]
                 | None => captures sys
                 end;
     renders := renders sys |}.

Definition remove_nth {A} (i : nat) (l : list A) : list A :=
  firstn i l ++ skipn (S i) l.

(** One turn of the event loop.  [None]: the event cannot happen in this
    state (no pending timer, no such activation). *)
Definition step (e : Event) (sys : System) : option System :=
  match e with
  | Click_transcribe => Some (launch sys (triggerTranscriptionCapture (vars sys)))
  | Timer_fires =>
      match autoTranscriptionTimer (vars sys) with
      | None => None
      | Some _ =>
          let v := set_autoTranscriptionTimer None (vars sys) in
          if negb (autoTranscriptionEnabled v)
          then Some {| vars := v; captures := captures sys; renders := renders sys |}
          else
            Some (launch {| vars := v; captures := captures sys;
                            renders := renders sys |}
                         (triggerTranscriptionCapture v))
      end
  | Capture_settles i s =>
      match nth_error (captures sys) i with
      | None => None
      | Some a =>
          match capture_resume a s (vars sys) with
          | None => None
          | Some (v, next, render) =>
              Some {| vars := v;
                      captures :=
                        match next with
                        | Some a' => firstn i (captures sys) ++ a' :: skipn (S i) (captures sys)
                        | None => remove_nth i (captures sys)
                        end;
                      renders :=
                        match render with
                        | Some p => renders sys ++ [p]
                        | None => renders sys
                        end |}
          end
      end
  | Render_settles i r =>
      match nth_error (renders sys) i with
      | None => None
      | Some _ =>
          Some {| vars := requestBackgroundImage_settled r (vars sys);
                  captures := captures sys;
                  renders := remove_nth i (renders sys) |}
      end
  | Start_loop d =>
      Some {| vars := startAutoTranscriptionLoop d (vars sys);
              captures := captures sys; renders := renders sys |}
  | Stop_loop =>
      Some {| vars := stopAutoTranscriptionLoop (vars sys);
              captures := captures sys; renders := renders sys |}
  end.

Fixpoint run (evs : list Event) (sys : System) : option System :=
  match evs with
  | [] => Some sys
  | e :: rest =>
      match step e sys with
      | Some sys' => run rest sys'
      | None => None
      end
  end.

(** Each guard is set exactly while one activation holds it. *)
Definition guards_held (sys : System) : Prop :=
  (length (captures sys) <= 1)%nat
  /\ (isTranscriptionInProgress (vars sys) = true <-> captures sys <> [])
  /\ (length (renders sys) <= 1)%nat
  /\ (isBackgroundImageInProgress (vars sys) = true <-> renders sys <> []).

(** The two guards, read together. *)
Definition busy (v : Vars) : bool * bool :=
  (isTranscriptionInProgress v, isBackgroundImageInProgress v).

(** One cycle started by a click and carried to the decision [d]. *)
Definition cycle (transcript : string) (d : BackgroundPromptDecision)
    : list Event :=
  [ Click_transcribe;
    Capture_settles 0 (EnsureCaptureResolved true);
    Capture_settles 0 RecordingResolved;
    Capture_settles 0 EncodingResolved;
    Capture_settles 0 (TranscriptionResolved true transcript);
    Capture_settles 0 (DecisionResolved d) ].

Definition run_from_initial (evs : list Event) : System :=
  match run evs initial_system with
  | Some sys => sys
  | None => initial_system
  end.

Definition generate (prompt : string) : BackgroundPromptDecision :=
  Generate prompt prompt.

(** A first render succeeds; the render of the next cycle fails. *)
Definition trace_render_fails : list Event :=
  cycle "waves on a beach" (generate "a beach")
  ++ [Render_settles 0 (RenderResolved (Some "data:image/png;base64,AAAA"))]
  ++ cycle "a lake, then" (generate "a lake")
  ++ [Render_settles 0 RenderRejected].

(** The decision of a second cycle arrives while the render of the first
    is in flight. *)
Definition trace_render_busy : list Event :=
  cycle "waves on a beach" (generate "a beach")
  ++ cycle "a lake, then" (generate "a lake").

(** The second cycle records while the render of the first is in flight. *)
Definition trace_overlap : list Event :=
  cycle "waves on a beach" (generate "a beach")
  ++ [Click_transcribe; Capture_settles 0 (EnsureCaptureResolved true)].

(** The loop is on, its capture is in flight, and the button is clicked. *)
Definition trace_rejected : list Event :=
  [Start_loop 500; Timer_fires; Click_transcribe].

End Pipeline.

(** ** The companion ([plan.md]): starting and stopping a session *)

Module Session.
Import Js.

Local Open Scope list_scope.

(** The elements of the page and the handles that the session code tests. *)
Record Ui := {
  permissionsGranted : bool;
  controlsPresent : bool;       (* statusMsgEl, startBtnEl and stopBtnEl exist *)
  startBtn_disabled : bool;
  stopBtn_disabled : bool;
  statusMsg : string;           (* statusMsgEl.textContent *)
  videoEl : bool;               (* the video element exists *)
  handLandmarker : bool;        (* the detector is initialised *)
}.

Definition set_permissionsGranted (b : bool) (u : Ui) : Ui :=
  {| permissionsGranted := b; controlsPresent := controlsPresent u;
     startBtn_disabled := startBtn_disabled u;
     stopBtn_disabled := stopBtn_disabled u; statusMsg := statusMsg u;
     videoEl := videoEl u; handLandmarker := handLandmarker u |}.

Definition set_statusMsg (m : string) (u : Ui) : Ui :=
  {| permissionsGranted := permissionsGranted u;
     controlsPresent := controlsPresent u;
     startBtn_disabled := startBtn_disabled u;
     stopBtn_disabled := stopBtn_disabled u; statusMsg := m;
     videoEl := videoEl u; handLandmarker := handLandmarker u |}.

Definition set_buttons (startDisabled stopDisabled : bool) (u : Ui) : Ui :=
  {| permissionsGranted := permissionsGranted u;
     controlsPresent := controlsPresent u;
     startBtn_disabled := startDisabled;
     stopBtn_disabled := stopDisabled; statusMsg := statusMsg u;
     videoEl := videoEl u; handLandmarker := handLandmarker u |}.

(** All module-level state of the companion page. *)
Record Companion := {
  wheels : Dial.Wheels;
  gestures : Gesture.Gestures;
  pipeline : Pipeline.Vars;
  ui : Ui;
}.

Definition with_wheels (w : Dial.Wheels) (c : Companion) : Companion :=
  {| wheels := w; gestures := gestures c; pipeline := pipeline c; ui := ui c |}.
Definition with_gestures (g : Gesture.Gestures) (c : Companion) : Companion :=
  {| wheels := wheels c; gestures := g; pipeline := pipeline c; ui := ui c |}.
Definition with_pipeline (p : Pipeline.Vars) (c : Companion) : Companion :=
  {| wheels := wheels c; gestures := gestures c; pipeline := p; ui := ui c |}.
Definition with_ui (u : Ui) (c : Companion) : Companion :=
  {| wheels := wheels c; gestures := gestures c; pipeline := pipeline c; ui := u |}.

(** The page once [initializeApp] has run and the permission gate has been
    passed: every element exists, the Start button is enabled. *)
Definition ready_companion : Companion :=
  {| wheels := Dial.initial_wheels;
     gestures := Gesture.initial_gestures;
     pipeline := Pipeline.initial_vars;
     ui := {| permissionsGranted := true; controlsPresent := true;
              startBtn_disabled := false; stopBtn_disabled := true;
              statusMsg := EmptyString; videoEl := true;
              handLandmarker := true |} |}.

(** How an [invoke(..)] of the native side settles; an error is
    represented by what [formatError] prints of it. *)
Inductive InvokeResult :=
| Resolved (response : string)
| Rejected (error : string).

(** [plan.md], lines 419-433. *)
Definition setWheelsLocked (locked : bool) (c : Companion) : Companion :=
  with_wheels (Dial.set_wheelsLocked locked (wheels c)) c.

(** [plan.md], lines 1958-1976.  [now] is the reading of
    [performance.now()] that [setGestureStatus] takes by default. *)
Definition stopGestureRecognition (now : Q) (c : Companion) : Companion :=
  let g := gestures c in
  let g1 :=
    Gesture.set_lastTwoHandDistance None
      (Gesture.set_handHistory Gesture.Right []
         (Gesture.set_handHistory Gesture.Left []
            (Gesture.set_loop false (-1)%Q g))) in
  let message :=
    if permissionsGranted (ui c) then
      if Gesture.gesturesLocked g1 then "Gestures locked while agent active."
      else "Gestures paused."
    else "Gestures inactive." in
  with_gestures (Gesture.setGestureStatus message now g1) c.

(** [plan.md], lines 1930-1948: [startGestureRecognition] up to its
    [await]. *)
Definition startGestureRecognition (now : Q) (c : Companion) : Companion :=
  let g := gestures c in
  if Gesture.gestureLoopId g then c
  else if Gesture.gesturesLocked g then
    with_gestures
      (Gesture.setGestureStatus "Gestures locked while agent active." now g) c
  else if negb (videoEl (ui c)) then c
  else if negb (handLandmarker (ui c)) then
    with_gestures (Gesture.setGestureStatus "Initializing gestures…" now g) c
  else c.

(** [plan.md], lines 435-457. *)
Definition setGesturesLocked (locked : bool) (now : Q) (c : Companion)
    : Companion :=
  let g := gestures c in
  if Bool.eqb (Gesture.gesturesLocked g) locked then
    if locked then
      with_gestures
        (Gesture.setGestureStatus "Gestures locked while agent active." now g) c
    else c
  else
    let wasLocked := Gesture.gesturesLocked g in
    let c1 := with_gestures (Gesture.set_gesturesLocked locked g) c in
    if locked then
      let c2 := stopGestureRecognition now c1 in
      with_gestures
        (Gesture.setGestureStatus "Gestures locked while agent active." now
           (gestures c2)) c2
    else if wasLocked then
      if permissionsGranted (ui c1) then
        startGestureRecognition now
          (with_gestures
             (Gesture.setGestureStatus "Gestures ready." now (gestures c1)) c1)
      else
        with_gestures
          (Gesture.setGestureStatus "Gestures inactive." now (gestures c1)) c1
    else c1.

(** The [length] of the array [wheelPositions]: one more than its greatest
    index. *)
Definition array_length (p : gmap Z Dial.jsnum) : Z :=
  map_fold (fun k _ acc => Z.max acc (k + 1)) 0%Z p.

(** [plan.md], lines 803-805; a position that is not a number selects no
    symbol. *)
Definition getCharForPosition (position : Dial.jsnum) : string :=
  match position with
  | Dial.Int p =>
      let n := Dial.CHARSET_length in
      match nth_error Dial.CHARSET (Z.to_nat (Z.rem (Z.rem p n + n) n)) with
      | Some ch => String ch EmptyString
      | None => EmptyString
      end
  | Dial.NaN => EmptyString
  end.

(** [plan.md], lines 807-811. *)
Definition getScreenNameFromWheels (w : Dial.Wheels) : string :=
  let p := Dial.wheelPositions w in
  let raw :=
    String.concat EmptyString
      (List.map
         (fun i =>
            match p !! (Z.of_nat i) with
            | Some v => getCharForPosition v
            | None => EmptyString
            end)
         (seq 0 (Z.to_nat (array_length p)))) in
  replace_ws_runs (trim raw).

(** [plan.md], lines 2255-2270: [registerAgent] up to
    [await ensureCapture()].  The boolean tells whether the activation is
    suspended there (otherwise it returned). *)
Definition registerAgent (c : Companion) : Companion * bool :=
  if negb (controlsPresent (ui c)) then (c, false)
  else if negb (permissionsGranted (ui c)) then
    (with_ui
       (set_statusMsg
          "Grant camera and microphone access before starting the agent."
          (ui c)) c,
     false)
  else (c, true).

(** The ways that a call of [startCameraAndMic()] goes.  The media
    devices are outside the page of the model, so the way taken is given
    with the call. *)
Inductive MediaStart :=
| Unsupported       (* there is no [getUserMedia] *)
| StartFailed       (* [getUserMedia] or [AudioContext.resume] rejects *)
| Started.          (* the streams are obtained *)

(** The ways that a call of [ensureCapture()] goes: [cameraStream] is set,
    or it is not and the camera is started. *)
Inductive Capture :=
| StreamHeld
| StreamAbsent (start : MediaStart).

(** [plan.md], lines 2225-2253, as far as the page goes: [stopCameraAndMic]
    stops the recognizer. *)
Definition stopCameraAndMic (now : Q) (c : Companion) : Companion :=
  stopGestureRecognition now c.

(** [plan.md], lines 2127-2215: the page after [startCameraAndMic] and its
    result.  Where there is no [getUserMedia] the function returns before
    its [try] block.  Otherwise it first stops what was running, the
    recognizer included; when the streams are obtained it calls
    [startGestureRecognition] without awaiting it, or sets the status when
    the gestures are locked.  (The activation of [startGestureRecognition]
    goes on by itself after its [await]; that part writes the status, the
    video time and the loop id of the recognizer, and is no part of this
    call.) *)
Definition startCameraAndMic (start : MediaStart) (now : Q) (c : Companion)
    : Companion * bool :=
  match start with
  | Unsupported => (c, false)
  | StartFailed => (stopCameraAndMic now c, false)
  | Started =>
      let c1 := stopCameraAndMic now c in
      (if Gesture.gesturesLocked (gestures c1) then
         with_gestures
           (Gesture.setGestureStatus "Gestures locked while agent active." now
              (gestures c1)) c1
       else startGestureRecognition now c1,
       true)
  end.

(** [plan.md], lines 2217-2223. *)
Definition ensureCapture (capture : Capture) (now : Q) (c : Companion)
    : Companion * bool :=
  match capture with
  | StreamHeld => (c, true)
  | StreamAbsent start => startCameraAndMic start now c
  end.

(** Lines 2272-2309: from [await ensureCapture()] to
    [await invoke("register_agent", ..)]. *)
Definition registerAgent_captured (capture : Capture) (now : Q)
    (c0 : Companion) : Companion * bool :=
  let '(c, captureReady) := ensureCapture capture now c0 in
  if negb captureReady then
    (with_ui
       (set_statusMsg
          "Unable to access camera and microphone. Check permissions and try again."
          (ui c)) c,
     false)
  else
    let screenName := getScreenNameFromWheels (wheels c) in
    if is_empty screenName then
      (with_ui
         (set_statusMsg "Please configure your screen name using the wheels."
            (ui c)) c,
       false)
    else if (String.length screenName <? 3)%nat then
      (with_ui
         (set_statusMsg "Screen name must be at least 3 characters." (ui c)) c,
       false)
    else
      let c1 :=
        with_ui
          (set_buttons true false
             (set_statusMsg ("Starting agent for " ++ screenName ++ "...")%string
                (ui c))) c in
      (setGesturesLocked true now (setWheelsLocked true c1), true).

(** Lines 2308-2325: after [invoke("register_agent", ..)] settled. *)
Definition registerAgent_invoked (r : InvokeResult) (now : Q) (c : Companion)
    : Companion :=
  match r with
  | Resolved response =>
      let c1 := with_ui (set_statusMsg response (ui c)) c in
      with_pipeline (Pipeline.startAutoTranscriptionLoop 500 (pipeline c1)) c1
  | Rejected error =>
      let c1 := setGesturesLocked false now (setWheelsLocked false c) in
      with_ui
        (set_buttons false true
           (set_statusMsg ("Error: " ++ error)%string (ui c1))) c1
  end.

(** [plan.md], lines 2328-2338: [stopAgent] up to
    [await invoke("stop_agent")]. *)
Definition stopAgent (c : Companion) : Companion * bool :=
  if negb (controlsPresent (ui c)) then (c, false)
  else
    let c1 := with_pipeline (Pipeline.stopAutoTranscriptionLoop (pipeline c)) c in
    (with_ui (set_statusMsg "Stopping agent..." (ui c1)) c1, true).

(** Lines 2337-2352: after [invoke("stop_agent")] settled: the [try]
    block, or the [catch] block, and the [finally] block. *)
Definition stopAgent_invoked (r : InvokeResult) (now : Q) (c : Companion)
    : Companion :=
  let c1 :=
    match r with
    | Resolved response =>
        setGesturesLocked false now
          (setWheelsLocked false (with_ui (set_statusMsg response (ui c)) c))
    | Rejected error =>
        with_ui (set_statusMsg ("Error: " ++ error)%string (ui c)) c
    end in
  let c2 := with_pipeline (Pipeline.stopAutoTranscriptionLoop (pipeline c1)) c1 in
  with_ui (set_buttons false true (ui c2)) c2.

(** A whole stop: the call and, when it is suspended, the settlement of
    the native call. *)
Definition stop_session (r : InvokeResult) (now : Q) (c : Companion)
    : Companion :=
  let '(c1, suspended) := stopAgent c in
  if suspended then stopAgent_invoked r now c1 else c1.

(** A whole start. *)
Definition start_session (capture : Capture) (r : InvokeResult) (now : Q)
    (c : Companion) : Companion :=
  let '(c1, suspended1) := registerAgent c in
  if suspended1 then
    let '(c2, suspended2) := registerAgent_captured capture now c1 in
    if suspended2 then registerAgent_invoked r now c2 else c2
  else c1.

Definition dialsLocked (c : Companion) : bool := Dial.wheelsLocked (wheels c).
Definition gesturesLocked (c : Companion) : bool :=
  Gesture.gesturesLocked (gestures c).

(** The wheels spell "bcd"; the page is ready. *)
Definition named_companion : Companion :=
  with_wheels
    (Dial.run_ops [Dial.Adjust 0 5; Dial.Adjust 1 6; Dial.Adjust 2 7]
       Dial.initial_wheels)
    ready_companion.

(** A session that started: the camera was on, the registration
    resolved. *)
Definition active_session : Companion :=
  start_session StreamHeld (Resolved "Agent registered.") 5000 named_companion.

(** The stop of that session when the native call rejects. *)
Definition failed_stop : Companion :=
  stop_session (Rejected "hub unreachable") 6000 active_session.

End Session.

(** ** The companion ([plan.md]): reading a chat completion *)

Module Completion.
Import Js Json Decision.

Local Open Scope list_scope.

(** [typeof v === "object"]: [null], arrays and objects. *)
Definition typeof_object (v : jsval) : bool :=
  match v with
  | JNull | JArr _ | JObj _ => true
  | _ => false
  end.

(** [v.key] for the keys that [extractCompletionText] reads ("choices",
    "text", "message", "content", "type", "value"): no prototype has them,
    so the rule of [get_property] applies. *)
Definition prop (v : jsval) (key : string) : option jsval := get_property v key.

(** The callback of [message.content.map], lines 1256-1270. *)
Definition part_text (part : jsval) : string :=
  if negb (truthy part) || negb (typeof_object part) then EmptyString
  else
    match prop part "type", prop part "text", prop part "value" with
    | Some (JStr ty), Some (JStr text), _ =>
        if String.eqb ty "output_text" then text else text
    | _, Some (JStr text), _ => text
    | _, _, Some (JStr value) => value
    | _, _, _ => EmptyString
    end.

(** [plan.md], lines 1220-1276.  [None] is the [TypeError] of reading
    [text] of a first choice that is [null]. *)
Definition extractCompletionText (payload : jsval) : option string :=
  if negb (truthy payload) || negb (typeof_object payload) then Some EmptyString
  else
    match prop payload "choices" with
    | Some (JArr (firstChoice :: _)) =>
        match prop firstChoice "text" with
        | None => None
        | Some text =>
            let flat :=
              match text with
              | JStr s => if is_empty (trim s) then None else Some (trim s)
              | _ => None
              end in
            match flat with
            | Some s => Some s
            | None =>
                match prop firstChoice "message" with
                | None => None
                | Some message =>
                    if negb (truthy message) then Some EmptyString
                    else
                      match prop message "content" with
                      | Some (JStr s) => Some (trim s)
                      | Some (JArr content) =>
                          let parts :=
                            List.filter
                              (fun part => negb (is_empty (trim part)))
                              (List.map part_text content) in
                          Some (trim (String.concat " " parts))
                      | _ => Some EmptyString
                      end
                end
            end
        end
    | _ => Some EmptyString
    end.

(** [triggerTranscriptionCapture], lines 1463-1478: the transcript read
    from the body of the transcription response.  Both the [SyntaxError] of
    [JSON.parse] and the [TypeError] above end in the [catch] block, which
    leaves the transcript empty.  The result is [None] for a response that
    is outside the model ([Json.Wide]). *)
Definition transcript_of_response (responseText : string) : option string :=
  match Json.parse responseText with
  | Wide => None
  | SyntaxError => Some EmptyString
  | Value parsed =>
      match extractCompletionText parsed with
      | Some transcript => Some transcript
      | None => Some EmptyString
      end
  end.

(** The body of a chat completion whose message has the text [content]
    (the quotes of the JSON text written as apostrophes). *)
Definition completion_body (content : string) : string :=
  dq ("{'choices':[{'message':{'role':'assistant','content':'" ++ content ++ "'}}]}").

End Completion.

(** ** The hub ([hub/index.js]): the agent records and their look-up *)

Module Registry.
Import Js Hub.

Local Open Scope list_scope.

(** [x && x.trim()] on an environment variable, as a boolean. *)
Definition nonblank (x : option string) : bool :=
  match x with
  | Some s => negb (is_empty s) && negb (is_empty (trim s))
  | None => false
  end.

(** [hub/index.js], lines 61-68. *)
Definition hasDefaultNanobananaKey (w : World) : bool :=
  if nonblank (HUB_NANOBANANA_API_KEY w) then true
  else nonblank (NANOBANANA_API_KEY w).

(** The milliseconds that a list of calls spends in [setTimeout]. *)
Definition total_sleep (effs : list Effect) : Z :=
  fold_right (fun e acc => match e with Sleep ms => ms + acc | _ => acc end) 0 effs.

(** The calls of a delivery whose first [k] POSTs fail and whose next one
    resolves: each failed POST is followed by its back-off. *)
Definition delivery_trace (url : string) (k : nat) : list Effect :=
  flat_map (fun i => [AxiosPost url; Sleep (Z.min 12000 (1000 * Z.of_nat i))])
           (seq 1 k)
  ++ [AxiosPost url].

(** A Firestore [Timestamp]. *)
Record Timestamp := { seconds : Z; nanoseconds : Z }.

(** [a < b] on two timestamps.  The operator compares the strings that
    [Timestamp.prototype.valueOf] returns, which are ordered as the pairs
    (seconds, nanoseconds). *)
Definition Timestamp_lt (a b : Timestamp) : bool :=
  (seconds a <? seconds b)
  || ((seconds a =? seconds b) && (nanoseconds a <? nanoseconds b)).

Definition AGENT_URL_TTL_MINUTES : Z := 5.

(** A document of the collection "agents"; a field that is absent is
    [JUndefined], or [None] for a timestamp.  The collection is the map
    from the ids of the documents to the documents. *)
Record AgentDoc := {
  doc_tunnelUrl : jsval;
  doc_registeredAt : option Timestamp;
  doc_lastSeenAt : option Timestamp;
  doc_screenNameOriginal : jsval;
  doc_requiresNanobananaKey : bool;
  doc_hasLocalNanobananaKey : bool;
  doc_usesHubNanobananaKey : bool;
}.

Definition set_lastSeenAt (t : Timestamp) (d : AgentDoc) : AgentDoc :=
  {| doc_tunnelUrl := doc_tunnelUrl d;
     doc_registeredAt := doc_registeredAt d;
     doc_lastSeenAt := Some t;
     doc_screenNameOriginal := doc_screenNameOriginal d;
     doc_requiresNanobananaKey := doc_requiresNanobananaKey d;
     doc_hasLocalNanobananaKey := doc_hasLocalNanobananaKey d;
     doc_usesHubNanobananaKey := doc_usesHubNanobananaKey d |}.

(** Whether the calls of Firestore that a look-up makes resolve. *)
Record Firestore := {
  get_ok : bool;        (* agentRef.get() *)
  delete_ok : bool;     (* agentRef.delete() *)
  update_ok : bool;     (* agentRef.update(..); a rejection is only logged *)
}.

(** The result of [getActiveAgent]: [{ tunnelUrl }], [null], or a rejected
    promise. *)
Inductive Lookup :=
| Active (tunnelUrl : jsval)
| Inactive
| Threw.

(** [lastSeenAt || registeredAt] *)
Definition or_timestamp (a b : option Timestamp) : option Timestamp :=
  match a with Some _ => a | None => b end.

(** [hub/index.js], lines 115-168. *)
Definition getActiveAgent (fs : Firestore) (now : Timestamp)
    (normalizedScreenName : string) (agents : gmap string AgentDoc) : Lookup * gmap string AgentDoc :=
  if is_empty normalizedScreenName then (Inactive, agents)
  else if negb (get_ok fs) then (Threw, agents)
  else
    match agents !! normalizedScreenName with
    | None => (Inactive, agents)
    | Some data =>
        if negb (truthy (doc_tunnelUrl data)) then (Inactive, agents)
        else
          match or_timestamp (doc_lastSeenAt data) (doc_registeredAt data) with
          | None => (Inactive, agents)
          | Some fallbackSeen =>
              let expiryCutoff :=
                {| seconds := seconds now - AGENT_URL_TTL_MINUTES * 60;
                   nanoseconds := nanoseconds now |} in
              if Timestamp_lt fallbackSeen expiryCutoff then
                if delete_ok fs
                then (Inactive, delete normalizedScreenName agents)
                else (Threw, agents)
              else
                let secondsSinceLastSeen := seconds now - seconds fallbackSeen in
                (Active (doc_tunnelUrl data),
                 if (30 <=? secondsSinceLastSeen) && update_ok fs
                 then <[normalizedScreenName := set_lastSeenAt now data]> agents
                 else agents)
          end
    end.

(** What a handler answers: the status and the JSON body. *)
Record Reply := { code : Z; json : jsval }.

Definition error_reply (status : Z) (message : string) : Reply :=
  {| code := status; json := JObj [("error", JStr message)] |}.

(** [hub/index.js], lines 235-257: POST /api/unregister-agent. *)
Definition unregister_agent (fs : Firestore) (screenName : jsval)
    (agents : gmap string AgentDoc) : Reply * gmap string AgentDoc :=
  let normalizedScreenName := normalizeScreenName screenName in
  if is_empty normalizedScreenName then
    (error_reply 400 "screenName is required.", agents)
  else if delete_ok fs then
    ({| code := 200;
        json := JObj [("message", JStr "Agent unregistered successfully.")] |},
     delete normalizedScreenName agents)
  else (error_reply 500 "Failed to unregister agent.", agents).

(** [hub/index.js], lines 259-292: GET /api/get-agent-url. *)
Definition get_agent_url (fs : Firestore) (now : Timestamp) (screenName : jsval)
    (agents : gmap string AgentDoc) : Reply * gmap string AgentDoc :=
  let normalizedScreenName := normalizeScreenName screenName in
  if is_empty normalizedScreenName then
    (error_reply 400 "screenName query parameter is required.", agents)
  else
    match getActiveAgent fs now normalizedScreenName agents with
    | (Active tunnelUrl, agents') =>
        ({| code := 200; json := JObj [("tunnelUrl", tunnelUrl)] |}, agents')
    | (Inactive, agents') =>
        (error_reply 404 "No active agent found for this screen name.", agents')
    | (Threw, agents') =>
        (error_reply 500 "Failed to retrieve agent URL.", agents')
    end.

(** The document that POST /api/register-agent writes, lines 193-201. *)
Definition new_record (b : RegisterBody) (now : Timestamp) : AgentDoc :=
  {| doc_tunnelUrl := tunnelUrl b;
     doc_registeredAt := Some now;
     doc_lastSeenAt := Some now;
     doc_screenNameOriginal := screenName b;
     doc_requiresNanobananaKey := truthy (default_false (requiresNanobananaKey b));
     doc_hasLocalNanobananaKey := truthy (default_false (hasLocalNanobananaKey b));
     doc_usesHubNanobananaKey := needsDefaultNanobananaKey b |}.

(** What a call of [register_agent] does to the collection. *)
Definition apply_effect (w : World) (record : AgentDoc) (agents : gmap string AgentDoc)
    (e : Effect) : gmap string AgentDoc :=
  match e with
  | FirestoreSet doc => if firestore_set_ok w then <[doc := record]> agents else agents
  | FirestoreDelete doc ok => if ok then delete doc agents else agents
  | Sleep _ | AxiosPost _ => agents
  end.

(** POST /api/register-agent at the time [now], with the collection. *)
Definition register_agent_at (w : World) (now : Timestamp) (b : RegisterBody)
    (agents : gmap string AgentDoc) : Response * gmap string AgentDoc :=
  let '(response, effs) := register_agent w b in
  (response, fold_left (apply_effect w (new_record b now)) effs agents).

(** Look-ups of the same name at the given times, one after the other. *)
Fixpoint poll (fs : Firestore) (name : string) (times : list Timestamp)
    (agents : gmap string AgentDoc) : list Lookup * gmap string AgentDoc :=
  match times with
  | [] => ([], agents)
  | now :: rest =>
      let '(r, agents1) := getActiveAgent fs now name agents in
      let '(rs, agents2) := poll fs name rest agents1 in
      (r :: rs, agents2)
  end.

(** Each time is at most [bound] seconds after the one before it, the
    first one after [previous]. *)
Fixpoint gaps_within (bound : Z) (previous : Timestamp) (times : list Timestamp)
    : Prop :=
  match times with
  | [] => True
  | t :: rest => seconds t - seconds previous <= bound /\ gaps_within bound t rest
  end.

(** A Firestore whose calls all resolve. *)
Definition firestore_up : Firestore :=
  {| get_ok := true; delete_ok := true; update_ok := true |}.

Definition at_second (s : Z) : Timestamp := {| seconds := s; nanoseconds := 0 |}.

End Registry.

(** ** The hub ([hub/index.js]): the proxy of the latest background *)

Module Proxy.
Import Js Hub Registry.

Local Open Scope list_scope.

Definition BACKGROUND_PROXY_RETRIES : nat := 3.

(** A response of the agent's tunnel, as far as the proxy reads it.  A
    header that is absent is [None]; [up_data] is [None] when the response
    has no body. *)
Record Upstream := {
  up_status : Z;
  up_version : option string;        (* headers["x-background-version"] *)
  up_contentType : option string;    (* headers["content-type"] *)
  up_data : option string;
}.

(** How one [axios.get] settles.  [validateStatus] accepts every status,
    so a response of any status resolves the promise. *)
Inductive Attempt :=
| Answered (r : Upstream)
| FailedWith (r : Upstream)          (* rejected, [error.response] is set *)
| Failed.                            (* rejected without a response *)

(** The calls of the proxy that leave the process. *)
Inductive Call :=
| Get (url : string) (params : list (string * jsval))
| Wait (ms : Z).

(** The [while] loop of [fetchBackgroundWithRetry], lines 381-407; [fuel]
    bounds the iterations still possible.  [None] is the [throw] that
    follows the loop. *)
Fixpoint fetch_loop (get : nat -> Attempt) (url : string)
    (params : list (string * jsval)) (fuel attempt : nat)
    : list Call * option Upstream :=
  match fuel with
  | O => ([], None)
  | S fuel' =>
      if (attempt <? BACKGROUND_PROXY_RETRIES)%nat then
        match get attempt with
        | Answered r => ([Get url params], Some r)
        | FailedWith r => ([Get url params], Some r)
        | Failed =>
            let delay := Z.min 1000 (250 * (Z.of_nat attempt + 1)) in
            let '(calls, r) := fetch_loop get url params fuel' (S attempt) in
            (Get url params :: Wait delay :: calls, r)
        end
      else ([], None)
  end.

(** [hub/index.js], lines 377-410. *)
Definition fetchBackgroundWithRetry (get : nat -> Attempt) (url : string)
    (params : list (string * jsval)) : list Call * option Upstream :=
  fetch_loop get url params (S BACKGROUND_PROXY_RETRIES) 0.

(** What the proxy answers. *)
Inductive Body :=
| JsonBody (v : jsval)
| Bytes (data : string)
| NoBody.

Record ProxyReply := {
  px_status : Z;
  px_version : option string;        (* x-background-version *)
  px_contentType : option string;    (* Content-Type set by the handler *)
  px_cacheControl : option string;
  px_body : Body;
}.

Definition json_error (status : Z) (message : string) : ProxyReply :=
  {| px_status := status; px_version := None; px_contentType := None;
     px_cacheControl := None;
     px_body := JsonBody (JObj [("error", JStr message)]) |}.

(** [if (header) res.set(..)]: a header that is absent or empty is not
    copied. *)
Definition copied (header : option string) : option string :=
  match header with
  | Some h => if is_empty h then None else Some h
  | None => None
  end.

(** The query of the request to the tunnel, lines 319-325. *)
Definition forwarded_params (since wait : jsval) : list (string * jsval) :=
  (match since with JUndefined => [] | _ => [("since", since)] end)
  ++ (match wait with JUndefined => [] | _ => [("wait", wait)] end).

(** [hub/index.js], lines 294-375: GET /api/background/latest.  An error of
    Firestore and the [TypeError] of a tunnel URL that is not a string carry
    no [response], so the [catch] block answers them with 502. *)
Definition background_latest (fs : Firestore) (now : Timestamp)
    (get : nat -> Attempt) (screenName since wait : jsval)
    (agents : gmap string AgentDoc)
    : ProxyReply * list Call * gmap string AgentDoc :=
  let normalizedScreenName := normalizeScreenName screenName in
  let unreachable := json_error 502 "Unable to contact agent tunnel for background." in
  if is_empty normalizedScreenName then
    (json_error 400 "screenName query parameter is required.", [], agents)
  else
    match getActiveAgent fs now normalizedScreenName agents with
    | (Inactive, agents') =>
        (json_error 404 "No active agent found for this screen name.", [], agents')
    | (Threw, agents') => (unreachable, [], agents')
    | (Active (JStr u), agents') =>
        let requestUrl := (strip_trailing_slash u ++ "/background/latest")%string in
        match fetchBackgroundWithRetry get requestUrl (forwarded_params since wait) with
        | (calls, Some response) =>
            ({| px_status := up_status response;
                px_version := copied (up_version response);
                px_contentType := copied (up_contentType response);
                px_cacheControl := Some "no-store";
                px_body :=
                  if (up_status response =? 204) then NoBody
                  else match up_data response with
                       | Some data => Bytes data
                       | None => NoBody
                       end |},
             calls, agents')
        | (calls, None) => (unreachable, calls, agents')
        end
    | (Active _, agents') => (unreachable, [], agents')
    end.

Definition count_gets (calls : list Call) : nat :=
  length (List.filter (fun c => match c with Get _ _ => true | Wait _ => false end)
                      calls).

(** The calls of a fetch whose first [k] attempts fail without a response
    and whose next attempt is answered. *)
Definition fetch_trace (url : string) (params : list (string * jsval)) (k : nat)
    : list Call :=
  flat_map (fun i => [Get url params; Wait (250 * Z.of_nat i)]) (seq 1 k)
  ++ [Get url params].

(** A collection with one agent, seen at second 1000. *)
Definition one_agent : gmap string AgentDoc :=
  {[ "ada lovelace" :=
       {| doc_tunnelUrl := JStr "https://tunnel.example/";
          doc_registeredAt := Some (at_second 1000);
          doc_lastSeenAt := Some (at_second 1000);
          doc_screenNameOriginal := JStr "Ada Lovelace";
          doc_requiresNanobananaKey := false;
          doc_hasLocalNanobananaKey := false;
          doc_usesHubNanobananaKey := false |} ]}.

Definition image_response : Upstream :=
  {| up_status := 200; up_version := Some "7";
     up_contentType := Some "image/png"; up_data := Some "PNG" |}.

End Proxy.

(** ** The Zoom webview ([hub/zoom_app.js]): polling *)

Module ZoomPoll.
Import Js.

Local Open Scope list_scope.

(** [Math.min(attempt + 1, 7)] *)
Definition next_attempt (attempt : Z) : Z := Z.min (attempt + 1) 7.

(** [pollAgentTunnel], lines 90-91: the delay before the next look-up. *)
Definition tunnel_delay (attempt : Z) : Z :=
  let backoffMs := Z.min 5000 (250 * 2 ^ attempt) in
  Z.max 250 backoffMs.

(** [hub/zoom_app.js], lines 84-97.  The function calls itself until a
    look-up gives a tunnel URL; [fetches] are the results of the look-ups
    made so far (what [fetchAgentTunnel] returned: the [tunnelUrl] of the
    hub's answer, or [null]).  The result is the list of the delays waited,
    and the URL if one was found with these look-ups. *)
Fixpoint pollAgentTunnel (fetches : list jsval) (attempt : Z)
    : list Z * option jsval :=
  match fetches with
  | [] => ([], None)
  | tunnelUrl :: rest =>
      if truthy tunnelUrl then ([], Some tunnelUrl)
      else
        let '(delays, r) := pollAgentTunnel rest (next_attempt attempt) in
        (tunnel_delay attempt :: delays, r)
  end.

(** What one round of [pollBackgroundAndApply] meets. *)
Inductive Round :=
| NotYet                         (* 204 *)
| NoAgent                        (* 404 *)
| NotOk                          (* another status outside 200-299 *)
| NoSdk (version : option string)
                                 (* 2xx, zoomSdk.setVirtualBackground is missing *)
| Applied (version : option string)
| ApplyFailed (version : option string)
| FetchError.                    (* fetch or response.blob() rejects *)

(** The arguments of the next call of [pollBackgroundAndApply]. *)
Record PollState := {
  backoffAttempt : Z;
  lastVersion : string;
}.

(** [response.headers.get("x-background-version") || lastVersion] *)
Definition version_or (header : option string) (lastVersion : string) : string :=
  match header with
  | Some v => if is_empty v then lastVersion else v
  | None => lastVersion
  end.

(** [hub/zoom_app.js], lines 144-234: one round.  The result is the wait
    before the next request ([None]: the next request is made at once) and
    the arguments of the recursive call. *)
Definition pollBackgroundAndApply (r : Round) (st : PollState)
    : option Z * PollState :=
  let baseDelay := 200 in
  let maxDelay := 4000 in
  let backoffMs := Z.min maxDelay (baseDelay * 2 ^ backoffAttempt st) in
  let retry (floor : Z) (version : string) :=
    (Some (Z.max floor backoffMs),
     {| backoffAttempt := next_attempt (backoffAttempt st);
        lastVersion := version |}) in
  match r with
  | NotYet => (None, {| backoffAttempt := 0; lastVersion := lastVersion st |})
  | NoAgent => retry 500 (lastVersion st)
  | NotOk => retry 500 (lastVersion st)
  | NoSdk header => retry 1000 (version_or header (lastVersion st))
  | Applied header =>
      (None, {| backoffAttempt := 0;
                lastVersion := version_or header (lastVersion st) |})
  | ApplyFailed header => retry 1000 (version_or header (lastVersion st))
  | FetchError => retry 500 (lastVersion st)
  end.

(** The rounds one after the other: the waits, and the state reached. *)
Fixpoint poll_rounds (rounds : list Round) (st : PollState)
    : list (option Z) * PollState :=
  match rounds with
  | [] => ([], st)
  | r :: rest =>
      let '(wait, st1) := pollBackgroundAndApply r st in
      let '(waits, st2) := poll_rounds rest st1 in
      (wait :: waits, st2)
  end.

(** [initializeZoomSdk] starts the polling with the default arguments. *)
Definition initial_poll : PollState := {| backoffAttempt := 0; lastVersion := "0" |}.

(** The rounds after which [pollBackgroundAndApply] waits before it calls
    itself: every round but a 204 and a background that was applied. *)
Definition failed (r : Round) : bool :=
  match r with
  | NotYet | Applied _ => false
  | NoAgent | NotOk | NoSdk _ | ApplyFailed _ | FetchError => true
  end.

(** The least wait after a failed round: [Math.max(500, ..)], or
    [Math.max(1_000, ..)] where the background could not be applied. *)
Definition floor_of (r : Round) : Z :=
  match r with
  | NoSdk _ | ApplyFailed _ => 1000
  | _ => 500
  end.

(** The look-ups of the tunnel that find nothing before the first one that
    finds a URL. *)
Fixpoint misses (fetches : list jsval) : nat :=
  match fetches with
  | [] => O
  | tunnelUrl :: rest => if truthy tunnelUrl then O else S (misses rest)
  end.

End ZoomPoll.

(** ** The companion ([plan.md]): saving and loading the wheels *)

Module WheelState.
Import Js Dial.

Local Open Scope list_scope.

(** Line 199. *)
Definition WHEEL_STATE_SAVE_DELAY_MS : Z := 400.

(** A number as the native side hands it over: a finite number, or one of
    [NaN], [Infinity] and [-Infinity], which this code does not tell
    apart. *)
Inductive number := Finite (q : Q) | NotFinite.

(** [WheelPersistedState], lines 257-260; [positions] is [None] when the
    value is not an array. *)
Record WheelPersistedState := {
  positions : option (list number);
  activeIndex : number;
}.

(** [Math.round] of a finite number: the nearest integer, a half rounded
    up. *)
Definition Math_round (q : Q) : Z :=
  (2 * Qnum q + Zpos (Qden q)) / (2 * Zpos (Qden q)).

(** [Math.trunc] of a finite number. *)
Definition Math_trunc (q : Q) : Z := Z.quot (Qnum q) (Zpos (Qden q)).

Definition set_suppressWheelStateSave (b : bool) (w : Wheels) : Wheels :=
  {| wheelPositions := wheelPositions w; activeWheelIndex := activeWheelIndex w;
     wheelsLocked := wheelsLocked w; wheelStateLoaded := wheelStateLoaded w;
     suppressWheelStateSave := b;
     wheelStateSaveTimeout := wheelStateSaveTimeout w |}.

Definition set_wheelStateLoaded (b : bool) (w : Wheels) : Wheels :=
  {| wheelPositions := wheelPositions w; activeWheelIndex := activeWheelIndex w;
     wheelsLocked := wheelsLocked w; wheelStateLoaded := b;
     suppressWheelStateSave := suppressWheelStateSave w;
     wheelStateSaveTimeout := wheelStateSaveTimeout w |}.

(** [((Math.round(value) % CHARSET.length) + CHARSET.length) % CHARSET.length] *)
Definition normalized (value : number) : jsnum :=
  match value with
  | Finite q =>
      Int (Z.rem (Z.rem (Math_round q) CHARSET_length + CHARSET_length)
                 CHARSET_length)
  | NotFinite => NaN
  end.

(** The [forEach] of [applyPersistedWheelState], from [index] on. *)
Fixpoint forEach_position (index : Z) (values : list number)
    (p : gmap Z jsnum) : gmap Z jsnum :=
  match values with
  | [] => p
  | value :: rest =>
      forEach_position (index + 1) rest (<[index := normalized value]> p)
  end.

(** [plan.md], lines 1782-1805. *)
Definition applyPersistedWheelState (state : WheelPersistedState) (w : Wheels)
    : Wheels :=
  match positions state with
  | None => w
  | Some values =>
      if negb (Z.of_nat (length values) =? WHEEL_COUNT) then w
      else
        let resolvedActiveIndex :=
          match activeIndex state with
          | Finite q => Math_trunc q
          | NotFinite => activeWheelIndex w
          end in
        let w1 := set_suppressWheelStateSave true w in
        let w2 := set_wheelPositions (forEach_position 0 values (wheelPositions w1)) w1 in
        let w3 := setActiveWheel resolvedActiveIndex w2 in
        set_suppressWheelStateSave false w3
  end.

(** How [invoke("load_wheel_state")] settles: with a state or [null], or
    with a rejection. *)
Inductive LoadResult :=
| Loaded (state : option WheelPersistedState)
| LoadRejected.

(** [plan.md], lines 1807-1821: [loadPersistedWheelState] after its
    [await]. *)
Definition loadPersistedWheelState (r : LoadResult) (w : Wheels) : Wheels :=
  let w1 :=
    match r with
    | Loaded (Some state) => applyPersistedWheelState state w
    | Loaded None => setActiveWheel (activeWheelIndex w) w
    | LoadRejected => w
    end in
  scheduleWheelStateSave (set_wheelStateLoaded true w1).

(** [[...wheelPositions]]: the elements of the array, a hole read as
    [undefined] ([None]). *)
Definition spread (p : gmap Z jsnum) : list (option jsnum) :=
  List.map (fun i => p !! Z.of_nat i) (seq 0 (Z.to_nat (Session.array_length p))).

(** The argument of [invoke("save_wheel_state", ..)], lines 1771-1776. *)
Record SavedState := {
  saved_positions : list (option jsnum);
  saved_activeIndex : Z;
}.

(** The callback of the save timer, lines 1763-1766, with the start of
    [persistWheelState]: the state that is sent to the native side. *)
Definition save_timer_fires (w : Wheels) : Wheels * SavedState :=
  (set_wheelStateSaveTimeout false w,
   {| saved_positions := spread (wheelPositions w);
      saved_activeIndex := activeWheelIndex w |}).

(** The state that the native side gives back for a state that it was
    sent, when it stores the numbers as they are; [None] when a position is
    not a number. *)
Definition stored_number (v : option jsnum) : option number :=
  match v with
  | Some (Int z) => Some (Finite (inject_Z z))
  | _ => None
  end.

Fixpoint stored_numbers (vs : list (option jsnum)) : option (list number) :=
  match vs with
  | [] => Some []
  | v :: rest =>
      match stored_number v, stored_numbers rest with
      | Some n, Some ns => Some (n :: ns)
      | _, _ => None
      end
  end.

Definition stored (s : SavedState) : option WheelPersistedState :=
  match stored_numbers (saved_positions s) with
  | Some ns =>
      Some {| positions := Some ns;
              activeIndex := Finite (inject_Z (saved_activeIndex s)) |}
  | None => None
  end.

Definition is_finite (n : number) : Prop :=
  match n with Finite _ => True | NotFinite => False end.

(** The stored values are numbers (no [NaN], no infinity). *)
Definition finite_positions (state : WheelPersistedState) : Prop :=
  match positions state with
  | Some values => Forall is_finite values
  | None => True
  end.

(** A state of twenty positions, some of them out of range or fractional. *)
Definition stored_example : WheelPersistedState :=
  {| positions :=
       Some (Finite (-1) :: Finite (405 # 10) :: Finite (79 # 2)
               :: List.map (fun _ => Finite 7) (seq 0 17));
     activeIndex := Finite (- (27 # 10)) |}.

End WheelState.

(** ** The companion ([plan.md]): the gesture loop and its histories *)

Module GestureLoop.
Import Js Dial Gesture.

Local Open Scope Q_scope.
Local Open Scope list_scope.

(** The samples are in the order of their times. *)
Fixpoint chronological (h : list HandSample) : Prop :=
  match h with
  | [] => True
  | s :: rest => Forall (fun s' => time s <= time s') rest /\ chronological rest
  end.

(** No sample is later than [now]. *)
Definition not_after (now : Q) (h : list HandSample) : Prop :=
  Forall (fun s => time s <= now) h.

(** Every sample was taken in the 350 ms before [now]. *)
Definition within_window (now : Q) (h : list HandSample) : Prop :=
  Forall (fun s => now - GESTURE_HISTORY_WINDOW_MS <= time s /\ time s <= now) h.

(** The part of the recognizer's state that the scan of the hands leaves
    alone: the three times of [gestureState] and the last distance between
    two hands. *)
Definition clocks_of (g : Gestures) : GestureState * option (Q * Q) :=
  (gestureState g, lastTwoHandDistance g).

(** The variables of the loop, and the two histories. *)
Definition loop_of (g : Gestures) : bool * Q * bool :=
  (gestureLoopId g, lastGestureVideoTimeMs g, gesturesLocked g).

Definition histories_of (g : Gestures) : list HandSample * list HandSample :=
  (handHistories_Left g, handHistories_Right g).

(** The hands of a detection: [result?.landmarks], empty when absent. *)
Definition hands_of (result : option HandLandmarkerResult)
    : list (list NormalizedLandmark) :=
  match result with
  | Some r => match landmarks r with Some hands => hands | None => [] end
  | None => []
  end.

(** The label that the detection gives to the hand at [index]. *)
Definition hand_label (result : option HandLandmarkerResult) (index : nat)
    : option HandLabel :=
  match result with
  | Some r => label_of r index
  | None => None
  end.

(** What a command does to the wheels: the call that the command stands
    for.  [Clap] calls [handleClapSubmit], which does not write the wheels
    before its first [await]. *)
Definition command_op (w : Wheels) (c : Command) : Wheels :=
  match c with
  | SpinUp => adjustWheel (activeWheelIndex w) (-1) w
  | SpinDown => adjustWheel (activeWheelIndex w) 1 w
  | NextDial => setActiveWheel (activeWheelIndex w + 1) w
  | PrevDial => setActiveWheel (activeWheelIndex w - 1) w
  | Clap => w
  end.

Definition is_spin (c : Command) : bool :=
  match c with SpinUp | SpinDown => true | _ => false end.

Definition is_switch (c : Command) : bool :=
  match c with NextDial | PrevDial => true | _ => false end.

Definition is_clap (c : Command) : bool :=
  match c with Clap => true | _ => false end.

(** Two commands that share a cool-down. *)
Definition same_kind (c d : Command) : bool :=
  (is_spin c && is_spin d) || (is_switch c && is_switch d)
  || (is_clap c && is_clap d).

(** The cool-down of a command, and the time of [gestureState] that
    records its last issue. *)
Definition cooldown_of (c : Command) : Q :=
  match c with
  | SpinUp | SpinDown => WHEEL_ADJUST_COOLDOWN_MS
  | NextDial | PrevDial => WHEEL_SWITCH_COOLDOWN_MS
  | Clap => CLAP_COOLDOWN_MS
  end.

Definition clock_of (c : Command) (gs : GestureState) : Q :=
  match c with
  | SpinUp | SpinDown => lastWheelAdjustTime gs
  | NextDial | PrevDial => lastWheelSwitchTime gs
  | Clap => lastClapTime gs
  end.

(** Frames processed one after the other, each with the detection and the
    reading of the clock that it is given: the time and the commands of
    each frame. *)
Fixpoint run_frames (frames : list (option HandLandmarkerResult * Q))
    (w : Wheels) (g : Gestures) : list (Q * list Command) :=
  match frames with
  | [] => []
  | (result, now) :: rest =>
      let f := processHandLandmarks result now w g in
      (now, fr_commands f) :: run_frames rest (fr_wheels f) (fr_gestures f)
  end.

(** The video element as [runGestureLoop] reads it: [readyState] and
    [currentTime] (in seconds). *)
Record Video := { readyState : Z; currentTime : Q }.

Definition HAVE_CURRENT_DATA : Z := 2.

(** [plan.md], lines 1907-1928: one call of [runGestureLoop].  [video] is
    [None] when the element or the detector is missing; [detect] is
    [handLandmarker.detectForVideo]; [now] is [performance.now()]. *)
Definition runGestureLoop (video : option Video)
    (detect : Q -> option HandLandmarkerResult) (now : Q)
    (w : Wheels) (g : Gestures) : Frame :=
  match video with
  | None =>
      {| fr_wheels := w;
         fr_gestures := set_loop false (lastGestureVideoTimeMs g) g;
         fr_commands := [] |}
  | Some v =>
      let again g' := set_loop true (lastGestureVideoTimeMs g') g' in
      if (readyState v <? HAVE_CURRENT_DATA)%Z then
        {| fr_wheels := w; fr_gestures := again g; fr_commands := [] |}
      else
        let timestampMs := currentTime v * 1000 in
        if Qeq_bool timestampMs (lastGestureVideoTimeMs g) then
          {| fr_wheels := w; fr_gestures := again g; fr_commands := [] |}
        else
          let g1 := set_loop (gestureLoopId g) timestampMs g in
          let f := processHandLandmarks (detect timestampMs) now w g1 in
          {| fr_wheels := fr_wheels f; fr_gestures := again (fr_gestures f);
             fr_commands := fr_commands f |}
  end.

(** A history of three samples, the last one at 3300 ms. *)
Definition history_example : list HandSample :=
  [ {| x := 1 # 2; y := 1 # 2; time := 2900 |};
    {| x := 1 # 2; y := 4 # 10; time := 3100 |};
    {| x := 1 # 2; y := 3 # 10; time := 3300 |} ].

(** Four frames: a clap (at 3100 ms), and a second clap three seconds
    later. *)
Definition two_claps : list (option HandLandmarkerResult * Q) :=
  [ (Some (two_open_hands (30#100) (50#100) (70#100) (50#100)), 3000);
    (Some (two_open_hands (48#100) (50#100) (52#100) (50#100)), 3100);
    (Some (two_open_hands (30#100) (50#100) (70#100) (50#100)), 6000);
    (Some (two_open_hands (48#100) (50#100) (52#100) (50#100)), 6100) ].

End GestureLoop.

(** ** The companion ([plan.md]): the life of the automatic loop *)

Module AutoLoop.
Import Js Decision Pipeline.

Local Open Scope list_scope.

(** While the loop is enabled something is pending that will start the
    next cycle: the timer, a capture in flight (its end arms the timer) or
    a render in flight (its end arms the timer).  While the loop is
    disabled no timer is pending.  The flag [autoAwaitingBackgroundImage]
    is set only while a render is in flight. *)
Definition loop_alive (sys : System) : Prop :=
  (autoTranscriptionEnabled (vars sys) = false ->
   autoTranscriptionTimer (vars sys) = None)
  /\ (autoAwaitingBackgroundImage (vars sys) = true -> renders sys <> [])
  /\ (autoTranscriptionEnabled (vars sys) = true ->
      autoTranscriptionTimer (vars sys) <> None
      \/ captures sys <> [] \/ renders sys <> []).

(** The loop is started; one cycle runs to a Generate decision, whose
    render fails; the loop is stopped during the next cycle. *)
Definition trace_loop : list Event :=
  [ Start_loop 500; Timer_fires;
    Capture_settles 0 (EnsureCaptureResolved true);
    Capture_settles 0 RecordingResolved;
    Capture_settles 0 EncodingResolved;
    Capture_settles 0 (TranscriptionResolved true "waves on a beach");
    Capture_settles 0 (DecisionResolved (generate "a beach"));
    Render_settles 0 RenderRejected;
    Timer_fires;
    Stop_loop;
    Capture_settles 0 (EnsureCaptureResolved false) ].

End AutoLoop.

(** ** The companion ([plan.md]): submitting by a clap *)

Module Submit.
Import Js Session.

Local Open Scope list_scope.

(** [plan.md], lines 2120-2125: [handleClapSubmit] up to
    [await registerAgent()].  The boolean tells whether the registration
    went on to [await ensureCapture()].  (Where the Start button exists but
    another control is missing, [registerAgent] returns at once: the result
    is the same as for a missing button.) *)
Definition handleClapSubmit (c : Companion) : Companion * bool :=
  if negb (controlsPresent (ui c)) || startBtn_disabled (ui c)
     || Gesture.gesturesLocked (gestures c)
  then (c, false)
  else registerAgent c.

(** The page while [invoke("register_agent", ..)] is pending, if the start
    gets that far. *)
Definition start_in_flight (capture : Capture) (now : Q) (c : Companion)
    : option Companion :=
  let '(c1, suspended1) := registerAgent c in
  if suspended1 then
    let '(c2, suspended2) := registerAgent_captured capture now c1 in
    if suspended2 then Some c2 else None
  else None.

(** What the page keeps between two sessions: everything but the status
    line. *)
Definition same_but_status (c c' : Companion) : Prop :=
  wheels c' = wheels c /\ gestures c' = gestures c /\ pipeline c' = pipeline c
  /\ startBtn_disabled (ui c') = startBtn_disabled (ui c)
  /\ stopBtn_disabled (ui c') = stopBtn_disabled (ui c).

(** The same but for the recognizer, which keeps its lock. *)
Definition same_but_recognizer (c c' : Companion) : Prop :=
  wheels c' = wheels c /\ pipeline c' = pipeline c
  /\ gesturesLocked c' = gesturesLocked c
  /\ startBtn_disabled (ui c') = startBtn_disabled (ui c)
  /\ stopBtn_disabled (ui c') = stopBtn_disabled (ui c).

(** The start gets as far as [await ensureCapture()]. *)
Definition reaches_capture (c : Companion) : bool :=
  controlsPresent (ui c) && permissionsGranted (ui c).

End Submit.

(** ** The companion ([plan.md]): the WAV encoder *)

Module Wav.
Import Js.

Local Open Scope list_scope.

(** A [DataView] over a fresh [ArrayBuffer]: its length and the bytes
    written so far; a byte that was not written is 0. *)
Record DataView := {
  byteLength : Z;
  bytes : gmap Z Z;
}.

(** [new DataView(new ArrayBuffer(length))] *)
Definition new_view (length : Z) : DataView :=
  {| byteLength := length; bytes := ∅ |}.

Definition getUint8 (view : DataView) (offset : Z) : Z :=
  match bytes view !! offset with
  | Some b => b
  | None => 0
  end.

(** [view.setUint8(offset, value)]: the value is taken modulo 256. *)
Definition setUint8 (offset value : Z) (view : DataView) : DataView :=
  {| byteLength := byteLength view;
     bytes := <[offset := value mod 256]> (bytes view) |}.

(** [view.setUint16(offset, value, true)] and [view.setInt16(offset, value,
    true)]: the two low bytes of the value, the lower one first. *)
Definition setUint16 (offset value : Z) (view : DataView) : DataView :=
  setUint8 (offset + 1) (value / 256) (setUint8 offset value view).

Definition setInt16 (offset value : Z) (view : DataView) : DataView :=
  setUint16 offset value view.

(** [view.setUint32(offset, value, true)] *)
Definition setUint32 (offset value : Z) (view : DataView) : DataView :=
  setUint8 (offset + 3) (value / 16777216)
    (setUint8 (offset + 2) (value / 65536)
       (setUint8 (offset + 1) (value / 256) (setUint8 offset value view))).

(** The getters of [DataView], little-endian. *)
Definition getUint16 (view : DataView) (offset : Z) : Z :=
  getUint8 view offset + 256 * getUint8 view (offset + 1).

Definition getInt16 (view : DataView) (offset : Z) : Z :=
  let u := getUint16 view offset in
  if 32768 <=? u then u - 65536 else u.

Definition getUint32 (view : DataView) (offset : Z) : Z :=
  getUint8 view offset + 256 * getUint8 view (offset + 1)
  + 65536 * getUint8 view (offset + 2) + 16777216 * getUint8 view (offset + 3).

(** [text.charCodeAt(index)] *)
Definition charCode (c : ascii) : Z := Z.of_N (N_of_ascii c).

(** [plan.md], lines 1140-1144. *)
Fixpoint writeUtf8String (offset : Z) (text : string) (view : DataView)
    : DataView :=
  match text with
  | EmptyString => view
  | String c rest => writeUtf8String (offset + 1) rest (setUint8 offset (charCode c) view)
  end.

(** [Math.max] and [Math.min] of two finite numbers. *)
Definition Math_max (a b : Q) : Q := if Gesture.Qleb a b then b else a.
Definition Math_min (a b : Q) : Q := if Gesture.Qleb a b then a else b.

(** The 16-bit sample of a sample of the buffer, lines 1168-1170. *)
Definition pcm16 (sample : Q) : Z :=
  let clamped := Math_max (-1) (Math_min 1 sample) in
  let intSample :=
    if Gesture.Qltb clamped 0 then (clamped * 32768)%Q else (clamped * 32767)%Q in
  WheelState.Math_trunc intSample.

(** The [for] loop of [encodeWav], from [offset] on. *)
Fixpoint write_samples (offset : Z) (samples : list Q) (view : DataView)
    : DataView :=
  match samples with
  | [] => view
  | sample :: rest =>
      write_samples (offset + 2) rest (setInt16 offset (pcm16 sample) view)
  end.

(** [plan.md], lines 1146-1175.  The samples are finite numbers. *)
Definition encodeWav (samples : list Q) (sampleRate : Z) : DataView :=
  let bytesPerSample := 2 in
  let blockAlign := bytesPerSample in
  let n := Z.of_nat (length samples) in
  let view := new_view (44 + n * bytesPerSample) in
  let view := writeUtf8String 0 "RIFF" view in
  let view := setUint32 4 (36 + n * bytesPerSample) view in
  let view := writeUtf8String 8 "WAVE" view in
  let view := writeUtf8String 12 "fmt " view in
  let view := setUint32 16 16 view in
  let view := setUint16 20 1 view in
  let view := setUint16 22 1 view in
  let view := setUint32 24 sampleRate view in
  let view := setUint32 28 (sampleRate * bytesPerSample) view in
  let view := setUint16 32 blockAlign view in
  let view := setUint16 34 (8 * bytesPerSample) view in
  let view := writeUtf8String 36 "data" view in
  let view := setUint32 40 (n * bytesPerSample) view in
  write_samples 44 samples view.

(** The characters at [offset], read back. *)
Fixpoint read_chars (view : DataView) (offset : Z) (count : nat) : list Z :=
  match count with
  | O => []
  | S count' => getUint8 view offset :: read_chars view (offset + 1) count'
  end.

Definition char_codes (text : string) : list Z :=
  List.map charCode (list_ascii_of_string text).

(** Every byte written lies at an offset of [lo, hi) and is a byte. *)
Definition written_within (lo hi : Z) (view : DataView) : Prop :=
  forall k v, bytes view !! k = Some v -> lo <= k < hi /\ 0 <= v < 256.

(** Line 208. *)
Definition TRANSCRIPTION_SAMPLE_RATE : Z := 16000.

(** Six samples, one of them beyond the range [-1, 1]. *)
Definition example_samples : list Q :=
  [0%Q; 1%Q; (-1)%Q; (1 # 2)%Q; (- (7 # 2))%Q; (3 # 10)%Q].

End Wav.

(** ** The companion ([plan.md]): the event log and the preflight *)

Module EventLog.
Import Js.

Local Open Scope list_scope.

(** Line 200. *)
Definition MAX_LOG_ENTRIES : nat := 200.

Inductive Level := Info | Error.

(** A child of the log container: its text and whether it carries the
    class of an error. *)
Record Entry := { entry_text : string; entry_error : bool }.

(** The [for] loop of lines 410-415: the last child is removed [excess]
    times, as long as there is one. *)
Fixpoint remove_last_children (excess : nat) (children : list Entry)
    : list Entry :=
  match excess with
  | O => children
  | S excess' => remove_last_children excess' (removelast children)
  end.

(** [plan.md], lines 387-417: the children of the log container, the
    newest first, after [logEvent(message, level)]; [timestamp] is the
    formatted time of day.  [None] is a page without the container. *)
Definition logEvent (timestamp message : string) (level : Level)
    (logContainerEl : option (list Entry)) : option (list Entry) :=
  match logContainerEl with
  | None => None
  | Some children =>
      let formatted := ("[" ++ timestamp ++ "] " ++ message)%string in
      let entry :=
        {| entry_text := formatted;
           entry_error := match level with Error => true | Info => false end |} in
      let children1 := entry :: children in
      let excess := (length children1 - MAX_LOG_ENTRIES)%nat in
      Some (remove_last_children excess children1)
  end.

(** One call of [logEvent], and calls one after the other. *)
Record LogCall := { at_time : string; message : string; level : Level }.

Definition entry_of (call : LogCall) : Entry :=
  {| entry_text := ("[" ++ at_time call ++ "] " ++ message call)%string;
     entry_error := match level call with Error => true | Info => false end |}.

Definition logEvents (calls : list LogCall) (logContainerEl : option (list Entry))
    : option (list Entry) :=
  fold_left (fun el call => logEvent (at_time call) (message call) (level call) el)
            calls logContainerEl.

End EventLog.

Module Preflight.
Import Js.

Local Open Scope list_scope.

(** [PreflightState], line 296. *)
Inductive PreflightState := Pending | Running | Waiting | Success | Failure.

(** The module-level variables of the preflight (lines 319-326, with
    [permissionsGranted]) and what the page shows of it. *)
Record Page := {
  docker : PreflightState;
  dmr : PreflightState;
  models : PreflightState;
  permissions : PreflightState;
  preflightInProgress : bool;
  preflightCompleted : bool;
  permissionsGranted : bool;
  retryBtn_hidden : bool;
  permissionsBtn_disabled : bool;
  appVisible : bool;               (* toggleAppVisibility *)
  startBtn_disabled : bool;
  stopBtn_disabled : bool;
}.

(** How the awaited calls of one run settle. *)
Record Outcomes := {
  docker_ok : bool;       (* invoke("check_docker_access") resolves *)
  dmr_ok : bool;          (* the model runner answers with a 2xx status *)
  models_ok : bool;       (* invoke("ensure_models_ready") resolves *)
  media_ok : bool;        (* startCameraAndMic() resolves with true *)
}.

(** The page after [initializeApp] (lines 2494-2496): nothing checked, the
    application hidden. *)
Definition initial_page : Page :=
  {| docker := Pending; dmr := Pending; models := Pending; permissions := Pending;
     preflightInProgress := false; preflightCompleted := false;
     permissionsGranted := false; retryBtn_hidden := true;
     permissionsBtn_disabled := true; appVisible := false;
     startBtn_disabled := true; stopBtn_disabled := true |}.

(** [resetPreflightState], lines 485-502, after [preflightInProgress = true]. *)
Definition resetPreflightState (p : Page) : Page :=
  {| docker := Pending; dmr := Pending; models := Pending; permissions := Pending;
     preflightInProgress := preflightInProgress p;
     preflightCompleted := preflightCompleted p;
     permissionsGranted := permissionsGranted p;
     retryBtn_hidden := true; permissionsBtn_disabled := true;
     appVisible := appVisible p;
     startBtn_disabled := startBtn_disabled p;
     stopBtn_disabled := stopBtn_disabled p |}.

Definition set_checks (d m o s : PreflightState) (p : Page) : Page :=
  {| docker := d; dmr := m; models := o; permissions := s;
     preflightInProgress := preflightInProgress p;
     preflightCompleted := preflightCompleted p;
     permissionsGranted := permissionsGranted p;
     retryBtn_hidden := retryBtn_hidden p;
     permissionsBtn_disabled := permissionsBtn_disabled p;
     appVisible := appVisible p;
     startBtn_disabled := startBtn_disabled p;
     stopBtn_disabled := stopBtn_disabled p |}.

Definition set_preflightInProgress (b : bool) (p : Page) : Page :=
  {| docker := docker p; dmr := dmr p; models := models p;
     permissions := permissions p;
     preflightInProgress := b;
     preflightCompleted := preflightCompleted p;
     permissionsGranted := permissionsGranted p;
     retryBtn_hidden := retryBtn_hidden p;
     permissionsBtn_disabled := permissionsBtn_disabled p;
     appVisible := appVisible p;
     startBtn_disabled := startBtn_disabled p;
     stopBtn_disabled := stopBtn_disabled p |}.

(** [showPreflightFailure], lines 504-510. *)
Definition showPreflightFailure (p : Page) : Page :=
  {| docker := docker p; dmr := dmr p; models := models p;
     permissions := permissions p;
     preflightInProgress := false;
     preflightCompleted := preflightCompleted p;
     permissionsGranted := permissionsGranted p;
     retryBtn_hidden := false;
     permissionsBtn_disabled := permissionsBtn_disabled p;
     appVisible := appVisible p;
     startBtn_disabled := startBtn_disabled p;
     stopBtn_disabled := stopBtn_disabled p |}.

(** [ensurePermissions], lines 2355-2405, with the result of
    [startCameraAndMic]: the page and the value returned. *)
Definition ensurePermissions (media : bool) (p : Page) : Page * bool :=
  if permissionsGranted p then (p, true)
  else if media then
    ({| docker := docker p; dmr := dmr p; models := models p;
        permissions := Success;
        preflightInProgress := preflightInProgress p;
        preflightCompleted := preflightCompleted p;
        permissionsGranted := true;
        retryBtn_hidden := retryBtn_hidden p;
        permissionsBtn_disabled := true;
        appVisible := appVisible p;
        startBtn_disabled := false;
        stopBtn_disabled := true |}, true)
  else
    ({| docker := docker p; dmr := dmr p; models := models p;
        permissions := Failure;
        preflightInProgress := preflightInProgress p;
        preflightCompleted := preflightCompleted p;
        permissionsGranted := false;
        retryBtn_hidden := retryBtn_hidden p;
        permissionsBtn_disabled := false;
        appVisible := appVisible p;
        startBtn_disabled := startBtn_disabled p;
        stopBtn_disabled := stopBtn_disabled p |}, false).

(** [completePreflight], lines 2407-2415. *)
Definition completePreflight (p : Page) : Page :=
  if preflightCompleted p then p
  else
    {| docker := docker p; dmr := dmr p; models := models p;
       permissions := permissions p;
       preflightInProgress := preflightInProgress p;
       preflightCompleted := true;
       permissionsGranted := permissionsGranted p;
       retryBtn_hidden := retryBtn_hidden p;
       permissionsBtn_disabled := permissionsBtn_disabled p;
       appVisible := true;
       startBtn_disabled := startBtn_disabled p;
       stopBtn_disabled := stopBtn_disabled p |}.

(** [plan.md], lines 549-720: one run of [runPreflightChecks], from the call
    to the end of the activation, with the outcomes of its awaits. *)
Definition runPreflightChecks (o : Outcomes) (p : Page) : Page :=
  if preflightCompleted p || preflightInProgress p then p
  else
    let p0 := resetPreflightState (set_preflightInProgress true p) in
    let p1 := set_checks Running (dmr p0) (models p0) (permissions p0) p0 in
    if negb (docker_ok o) then
      showPreflightFailure (set_checks Failure (dmr p1) (models p1) (permissions p1) p1)
    else
      let p2 := set_checks Success Running (models p1) (permissions p1) p1 in
      if negb (dmr_ok o) then
        showPreflightFailure
          (set_checks (docker p2) Failure (models p2) (permissions p2) p2)
      else
        let p3 := set_checks (docker p2) Success Waiting (permissions p2) p2 in
        if negb (models_ok o) then
          showPreflightFailure
            (set_checks (docker p3) (dmr p3) Failure (permissions p3) p3)
        else
          let p4 := set_checks (docker p3) (dmr p3) Success (permissions p3) p3 in
          let '(p5, autoSuccess) := ensurePermissions (media_ok o) p4 in
          if autoSuccess then completePreflight (set_preflightInProgress false p5)
          else
            {| docker := docker p5; dmr := dmr p5; models := models p5;
               permissions := Waiting;
               preflightInProgress := false;
               preflightCompleted := preflightCompleted p5;
               permissionsGranted := permissionsGranted p5;
               retryBtn_hidden := true;
               permissionsBtn_disabled := false;
               appVisible := appVisible p5;
               startBtn_disabled := startBtn_disabled p5;
               stopBtn_disabled := stopBtn_disabled p5 |}.

(** [handlePreflightPermissions], lines 722-731: the click on the
    permissions button, with the result of [startCameraAndMic]. *)
Definition handlePreflightPermissions (media : bool) (p : Page) : Page :=
  if preflightCompleted p then p
  else
    let '(p1, success) := ensurePermissions media p in
    if success then completePreflight p1 else p1.

(** All four checks pass. *)
Definition all_ok (o : Outcomes) : bool :=
  docker_ok o && dmr_ok o && models_ok o && media_ok o.

(** The states of the four checks, in the order in which they run. *)
Definition checks (p : Page) : list PreflightState :=
  [docker p; dmr p; models p; permissions p].

End Preflight.

(** * Theorems *)

(** ** Screen names *)

Module NameFacts.
Import Js NameSpec.

Lemma lower_char_whitespace c : is_whitespace (lower_char c) = is_whitespace c.
Proof. destruct c as [[] [] [] [] [] [] [] []]; reflexivity. Qed.

Lemma trimEnd_ends_clean s : ends_clean (trimEnd s) = true.
Proof.
  induction s as [|c r IH]; simpl; [reflexivity|].
  destruct (trimEnd r) as [|d r'] eqn:E.
  - destruct (is_whitespace c) eqn:W; simpl; [reflexivity| now rewrite W].
  - simpl. simpl in IH. exact IH.
Qed.

Lemma trimEnd_starts s : starts_ws s = false -> starts_ws (trimEnd s) = false.
Proof.
  destruct s as [|c r]; simpl; [reflexivity|].
  intros W. destruct (trimEnd r); [rewrite W|]; simpl; auto.
Qed.

Lemma trimStart_starts s : starts_ws (trimStart s) = false.
Proof.
  induction s as [|c r IH]; simpl; [reflexivity|].
  destruct (is_whitespace c) eqn:W; [exact IH| simpl; exact W].
Qed.

Lemma toLowerCase_starts s : starts_ws (toLowerCase s) = starts_ws s.
Proof. destruct s; simpl; [reflexivity| apply lower_char_whitespace]. Qed.

Lemma toLowerCase_ends_clean s : ends_clean (toLowerCase s) = ends_clean s.
Proof.
  induction s as [|c r IH]; [reflexivity|].
  destruct r as [|d r']; [simpl; now rewrite lower_char_whitespace|].
  exact IH.
Qed.

Lemma fields_cons s : exists f fs, fields s = f :: fs.
Proof.
  induction s as [|c r (f & fs & E)]; simpl; [eauto|].
  destruct (is_whitespace c); [eauto|]. rewrite E. eauto.
Qed.

Lemma words_ws c r : is_whitespace c = true -> words (String c r) = words r.
Proof. intros W. unfold words. simpl. now rewrite W. Qed.

(** A word goes on while the next code unit is not white space. *)
Lemma words_char_char c d r :
  is_whitespace c = false -> is_whitespace d = false ->
  exists w ws, words (String d r) = w :: ws
               /\ words (String c (String d r)) = String c w :: ws.
Proof.
  intros Wc Wd. unfold words.
  change (fields (String c (String d r)))
    with (if is_whitespace c then EmptyString :: fields (String d r)
          else match fields (String d r) with
               | f :: fs => String c f :: fs
               | [] => [String c EmptyString]
               end).
  rewrite Wc. simpl fields at 1 2. rewrite Wd.
  destruct (fields_cons r) as (f & fs & E). rewrite E. simpl.
  eauto.
Qed.

(** A word ends before white space and at the end of the string. *)
Lemma words_char_end c r :
  is_whitespace c = false -> starts_ws r = true \/ r = EmptyString ->
  words (String c r) = String c EmptyString :: words r.
Proof.
  intros Wc H. unfold words. simpl. rewrite Wc.
  destruct r as [|d r']; [reflexivity|].
  destruct H as [H|H]; [|discriminate]. simpl in H. simpl. rewrite H. reflexivity.
Qed.

Lemma words_nonempty s :
  ends_clean s = true -> s <> EmptyString -> words s <> [].
Proof.
  induction s as [|c r IH]; [congruence|].
  intros E _. destruct (is_whitespace c) eqn:Wc.
  - rewrite words_ws by assumption. destruct r as [|d r'].
    + simpl in E. rewrite Wc in E. discriminate.
    + apply IH; [exact E| discriminate].
  - destruct r as [|d r'].
    + rewrite words_char_end by auto. discriminate.
    + destruct (is_whitespace d) eqn:Wd.
      * rewrite words_char_end by (simpl; auto). discriminate.
      * destruct (words_char_char c d r' Wc Wd) as (w & ws & _ & ->). discriminate.
Qed.

Lemma unwords_cons_char c w ws :
  unwords (String c w :: ws) = String c (unwords (w :: ws)).
Proof. unfold unwords. simpl. destruct ws; reflexivity. Qed.

Lemma unwords_cons_word w ws :
  ws <> [] -> unwords (w :: ws) = (w ++ " " ++ unwords ws)%string.
Proof. unfold unwords. destruct ws; [congruence| reflexivity]. Qed.

(** The scan of [replace] against the words of the string, for a string
    that does not end in white space. *)
Lemma replace_words s :
  ends_clean s = true ->
  replace_ws_from true s = unwords (words s)
  /\ replace_ws_from false s =
       if starts_ws s then String " " (unwords (words s)) else unwords (words s).
Proof.
  induction s as [|c r IH]; [intros _; split; reflexivity|].
  intros E.
  assert (Er : r <> EmptyString -> ends_clean r = true).
  { destruct r; [congruence| intros _; exact E]. }
  destruct (is_whitespace c) eqn:Wc.
  - assert (Hr : r <> EmptyString).
    { intros ->. simpl in E. rewrite Wc in E. discriminate. }
    destruct (IH (Er Hr)) as [IHt _].
    rewrite words_ws by assumption. simpl. rewrite Wc, IHt. split; reflexivity.
  - assert (Hgo : replace_ws_from false (String c r) = unwords (words (String c r))).
    { simpl. rewrite Wc. destruct r as [|d r'].
      - rewrite words_char_end by auto. reflexivity.
      - destruct (IH (Er ltac:(discriminate))) as [_ IHf].
        rewrite IHf. destruct (is_whitespace d) eqn:Wd.
        + simpl starts_ws. rewrite Wd.
          rewrite (words_char_end c) by (simpl; auto).
          rewrite unwords_cons_word; [reflexivity|].
          apply words_nonempty; [exact E| discriminate].
        + simpl starts_ws. rewrite Wd.
          destruct (words_char_char c d r' Wc Wd) as (w & ws & -> & ->).
          now rewrite unwords_cons_char. }
    split.
    + rewrite <- Hgo. simpl. now rewrite Wc.
    + simpl starts_ws. rewrite Wc. exact Hgo.
Qed.

Lemma replace_trimmed s :
  replace_ws_runs (toLowerCase (trim s)) = unwords (words (toLowerCase (trim s))).
Proof.
  unfold replace_ws_runs.
  destruct (replace_words (toLowerCase (trim s))) as [_ H].
  - rewrite toLowerCase_ends_clean. apply trimEnd_ends_clean.
  - rewrite H, toLowerCase_starts. unfold trim.
    now rewrite trimEnd_starts by apply trimStart_starts.
Qed.

Example normalize_example :
  Hub.normalizeScreenName (JStr "  Ada   LOVELACE  ") = "ada lovelace"
  /\ Hub.normalizeScreenName (JNum 7) = EmptyString.
Proof. split; reflexivity. Qed.

(** C9.  The hub's [normalizeScreenName] and the Zoom webview's
    [normalizeScreenName] return the same string for every input value, and
    that string is the one the specification describes: the empty string for
    an input that is not a string, otherwise the input trimmed, lowercased,
    with its words separated by single spaces. *)
Theorem normalizeScreenName_agree (input : jsval) :
  Hub.normalizeScreenName input = ZoomApp.normalizeScreenName input
  /\ Hub.normalizeScreenName input = spec_normalizeScreenName input.
Proof.
  split; [reflexivity|].
  destruct input; try reflexivity. apply replace_trimmed.
Qed.

End NameFacts.

(** ** The registration handler of the hub *)

Module HubFacts.
Import Js Hub.

Lemma deliver_loop_S post url fuel attempt :
  deliver_loop post url (S fuel) attempt =
  if (attempt <? maxAttempts)%nat then
    if post attempt then ([AxiosPost url], true)
    else if (maxAttempts <=? S attempt)%nat then ([AxiosPost url], false)
    else let '(effs, ok) := deliver_loop post url fuel (S attempt) in
         (AxiosPost url
            :: Sleep (Z.min 12000 (1000 * Z.of_nat (S attempt))) :: effs, ok)
  else ([], false).
Proof. reflexivity. Qed.

Lemma deliver_loop_all_fail post url fuel attempt :
  (forall n, (n < maxAttempts)%nat -> post n = false) ->
  snd (deliver_loop post url fuel attempt) = false.
Proof.
  intros H. revert attempt. induction fuel as [|fuel IH]; intros attempt.
  - reflexivity.
  - rewrite deliver_loop_S.
    destruct (attempt <? maxAttempts)%nat eqn:Lt; [|reflexivity].
    apply Nat.ltb_lt in Lt. rewrite (H attempt Lt).
    destruct (maxAttempts <=? S attempt)%nat; [reflexivity|].
    specialize (IH (S attempt)).
    destruct (deliver_loop post url fuel (S attempt)) as [effs ok]. exact IH.
Qed.

(** With fuel for every attempt that is left, the loop posts once per
    attempt: the bound of the model is the bound of the code. *)
Lemma deliver_loop_posts post url fuel attempt :
  (forall n, (n < maxAttempts)%nat -> post n = false) ->
  (maxAttempts - attempt <= fuel)%nat ->
  count_posts (fst (deliver_loop post url fuel attempt))
  = (maxAttempts - attempt)%nat.
Proof.
  intros H. revert attempt. induction fuel as [|fuel IH]; intros attempt Hf.
  - cbn [deliver_loop fst count_posts List.filter length]. lia.
  - rewrite deliver_loop_S.
    destruct (attempt <? maxAttempts)%nat eqn:Lt.
    + apply Nat.ltb_lt in Lt. rewrite (H attempt Lt).
      destruct (maxAttempts <=? S attempt)%nat eqn:Le.
      * apply Nat.leb_le in Le. cbn [fst count_posts List.filter length]. lia.
      * apply Nat.leb_gt in Le. specialize (IH (S attempt) ltac:(lia)).
        destruct (deliver_loop post url fuel (S attempt)) as [effs ok].
        cbn [fst count_posts List.filter length] in *. lia.
    + apply Nat.ltb_ge in Lt. cbn [fst count_posts List.filter length]. lia.
Qed.

Lemma deliver_all_fail w url :
  (forall n, (n < maxAttempts)%nat -> axios_post_ok w n = false) ->
  snd (deliverDefaultNanobananaKey w url) = false.
Proof.
  intros H. unfold deliverDefaultNanobananaKey.
  destruct (or_else _ _) as [secret|]; [|reflexivity].
  destruct (is_empty secret); [reflexivity|].
  destruct url; try reflexivity.
  pose proof (deliver_loop_all_fail (axios_post_ok w)
                (strip_trailing_slash s ++ "/internal/secrets/nanobanana")
                maxAttempts 0%nat H) as E.
  destruct (deliver_loop _ _ _ _) as [effs ok]. exact E.
Qed.

(** C10.  In the handler of POST /api/register-agent: a delivery whose
    fifteen attempts all fail is a failed delivery; whenever the hub's key
    is needed ([requiresNanobananaKey] truthy, [hasLocalNanobananaKey]
    not), the record was written and the delivery fails, the response is
    500 and the last call of the handler is the deletion of the record it
    wrote; and a response 200 is sent only if no hub key was needed or the
    delivery succeeded. *)
Theorem register_agent_key_delivery (w : World) (b : RegisterBody) :
  let doc := normalizeScreenName (screenName b) in
  let delivered := snd (deliverDefaultNanobananaKey w (tunnelUrl b)) in
  ((forall n, (n < maxAttempts)%nat -> axios_post_ok w n = false) ->
     delivered = false)
  /\ (record_written w b = true ->
      needsDefaultNanobananaKey b = true ->
      delivered = false ->
      status (fst (register_agent w b)) = 500
      /\ exists effs,
           snd (register_agent w b)
           = FirestoreSet doc :: effs
               ++ [FirestoreDelete doc (firestore_delete_ok w)])
  /\ (status (fst (register_agent w b)) = 200 ->
      needsDefaultNanobananaKey b = false \/ delivered = true).
Proof.
  cbv zeta. split; [apply deliver_all_fail|]. split.
  - unfold record_written, register_agent. intros Hw Hn Hd.
    apply andb_prop in Hw as [Hw Hs]. apply andb_prop in Hw as [Hname Hurl].
    apply negb_true_iff in Hname. rewrite Hname, Hurl, Hs, Hn. simpl.
    destruct (deliverDefaultNanobananaKey w (tunnelUrl b)) as [effs ok].
    simpl in Hd. subst ok. simpl. eauto.
  - unfold register_agent.
    destruct (is_empty _ || negb _); [discriminate|].
    destruct (negb (firestore_set_ok w)); [discriminate|].
    destruct (needsDefaultNanobananaKey b); [|auto].
    destruct (deliverDefaultNanobananaKey w (tunnelUrl b)) as [effs [|]];
      [auto| discriminate].
Qed.

(** The theorem at a hub whose POSTs all fail (fifteen POSTs, then the
    deletion, and the response 500), and at a hub whose second POST
    resolves (the response 200). *)
Lemma register_agent_key_delivery_witness :
  (status (fst (register_agent world_unreachable body_needs_key)) = 500
   /\ count_posts (snd (register_agent world_unreachable body_needs_key)) = 15%nat
   /\ last (snd (register_agent world_unreachable body_needs_key))
      = Some (FirestoreDelete "ada lovelace" true))
  /\ (status (fst (register_agent world_second_try body_needs_key)) = 200
      /\ (needsDefaultNanobananaKey body_needs_key = false
          \/ snd (deliverDefaultNanobananaKey world_second_try
                    (tunnelUrl body_needs_key)) = true)).
Proof.
  split; [split; [|split; vm_compute; reflexivity]|split].
  - apply (proj1 (proj2 (register_agent_key_delivery world_unreachable body_needs_key))).
    + vm_compute; reflexivity.
    + vm_compute; reflexivity.
    + apply (proj1 (register_agent_key_delivery world_unreachable body_needs_key)).
      intros n _. reflexivity.
  - vm_compute; reflexivity.
  - apply (proj2 (proj2 (register_agent_key_delivery world_second_try body_needs_key))).
    vm_compute; reflexivity.
Defined.

End HubFacts.

(** ** The wheels *)

Module DialFacts.
Import Js Dial.

Lemma CHARSET_length_40 : CHARSET_length = 40.
Proof. reflexivity. Qed.

Lemma scheduleWheelStateSave_positions w :
  wheelPositions (scheduleWheelStateSave w) = wheelPositions w.
Proof. unfold scheduleWheelStateSave. now destruct (_ || _). Qed.

Lemma scheduleWheelStateSave_active w :
  activeWheelIndex (scheduleWheelStateSave w) = activeWheelIndex w.
Proof. unfold scheduleWheelStateSave. now destruct (_ || _). Qed.

Lemma setActiveWheel_positions index w :
  wheelPositions (setActiveWheel index w) = wheelPositions w.
Proof. unfold setActiveWheel. now rewrite scheduleWheelStateSave_positions. Qed.

Lemma setActiveWheel_active index w :
  activeWheelIndex (setActiveWheel index w)
  = Z.rem (Z.rem index WHEEL_COUNT + WHEEL_COUNT) WHEEL_COUNT.
Proof. unfold setActiveWheel. now rewrite scheduleWheelStateSave_active. Qed.

(** [setActiveWheel] wraps every integer into [0, 20). *)
Lemma setActiveWheel_bounds index w :
  0 <= activeWheelIndex (setActiveWheel index w) < WHEEL_COUNT.
Proof.
  rewrite setActiveWheel_active. unfold WHEEL_COUNT.
  pose proof (Z.rem_bound_abs index 20 ltac:(lia)).
  apply Z.rem_bound_pos; lia.
Qed.

Lemma adjustWheel_active index delta w :
  activeWheelIndex (adjustWheel index delta w) = activeWheelIndex w.
Proof. unfold adjustWheel. now rewrite scheduleWheelStateSave_active. Qed.

Lemma adjustWheel_positions index delta w :
  wheelPositions (adjustWheel index delta w)
  = <[index :=
        js_rem (js_add (js_add (read_position (wheelPositions w) index) delta)
                       CHARSET_length) CHARSET_length]> (wheelPositions w).
Proof. unfold adjustWheel. now rewrite scheduleWheelStateSave_positions. Qed.

Lemma initial_lookup i :
  0 <= i < WHEEL_COUNT -> wheelPositions initial_wheels !! i = Some (Int 0).
Proof.
  intros H. unfold WHEEL_COUNT in H.
  assert (E : i = Z.of_nat (Z.to_nat i)) by lia. rewrite E.
  assert (L : (Z.to_nat i < 20)%nat) by lia.
  generalize dependent (Z.to_nat i). intros n _ L.
  do 20 (destruct n as [|n]; [reflexivity|]). lia.
Qed.

Lemma initial_lookup_outside i :
  ~ 0 <= i < WHEEL_COUNT -> wheelPositions initial_wheels !! i = None.
Proof.
  intros H. unfold WHEEL_COUNT in H. cbn [wheelPositions initial_wheels].
  unfold initial_positions. apply not_elem_of_list_to_map_1.
  rewrite list_elem_of_fmap. intros ((k & v) & -> & Hin).
  apply list_elem_of_In, in_map_iff in Hin as (n & Hn & Hseq).
  apply in_seq in Hseq. injection Hn as <- _. cbn in H.
  unfold WHEEL_COUNT in Hseq. lia.
Qed.

Lemma initial_in_range : in_range initial_wheels.
Proof.
  split; [|split].
  - intros i H. exists (Int 0). split; [now apply initial_lookup|].
    cbn. rewrite CHARSET_length_40. lia.
  - apply initial_lookup_outside.
  - cbn. unfold WHEEL_COUNT. lia.
Qed.

Lemma setActiveWheel_in_range index w :
  in_range w -> in_range (setActiveWheel index w).
Proof.
  intros (Hp & Ho & _). split; [|split].
  - intros i Hi. rewrite setActiveWheel_positions. auto.
  - intros i Hi. rewrite setActiveWheel_positions. auto.
  - apply setActiveWheel_bounds.
Qed.

Lemma adjustWheel_in_range index delta w :
  0 <= index < WHEEL_COUNT -> - CHARSET_length <= delta ->
  in_range w -> in_range (adjustWheel index delta w).
Proof.
  intros Hi Hd (Hp & Ho & Ha). split; [|split].
  - intros i Hin. rewrite adjustWheel_positions.
    destruct (decide (index = i)) as [->|Hne].
    + rewrite lookup_insert_eq. eexists; split; [reflexivity|].
      destruct (Hp i Hin) as (v & Hv & Hr). unfold read_position. rewrite Hv.
      destruct v as [p|]; [|contradiction]. cbn in Hr |- *.
      rewrite CHARSET_length_40 in *. apply Z.rem_bound_pos; lia.
    + rewrite lookup_insert_ne by assumption. auto.
  - intros i Hout. rewrite adjustWheel_positions.
    rewrite lookup_insert_ne by (intros ->; contradiction). auto.
  - now rewrite adjustWheel_active.
Qed.

(** C6 as it is written fails on the code: one step of -41 takes the
    position of wheel 0 to -1, and an adjustment of index 20 adds a
    twenty-first position that is [NaN]. *)
Lemma positions_leave_range :
  wheelPositions (run_ops [Adjust 0 (-41)] initial_wheels) !! 0 = Some (Int (-1))
  /\ ~ in_range (run_ops [Adjust 0 (-41)] initial_wheels)
  /\ wheelPositions (run_ops [Adjust 20 1] initial_wheels) !! 20 = Some NaN
  /\ ~ in_range (run_ops [Adjust 20 1] initial_wheels).
Proof.
  split; [reflexivity|]. split; [|split; [reflexivity|]].
  - intros (Hp & _).
    destruct (Hp 0 ltac:(unfold WHEEL_COUNT; lia)) as (v & Hv & Hr).
    change (Some (Int (-1)) = Some v) in Hv. injection Hv as <-. cbn in Hr. lia.
  - intros (_ & Ho & _). specialize (Ho 20 ltac:(unfold WHEEL_COUNT; lia)).
    change (Some NaN = None) in Ho. discriminate.
Qed.

(** C6, amended.  After any finite sequence of [adjustWheel] and
    [setActiveWheel] in which every adjusted index is a wheel (0..19) and
    every delta is at least -40 (the callers pass -1 and 1), with any
    integer as the argument of [setActiveWheel], every wheel position is in
    [0, 40), the vector still has its twenty positions, and
    [activeWheelIndex] is in [0, 20). *)
Theorem supported_ops_keep_range (ops : list DialOp) (w : Wheels) :
  in_range w -> Forall op_supported ops -> in_range (run_ops ops w).
Proof.
  intros Hw Hops. revert w Hw. induction Hops as [|op ops Hop _ IH]; intros w Hw.
  - exact Hw.
  - apply IH. destruct op as [index delta|index]; cbn [run_op].
    + destruct Hop. now apply adjustWheel_in_range.
    + now apply setActiveWheel_in_range.
Qed.

(** The theorem from the initial wheels, with negative and large
    arguments. *)
Lemma supported_ops_keep_range_witness :
  in_range
    (run_ops [Adjust 0 (-1); SetActive (-7); Adjust 19 1000; Adjust 0 (-40);
              SetActive 123456789] initial_wheels).
Proof.
  apply supported_ops_keep_range.
  - apply initial_in_range.
  - repeat constructor; cbn; unfold WHEEL_COUNT; rewrite ?CHARSET_length_40; lia.
Defined.

End DialFacts.

(** ** The JSON reader *)

Module JsonFacts.
Import Js Json.
Local Open Scope nat_scope.

Lemma skip_ws_length s : String.length (skip_ws s) <= String.length s.
Proof.
  induction s as [|c r IH]; simpl; [lia|].
  destruct (is_json_ws c); simpl; lia.
Qed.

Lemma next_is_length c s r : next_is c s = Some r -> String.length s = S (String.length r).
Proof.
  destruct s as [|d s']; simpl; [discriminate|].
  destruct (Ascii.eqb d c); [|discriminate]. now intros [= ->].
Qed.

Lemma strip_prefix_length p s r :
  strip_prefix p s = Some r -> String.length s = String.length p + String.length r.
Proof.
  revert s. induction p as [|a p IH]; intros s; simpl.
  - now intros [= ->].
  - destruct s as [|b s']; [discriminate|].
    destruct (Ascii.eqb a b); [|discriminate].
    intros H. apply IH in H. simpl. lia.
Qed.

Lemma read_digits_length acc n s v n' r :
  read_digits acc n s = (v, n', r) -> String.length r <= String.length s.
Proof.
  revert acc n. induction s as [|c s IH]; intros acc n; simpl.
  - intros [= _ _ <-]. simpl. lia.
  - destruct (digit_of c).
    + intros H. apply IH in H. lia.
    + intros [= _ _ <-]. simpl. lia.
Qed.

Lemma read_exponent_length m fd s q r :
  read_exponent m fd s = Some (q, r) -> String.length r <= String.length s.
Proof.
  unfold read_exponent. destruct s as [|c s'].
  - intros [= _ <-]. simpl. lia.
  - destruct (Ascii.eqb c "e" || Ascii.eqb c "E").
    + assert (H : forall neg r1, String.length r1 <= String.length s' ->
                (let '(ev, n, r2) := read_digits 0 0 r1 in
                 match n with
                 | O => None
                 | S _ => Some (scale10 m ((if neg : bool then (- ev)%Z else ev)
                                           - Z.of_nat fd), r2)
                 end) = Some (q, r) -> String.length r <= String.length (String c s')).
      { intros neg r1 L. destruct (read_digits 0 0 r1) as [[ev n] r2] eqn:E.
        apply read_digits_length in E. destruct n; [discriminate|].
        intros [= _ <-]. simpl. lia. }
      destruct (next_is "-" s') as [x|] eqn:E1.
      * apply next_is_length in E1. apply (H true x). lia.
      * destruct (next_is "+" s') as [x|] eqn:E2.
        -- apply next_is_length in E2. apply (H false x). lia.
        -- apply (H false s'). lia.
    + intros [= _ <-]. lia.
Qed.

Lemma read_fraction_length ip s q r :
  read_fraction ip s = Some (q, r) -> String.length r <= String.length s.
Proof.
  unfold read_fraction. destruct (next_is "." s) as [x|] eqn:E.
  - apply next_is_length in E.
    destruct (read_digits ip 0 x) as [[m n] r1] eqn:D.
    apply read_digits_length in D. destruct n; [discriminate|].
    intros H. apply read_exponent_length in H. lia.
  - apply read_exponent_length.
Qed.

Lemma read_number_length s q r : read_number s = Some (q, r) -> String.length r < String.length s.
Proof.
  unfold read_number.
  assert (H : forall neg s1, String.length s1 <= String.length s ->
            match s1 with
            | EmptyString => None
            | String c r0 =>
                match digit_of c with
                | None => None
                | Some d =>
                    let '(ip, s2) :=
                      if (d =? 0)%Z then (0%Z, r0)
                      else let '(v, _, r') := read_digits d 1 r0 in (v, r') in
                    match read_fraction ip s2 with
                    | Some (q0, rest) =>
                        Some (if neg : bool then (- q0)%Q else q0, rest)
                    | None => None
                    end
                end
            end = Some (q, r) -> String.length r < String.length s).
  { intros neg [|c r0] L; [discriminate|]. simpl in L.
    destruct (digit_of c) as [d|]; [|discriminate].
    destruct (d =? 0)%Z.
    - destruct (read_fraction 0 r0) as [[q0 rest]|] eqn:F; [|discriminate].
      apply read_fraction_length in F. intros [= _ <-]. lia.
    - destruct (read_digits d 1 r0) as [[v n] r'] eqn:D.
      apply read_digits_length in D.
      destruct (read_fraction v r') as [[q0 rest]|] eqn:F; [|discriminate].
      apply read_fraction_length in F. intros [= _ <-]. lia. }
  destruct (next_is "-" s) as [x|] eqn:E.
  - apply next_is_length in E. apply (H true x). lia.
  - apply (H false s). lia.
Qed.

Lemma cons_unit_length c x str r n :
  (forall str' r', x = Some (str', r') -> String.length r' < n) ->
  cons_unit c x = Some (str, r) -> String.length r < n.
Proof.
  intros H. destruct x as [[s' r']|]; simpl; [|discriminate].
  intros [= _ <-]. eauto.
Qed.

Lemma read_string_length s : forall str r,
  read_string s = Some (str, r) -> String.length r < String.length s.
Proof.
  induction s as [s IH] using (well_founded_induction
                                (well_founded_ltof _ String.length)).
  unfold ltof in IH. intros str r.
  destruct s as [|c s1]; simpl; [discriminate|].
  destruct (Ascii.eqb c dquote); [intros [= _ <-]; lia|].
  assert (Hrec : forall c' s' n, String.length s' < String.length (String c s1) ->
            String.length s' < n -> cons_unit c' (read_string s') = Some (str, r) ->
            String.length r < n).
  { intros c' s' n L Ln. apply cons_unit_length. intros str' r' E.
    apply IH in E; [lia| exact L]. }
  destruct (Ascii.eqb c "\").
  - destruct s1 as [|e s2]; [discriminate|].
    repeat match goal with
           | |- (if Ascii.eqb e ?k then _ else _) = _ -> _ =>
               destruct (Ascii.eqb e k);
                 [ try (apply Hrec; simpl; lia) | ]
           end; try discriminate.
    destruct s2 as [|h1 [|h2 [|h3 [|h4 s3]]]]; try discriminate.
    destruct (hex_of h1), (hex_of h2), (hex_of h3), (hex_of h4); try discriminate.
    apply Hrec; simpl; lia.
  - destruct (N_of_ascii c <? 32)%N; [discriminate|].
    apply Hrec; simpl; lia.
Qed.

Lemma read_scalar_length c s v r :
  read_scalar c s = Some (v, r) -> String.length r < String.length s.
Proof.
  unfold read_scalar.
  destruct (Ascii.eqb c dquote).
  { destruct (next_is dquote s) as [x|] eqn:E; [|discriminate].
    apply next_is_length in E.
    destruct (read_string x) as [[str r1]|] eqn:R; [|discriminate].
    apply read_string_length in R. intros [= _ <-]. lia. }
  destruct (Ascii.eqb c "t").
  { destruct (strip_prefix "true" s) as [r1|] eqn:E; [|discriminate].
    apply strip_prefix_length in E. simpl in E. intros [= _ <-]. lia. }
  destruct (Ascii.eqb c "f").
  { destruct (strip_prefix "false" s) as [r1|] eqn:E; [|discriminate].
    apply strip_prefix_length in E. simpl in E. intros [= _ <-]. lia. }
  destruct (Ascii.eqb c "n").
  { destruct (strip_prefix "null" s) as [r1|] eqn:E; [|discriminate].
    apply strip_prefix_length in E. simpl in E. intros [= _ <-]. lia. }
  destruct (read_number s) as [[q r1]|] eqn:E; [|discriminate].
  apply read_number_length in E. intros [= _ <-]. lia.
Qed.

Lemma read_value_S fuel s :
  read_value (S fuel) s =
  match skip_ws s with
  | EmptyString => None
  | String c r as s0 =>
      if Ascii.eqb c "{" then
        match next_is "}" (skip_ws r) with
        | Some r1 => Some (VObj [], r1)
        | None => read_members fuel [] (skip_ws r)
        end
      else if Ascii.eqb c "[" then
        match next_is "]" (skip_ws r) with
        | Some r1 => Some (VArr [], r1)
        | None => read_elements fuel [] (skip_ws r)
        end
      else read_scalar c s0
  end.
Proof. reflexivity. Qed.

Lemma read_elements_S fuel acc s :
  read_elements (S fuel) acc s =
  match read_value fuel s with
  | None => None
  | Some (v, r) =>
      match next_is "," (skip_ws r) with
      | Some r1 => read_elements fuel (v :: acc) r1
      | None =>
          match next_is "]" (skip_ws r) with
          | Some r1 => Some (VArr (rev (v :: acc)), r1)
          | None => None
          end
      end
  end.
Proof. reflexivity. Qed.

Lemma read_members_S fuel acc s :
  read_members (S fuel) acc s =
  match next_is dquote (skip_ws s) with
  | None => None
  | Some r =>
      match read_string r with
      | None => None
      | Some (key, r1) =>
          match next_is ":" (skip_ws r1) with
          | None => None
          | Some r2 =>
              match read_value fuel r2 with
              | None => None
              | Some (v, r3) =>
                  match next_is "," (skip_ws r3) with
                  | Some r4 => read_members fuel ((key, v) :: acc) r4
                  | None =>
                      match next_is "}" (skip_ws r3) with
                      | Some r4 => Some (VObj (rev ((key, v) :: acc)), r4)
                      | None => None
                      end
                  end
              end
          end
      end
  end.
Proof. reflexivity. Qed.

(** The reader is adequate at every fuel. *)
Lemma reader_adequate fuel0 :
  adequate (fun f (_ : unit) s => read_value f s) fuel0
  /\ adequate read_elements fuel0
  /\ adequate read_members fuel0.
Proof.
  induction fuel0 as [|f0 (IHv & IHe & IHm)].
  { unfold adequate. split; [|split]; intros a s v rest E; discriminate E. }
  split; [|split].
  - intros [] s v rest. rewrite read_value_S.
    pose proof (skip_ws_length s) as Ls.
    destruct (skip_ws s) as [|c r] eqn:Es; [discriminate|].
    simpl in Ls. pose proof (skip_ws_length r) as Lr.
    destruct (Ascii.eqb c "{") eqn:Eo.
    { destruct (next_is "}" (skip_ws r)) as [r1|] eqn:En.
      - pose proof (next_is_length _ _ _ En) as Ln. intros [= <- <-].
        split; [lia|]. intros [|f] Hf; [lia|].
        now rewrite read_value_S, Es, Eo, En.
      - intros H. destruct (IHm _ _ _ _ H) as [L Hf0].
        split; [lia|]. intros [|f] Hf; [lia|].
        rewrite read_value_S, Es, Eo, En. apply Hf0. lia. }
    destruct (Ascii.eqb c "[") eqn:Ea.
    { destruct (next_is "]" (skip_ws r)) as [r1|] eqn:En.
      - pose proof (next_is_length _ _ _ En) as Ln. intros [= <- <-].
        split; [lia|]. intros [|f] Hf; [lia|].
        now rewrite read_value_S, Es, Eo, Ea, En.
      - intros H. destruct (IHe _ _ _ _ H) as [L Hf0].
        split; [lia|]. intros [|f] Hf; [lia|].
        rewrite read_value_S, Es, Eo, Ea, En. apply Hf0. lia. }
    intros H. pose proof (read_scalar_length _ _ _ _ H) as L. simpl in L.
    split; [lia|]. intros [|f] Hf; [lia|].
    now rewrite read_value_S, Es, Eo, Ea.
  - intros acc s v rest. rewrite read_elements_S.
    destruct (read_value f0 s) as [[v1 r]|] eqn:Ev; [|discriminate].
    destruct (IHv tt _ _ _ Ev) as [Lv Hv].
    pose proof (skip_ws_length r) as Lr.
    destruct (next_is "," (skip_ws r)) as [r1|] eqn:Ec.
    + pose proof (next_is_length _ _ _ Ec) as Ln.
      intros H. destruct (IHe _ _ _ _ H) as [L He].
      split; [lia|]. intros [|f] Hf; [lia|].
      rewrite read_elements_S, (Hv f) by lia. rewrite Ec. apply He. lia.
    + destruct (next_is "]" (skip_ws r)) as [r1|] eqn:En; [|discriminate].
      pose proof (next_is_length _ _ _ En) as Ln. intros [= <- <-].
      split; [lia|]. intros [|f] Hf; [lia|].
      rewrite read_elements_S, (Hv f) by lia. now rewrite Ec, En.
  - intros acc s v rest. rewrite read_members_S.
    pose proof (skip_ws_length s) as Ls.
    destruct (next_is dquote (skip_ws s)) as [r|] eqn:Eq; [|discriminate].
    pose proof (next_is_length _ _ _ Eq) as Lq.
    destruct (read_string r) as [[key r1]|] eqn:Ek; [|discriminate].
    pose proof (read_string_length _ _ _ Ek) as Lk.
    pose proof (skip_ws_length r1) as Lr1.
    destruct (next_is ":" (skip_ws r1)) as [r2|] eqn:Ecol; [|discriminate].
    pose proof (next_is_length _ _ _ Ecol) as Lcol.
    destruct (read_value f0 r2) as [[v1 r3]|] eqn:Ev; [|discriminate].
    destruct (IHv tt _ _ _ Ev) as [Lv Hv].
    pose proof (skip_ws_length r3) as Lr3.
    destruct (next_is "," (skip_ws r3)) as [r4|] eqn:Ec.
    + pose proof (next_is_length _ _ _ Ec) as Ln.
      intros H. destruct (IHm _ _ _ _ H) as [L Hm].
      split; [lia|]. intros [|f] Hf; [lia|].
      rewrite read_members_S, Eq, Ek, Ecol, (Hv f) by lia.
      rewrite Ec. apply Hm. lia.
    + destruct (next_is "}" (skip_ws r3)) as [r4|] eqn:En; [|discriminate].
      pose proof (next_is_length _ _ _ En) as Ln. intros [= <- <-].
      split; [lia|]. intros [|f] Hf; [lia|].
      rewrite read_members_S, Eq, Ek, Ecol, (Hv f) by lia.
      now rewrite Ec, En.
Qed.

(** No text is refused for want of fuel: whatever value the reader finds
    with some fuel, it finds with the fuel that [parse] gives it. *)
Lemma parse_fuel fuel0 text v rest :
  read_value fuel0 text = Some (v, rest) ->
  read_value (S (String.length text)) text = Some (v, rest).
Proof.
  intros H. destruct (reader_adequate fuel0) as (Hv & _).
  destruct (Hv tt _ _ _ H) as [L Hf]. apply Hf. lia.
Qed.

(** *** Texts without escapes are inside the model *)












Lemma narrow_items items :
  Forall (fun x => narrow x <> None) items -> narrow (VArr items) <> None.
Proof.
  intros H. cbn [narrow].
  match goal with |- context [?f items] => set (go := f) end.
  assert (G : go items <> None).
  { induction H as [|x l Hx Hl IH]; [discriminate|].
    cbn. fold go. destruct (narrow x); [|congruence].
    destruct (go l); [discriminate | congruence]. }
  destruct (go items); [discriminate | congruence].
Qed.

Lemma narrow_props props :
  Forall (fun kx => narrow_units (fst kx) <> None /\ narrow (snd kx) <> None) props ->
  narrow (VObj props) <> None.
Proof.
  intros H. cbn [narrow].
  match goal with |- context [?f props] => set (go := f) end.
  assert (G : go props <> None).
  { induction H as [|[k x] l [Hk Hx] Hl IH]; [discriminate|].
    cbn. fold go. cbn [fst snd] in *.
    destruct (narrow_units k); [|congruence].
    destruct (narrow x); [|congruence].
    destruct (go l); [discriminate | congruence]. }
  destruct (go props); [discriminate | congruence].
Qed.






(** Escapes.  An escape below U+0100 gives the character of the model; a
    text with an escape from U+0100 on, in a string or in a key, is [Wide];
    a text that [JSON.parse] refuses is a [SyntaxError], also when such an
    escape comes before the error. *)
Lemma parse_escapes :
  parse (dq "'caf\u00e9 \u0041\n'")
  = Value (JStr ("caf" ++ String (ascii_of_N 233) (" A" ++ String "010" "")))
  /\ parse (dq "{'status':'skip','reason':'quiet','note':'\u2014'}") = Wide
  /\ parse (dq "{'\u2014':1}") = Wide
  /\ parse (dq "['\u2014'") = SyntaxError
  /\ parse (dq "'\u20'") = SyntaxError
  /\ parse (dq "'\x41'") = SyntaxError.
Proof. repeat split; vm_compute; reflexivity. Qed.

End JsonFacts.

(** ** The prompt decision *)

Module DecisionFacts.
Import Js Json Decision.





End DecisionFacts.

(** ** The gesture recognizer *)

Module GestureFacts.
Import Dial Gesture.
Local Open Scope list_scope.









(** C5 as it is written fails on the code: with [wheelsLocked] set,
    [adjustWheel] still changes the positions and [setActiveWheel] still
    changes the active index. *)
Lemma locked_operations_change_state :
  wheelsLocked locked_wheels = true
  /\ wheelPositions (adjustWheel 0 1 locked_wheels) <> wheelPositions locked_wheels
  /\ activeWheelIndex (setActiveWheel 3 locked_wheels)
     <> activeWheelIndex locked_wheels.
Proof.
  split; [reflexivity|]. split.
  - intros E. apply (f_equal (fun p => p !! 0)) in E.
    change (Some (Int 1) = Some (Int 0)) in E. discriminate.
  - intros E. change (3 = 0) in E. discriminate.
Qed.

(** C5, amended.  The lock is tested where user input enters, not in
    [adjustWheel] and [setActiveWheel]: while [wheelsLocked] is set the
    scroll and click listeners of a wheel return the state they were given,
    and while [gesturesLocked] is set [processHandLandmarks] returns it
    too, with no command issued; so the positions and [activeWheelIndex]
    are the same before and after. *)
Theorem locked_input_is_noop :
  (forall w index deltaY, wheelsLocked w = true -> onWheelScroll index deltaY w = w)
  /\ (forall w index clientY rect_top rect_height,
        wheelsLocked w = true ->
        onWheelClick index clientY rect_top rect_height w = w)
  /\ (forall result now w g,
        gesturesLocked g = true ->
        processHandLandmarks result now w g
        = {| fr_wheels := w; fr_gestures := g; fr_commands := [] |}).
Proof.
  split; [|split].
  - intros w index deltaY H. unfold onWheelScroll. now rewrite H.
  - intros w index clientY t h H. unfold onWheelClick. now rewrite H.
  - intros result now w g H. unfold processHandLandmarks. now rewrite H.
Qed.

(** The theorem at locked wheels: a scroll, a click, and a frame that
    would spin the wheel. *)
Lemma locked_input_is_noop_witness :
  onWheelScroll 3 5 locked_wheels = locked_wheels
  /\ onWheelClick 3 10 0 100 locked_wheels = locked_wheels
  /\ fr_wheels
       (processHandLandmarks
          (Some (two_open_hands (50#100) (50#100) (55#100) (50#100))) 3100
          locked_wheels
          (set_gesturesLocked true (fr_gestures drop_frame_1)))
     = locked_wheels.
Proof.
  destruct locked_input_is_noop as (Hscroll & Hclick & Hframe).
  split; [|split].
  - apply Hscroll. reflexivity.
  - apply Hclick. reflexivity.
  - rewrite Hframe; reflexivity.
Defined.

End GestureFacts.

(** ** The capture pipeline *)

Module PipelineFacts.
Import Js Decision Pipeline.
Local Open Scope list_scope.

Lemma scheduleAutoTranscription_busy d v :
  busy (scheduleAutoTranscription d v) = busy v.
Proof. unfold scheduleAutoTranscription. now destruct (negb _). Qed.

Lemma scheduleAutoTranscription_prompt d v :
  lastBackgroundPrompt (scheduleAutoTranscription d v) = lastBackgroundPrompt v.
Proof. unfold scheduleAutoTranscription. now destruct (negb _). Qed.

Lemma startAutoTranscriptionLoop_busy d v :
  busy (startAutoTranscriptionLoop d v) = busy v.
Proof.
  unfold startAutoTranscriptionLoop. rewrite scheduleAutoTranscription_busy.
  now destruct (negb _).
Qed.

Lemma stopAutoTranscriptionLoop_busy v : busy (stopAutoTranscriptionLoop v) = busy v.
Proof. unfold stopAutoTranscriptionLoop. now destruct (negb _). Qed.

Lemma capture_abort_busy v :
  busy (capture_abort v) = (false, isBackgroundImageInProgress v).
Proof.
  unfold capture_abort.
  destruct (autoTranscriptionEnabled _); [rewrite scheduleAutoTranscription_busy|];
    reflexivity.
Qed.

Lemma capture_finally_busy v :
  busy (capture_finally v) = (false, isBackgroundImageInProgress v).
Proof.
  unfold capture_finally.
  destruct (_ && _); [rewrite scheduleAutoTranscription_busy|]; reflexivity.
Qed.

Lemma requestBackgroundImage_settled_busy r v :
  busy (requestBackgroundImage_settled r v) = (isTranscriptionInProgress v, false).
Proof.
  unfold requestBackgroundImage_settled.
  destruct (autoTranscriptionEnabled _); [rewrite scheduleAutoTranscription_busy|];
    destruct r as [[u|]|]; try reflexivity; now destruct (is_empty u).
Qed.

Lemma capture_finally_prompt v :
  lastBackgroundPrompt (capture_finally v) = lastBackgroundPrompt v.
Proof.
  unfold capture_finally.
  destruct (_ && _); [rewrite scheduleAutoTranscription_prompt|]; reflexivity.
Qed.

Lemma capture_abort_prompt v :
  lastBackgroundPrompt (capture_abort v) = lastBackgroundPrompt v.
Proof.
  unfold capture_abort.
  destruct (autoTranscriptionEnabled _); [rewrite scheduleAutoTranscription_prompt|];
    reflexivity.
Qed.

Lemma trigger_prompt v :
  lastBackgroundPrompt (fst (triggerTranscriptionCapture v)) = lastBackgroundPrompt v.
Proof.
  unfold triggerTranscriptionCapture.
  destruct (isTranscriptionInProgress v); cbn; [|reflexivity].
  destruct (autoTranscriptionEnabled v);
    [apply scheduleAutoTranscription_prompt|reflexivity].
Qed.

(** [requestBackgroundImage] starts a render exactly when the prompt is
    not blank and no render is in flight; it neither reads nor writes the
    capture guard, and it leaves the accepted prompt alone. *)
Lemma requestBackgroundImage_cases prompt v :
  let r := requestBackgroundImage prompt v in
  isTranscriptionInProgress (fst r) = isTranscriptionInProgress v
  /\ lastBackgroundPrompt (fst r) = lastBackgroundPrompt v
  /\ ((snd r = None /\ fst r = v)
      \/ (snd r = Some (trim prompt)
          /\ isBackgroundImageInProgress v = false
          /\ isBackgroundImageInProgress (fst r) = true)).
Proof.
  unfold requestBackgroundImage.
  destruct (is_empty (trim prompt)); [cbn; auto|].
  destruct (isBackgroundImageInProgress v) eqn:B; [cbn; auto|].
  cbn. repeat split; try (now destruct (autoTranscriptionEnabled v)).
  right. auto.
Qed.

Lemma handle_decided_cases d v :
  let r := handleVirtualBackgroundPrompt_decided d v in
  isTranscriptionInProgress (fst r) = isTranscriptionInProgress v
  /\ ((snd r = None
       /\ isBackgroundImageInProgress (fst r) = isBackgroundImageInProgress v)
      \/ (exists p, snd r = Some p)
          /\ isBackgroundImageInProgress v = false
          /\ isBackgroundImageInProgress (fst r) = true).
Proof.
  destruct d as [[prompt raw|reason raw]|]; cbn; auto.
  destruct (requestBackgroundImage_cases prompt
              (set_lastBackgroundPrompt (Some prompt) v))
    as (H1 & _ & [[H2 H3]|(H2 & H3 & H4)]).
  - split; [exact H1|]. left. split; [exact H2|]. now rewrite H3.
  - split; [exact H1|]. right. eauto.
Qed.

(** A resumption of a capture keeps the capture guard while the activation
    goes on and clears it when the activation is over; it sets the render
    guard only together with a render that it starts, and only when the
    render guard was clear. *)
Lemma capture_resume_cases a s v v' next render :
  capture_resume a s v = Some (v', next, render) ->
  isTranscriptionInProgress v' =
    (match next with Some _ => isTranscriptionInProgress v | None => false end)
  /\ ((render = None
       /\ isBackgroundImageInProgress v' = isBackgroundImageInProgress v)
      \/ (render <> None
          /\ isBackgroundImageInProgress v = false
          /\ isBackgroundImageInProgress v' = true)).
Proof.
  assert (Hab : forall u, isTranscriptionInProgress (capture_abort u) = false
                  /\ isBackgroundImageInProgress (capture_abort u)
                     = isBackgroundImageInProgress u).
  { intros u. pose proof (capture_abort_busy u) as E. unfold busy in E.
    now injection E. }
  assert (Hfi : forall u, isTranscriptionInProgress (capture_finally u) = false
                  /\ isBackgroundImageInProgress (capture_finally u)
                     = isBackgroundImageInProgress u).
  { intros u. pose proof (capture_finally_busy u) as E. unfold busy in E.
    now injection E. }
  assert (Hdone : forall d,
            (let '(v1, r) := handleVirtualBackgroundPrompt_decided d v in
             Some (capture_finally v1, @None CaptureAwait, r))
            = Some (v', next, render) ->
            isTranscriptionInProgress v' =
              (match next with
               | Some _ => isTranscriptionInProgress v
               | None => false
               end)
            /\ ((render = None
                 /\ isBackgroundImageInProgress v' = isBackgroundImageInProgress v)
                \/ (render <> None
                    /\ isBackgroundImageInProgress v = false
                    /\ isBackgroundImageInProgress v' = true))).
  { intros d. pose proof (handle_decided_cases d v) as H.
    destruct (handleVirtualBackgroundPrompt_decided d v) as [v1 r]. cbn in H.
    intros E. injection E as <- <- <-. destruct (Hfi v1) as [F1 F2].
    split; [exact F1|]. rewrite F2.
    destruct H as (_ & [[-> H]|((p & ->) & H3 & H4)]);
      [left; auto | right; repeat split; auto; discriminate]. }
  destruct a, s; cbn [capture_resume]; try discriminate;
    try (intros E; injection E as <- <- <-;
         first [ destruct (Hab v) as [-> ->]
               | destruct (Hfi v) as [-> ->]
               | idtac ];
         now auto).
  - destruct captureReady.
    + destruct (negb (transcribeBtnEl v)); intros E; injection E as <- <- <-;
        [destruct (Hab v) as [-> ->]|]; auto.
    + intros E; injection E as <- <- <-. destruct (Hab v) as [-> ->]. auto.
  - destruct response_ok.
    + destruct (is_empty transcript); [|destruct (is_empty (trim transcript))];
        intros E; injection E as <- <- <-;
        try (destruct (Hfi v) as [-> ->]); auto.
    + intros E; injection E as <- <- <-. destruct (Hfi v) as [-> ->]. auto.
  - apply Hdone.
Qed.

Lemma trigger_cases v :
  let r := triggerTranscriptionCapture v in
  isBackgroundImageInProgress (fst r) = isBackgroundImageInProgress v
  /\ ((isTranscriptionInProgress v = true /\ snd r = None
       /\ isTranscriptionInProgress (fst r) = true)
      \/ (isTranscriptionInProgress v = false /\ snd r = Some AtEnsureCapture
          /\ isTranscriptionInProgress (fst r) = true)).
Proof.
  unfold triggerTranscriptionCapture.
  destruct (isTranscriptionInProgress v) eqn:B; cbn.
  - destruct (autoTranscriptionEnabled v).
    + pose proof (scheduleAutoTranscription_busy
                    AUTO_TRANSCRIPTION_RETRY_DELAY_MS v) as E.
      unfold busy in E. injection E as -> ->. auto.
    + auto.
  - auto.
Qed.

(** What a call of [triggerTranscriptionCapture] does while a capture is
    in flight. *)
Lemma trigger_while_busy v :
  isTranscriptionInProgress v = true ->
  triggerTranscriptionCapture v
  = (if autoTranscriptionEnabled v
     then set_autoTranscriptionTimer (Some AUTO_TRANSCRIPTION_RETRY_DELAY_MS) v
     else v,
     None).
Proof.
  intros B. unfold triggerTranscriptionCapture. rewrite B.
  unfold scheduleAutoTranscription. now destruct (autoTranscriptionEnabled v).
Qed.

Lemma singleton_nth {A} (l : list A) i a :
  (length l <= 1)%nat -> nth_error l i = Some a -> l = [a] /\ i = O.
Proof.
  destruct l as [|x [|y l]]; cbn; intros L E.
  - destruct i; discriminate.
  - destruct i as [|i]; cbn in E; [now injection E as ->| destruct i; discriminate].
  - lia.
Qed.

Lemma launch_held sys :
  guards_held sys -> guards_held (launch sys (triggerTranscriptionCapture (vars sys))).
Proof.
  intros (Hc & Hcf & Hr & Hrf).
  destruct (trigger_cases (vars sys)) as (Hb & [(B & N & B')|(B & N & B')]);
    unfold guards_held, launch; cbn [vars captures renders]; rewrite N, Hb, B'.
  - split; [exact Hc|]. split; [|split; assumption].
    split; [intros _; now apply Hcf| reflexivity].
  - assert (E : captures sys = []).
    { destruct (captures sys); [reflexivity|].
      assert (isTranscriptionInProgress (vars sys) = true)
        by (apply Hcf; discriminate).
      congruence. }
    rewrite E. cbn [app length].
    split; [lia|]. split; [|split; assumption].
    split; [intros _; discriminate| reflexivity].
Qed.

(** Every turn of the event loop keeps the guards. *)
Lemma step_held e sys sys' :
  guards_held sys -> step e sys = Some sys' -> guards_held sys'.
Proof.
  intros H. destruct e; cbn [step].
  - intros E. injection E as <-. now apply launch_held.
  - destruct (autoTranscriptionTimer (vars sys)); [|discriminate].
    set (sys1 := {| vars := set_autoTranscriptionTimer None (vars sys);
                    captures := captures sys; renders := renders sys |}).
    assert (H1 : guards_held sys1) by exact H.
    cbv zeta.
    match goal with
    | |- (if ?c then _ else _) = _ -> _ => destruct c
    end; intros E; injection E as <-; [exact H1|].
    exact (launch_held sys1 H1).
  - destruct H as (Hc & Hcf & Hr & Hrf).
    destruct (nth_error (captures sys) i) as [a|] eqn:Ea; [|discriminate].
    destruct (singleton_nth _ _ _ Hc Ea) as [Ecap ->].
    destruct (capture_resume a s (vars sys)) as [[[v next] render]|] eqn:Er;
      [|discriminate].
    intros E. injection E as <-.
    destruct (capture_resume_cases _ _ _ _ _ _ Er) as (Hb & Hrender).
    assert (Bc : isTranscriptionInProgress (vars sys) = true).
    { apply Hcf. rewrite Ecap. discriminate. }
    unfold guards_held. cbn [vars captures renders]. rewrite Ecap.
    assert (Hcap' :
      (length (match next with
               | Some a' => firstn 0 [a] ++ a' :: skipn 1 [a]
               | None => remove_nth 0 [a]
               end) <= 1)%nat
      /\ (isTranscriptionInProgress v = true <->
          match next with
          | Some a' => firstn 0 [a] ++ a' :: skipn 1 [a]
          | None => remove_nth 0 [a]
          end <> [])).
    { rewrite Hb. destruct next; cbn; rewrite ?Bc; split; try lia;
        split; try discriminate; auto; congruence. }
    destruct Hcap' as [L1 L2]. split; [exact L1|]. split; [exact L2|].
    destruct Hrender as [(-> & Hsame)|(Hsome & Hfree & Hset)].
    + rewrite Hsame. auto.
    + assert (Eren : renders sys = []).
      { destruct (renders sys); [reflexivity|].
        assert (isBackgroundImageInProgress (vars sys) = true)
          by (apply Hrf; discriminate). congruence. }
      rewrite Eren, Hset. destruct render; [|congruence]. cbn.
      split; [lia|]. split; [discriminate| reflexivity].
  - destruct H as (Hc & Hcf & Hr & Hrf).
    destruct (nth_error (renders sys) i) as [p|] eqn:Ep; [|discriminate].
    destruct (singleton_nth _ _ _ Hr Ep) as [Eren ->].
    intros E. injection E as <-.
    pose proof (requestBackgroundImage_settled_busy r (vars sys)) as B.
    unfold busy in B. injection B as B1 B2.
    unfold guards_held. cbn [vars captures renders]. rewrite B1, B2, Eren.
    split; [exact Hc|]. split; [exact Hcf|]. cbn.
    split; [lia|]. split; [discriminate| congruence].
  - intros E. injection E as <-.
    pose proof (startAutoTranscriptionLoop_busy initialDelayMs (vars sys)) as B.
    unfold busy in B. injection B as B1 B2.
    unfold guards_held. cbn [vars captures renders]. rewrite B1, B2. exact H.
  - intros E. injection E as <-.
    pose proof (stopAutoTranscriptionLoop_busy (vars sys)) as B.
    unfold busy in B. injection B as B1 B2.
    unfold guards_held. cbn [vars captures renders]. rewrite B1, B2. exact H.
Qed.

Lemma run_held evs sys sys' :
  guards_held sys -> run evs sys = Some sys' -> guards_held sys'.
Proof.
  revert sys. induction evs as [|e evs IH]; intros sys H; cbn [run].
  - intros E. now injection E as <-.
  - destruct (step e sys) as [sys1|] eqn:E1; [|discriminate].
    apply IH. eapply step_held; eauto.
Qed.

Lemma initial_held : guards_held initial_system.
Proof.
  unfold guards_held. cbn.
  repeat split; auto; try discriminate; congruence.
Qed.

(** C3 as it is written fails on the code.  After a first render that
    succeeded for "a beach", the next cycle decides "a lake" and its render
    fails: the prompt kept is "a lake", while the image shown is still the
    one of "a beach".  And when the decision "a lake" arrives while the
    render of "a beach" is in flight, the request is turned away and the
    prompt kept is "a lake" all the same. *)
Lemma prompt_replaced_without_render :
  (lastBackgroundPrompt (vars (run_from_initial
       (cycle "waves on a beach" (generate "a beach")
        ++ [Render_settles 0 (RenderResolved (Some "data:image/png;base64,AAAA"))])))
     = Some "a beach"
   /\ run trace_render_fails initial_system
      = Some (run_from_initial trace_render_fails)
   /\ lastBackgroundPrompt (vars (run_from_initial trace_render_fails))
      = Some "a lake"
   /\ backgroundImage_src (vars (run_from_initial trace_render_fails))
      = Some "data:image/png;base64,AAAA")
  /\ (run trace_render_busy initial_system
      = Some (run_from_initial trace_render_busy)
      /\ lastBackgroundPrompt (vars (run_from_initial trace_render_busy))
         = Some "a lake"
      /\ renders (run_from_initial trace_render_busy) = ["a beach"]).
Proof. repeat (match goal with |- _ /\ _ => split end); vm_compute; reflexivity. Qed.

(** C3, amended.  [lastBackgroundPrompt] is replaced by the prompt of a
    Generate decision at the moment the decision is received, before the
    render is requested and whatever becomes of the render; no other
    event of the pipeline changes it: not a render that settles (with an
    image or with a failure), not a Skip decision, not a failed stage. *)
Theorem lastBackgroundPrompt_follows_decision (e : Event) (sys sys' : System) :
  step e sys = Some sys' ->
  lastBackgroundPrompt (vars sys') =
    match e with
    | Capture_settles _ (DecisionResolved (Generate prompt _)) => Some prompt
    | _ => lastBackgroundPrompt (vars sys)
    end.
Proof.
  destruct e; cbn [step].
  - intros E. injection E as <-. apply trigger_prompt.
  - destruct (autoTranscriptionTimer (vars sys)); [|discriminate]. cbv zeta.
    match goal with
    | |- (if ?c then _ else _) = _ -> _ => destruct c
    end; intros E; injection E as <-; [reflexivity|].
    cbn [launch vars]. now rewrite trigger_prompt.
  - destruct (nth_error (captures sys) i) as [a|]; [|discriminate].
    destruct (capture_resume a s (vars sys)) as [[[v next] render]|] eqn:Er;
      [|discriminate].
    intros E. injection E as <-. cbn [vars].
    destruct a, s; cbn [capture_resume] in Er; try discriminate;
      try (injection Er as <- <- <-;
           rewrite ?capture_finally_prompt, ?capture_abort_prompt; reflexivity).
    + destruct captureReady; [destruct (negb _)|]; injection Er as <- <- <-;
        rewrite ?capture_abort_prompt; reflexivity.
    + destruct response_ok;
        [destruct (is_empty transcript); [|destruct (is_empty (trim transcript))]|];
        injection Er as <- <- <-; rewrite ?capture_finally_prompt; reflexivity.
    + destruct decision as [prompt raw|reason raw];
        cbn [handleVirtualBackgroundPrompt_decided] in Er.
      * destruct (requestBackgroundImage_cases prompt
                    (set_lastBackgroundPrompt (Some prompt) (vars sys)))
          as (_ & Hp & _).
        destruct (requestBackgroundImage _ _) as [v1 r]. cbn [fst] in Hp.
        injection Er as <- <- <-. now rewrite capture_finally_prompt, Hp.
      * injection Er as <- <- <-. now rewrite capture_finally_prompt.
  - destruct (nth_error (renders sys) i); [|discriminate].
    intros E. injection E as <-. cbn [vars].
    unfold requestBackgroundImage_settled.
    destruct (autoTranscriptionEnabled _);
      [rewrite scheduleAutoTranscription_prompt|];
      destruct r as [[u|]|]; try reflexivity; now destruct (is_empty u).
  - intros E. injection E as <-. cbn [vars]. unfold startAutoTranscriptionLoop.
    rewrite scheduleAutoTranscription_prompt. now destruct (negb _).
  - intros E. injection E as <-. cbn [vars]. unfold stopAutoTranscriptionLoop.
    now destruct (negb _).
Qed.

(** The theorem at the decision "a lake" that arrives while the render of
    "a beach" is in flight. *)
Lemma lastBackgroundPrompt_follows_decision_witness :
  lastBackgroundPrompt (vars (run_from_initial trace_render_busy)) = Some "a lake".
Proof.
  apply (lastBackgroundPrompt_follows_decision
           (Capture_settles 0 (DecisionResolved (generate "a lake")))
           (run_from_initial
              (cycle "waves on a beach" (generate "a beach")
               ++ removelast (cycle "a lake, then" (generate "a lake"))))).
  vm_compute. reflexivity.
Defined.

(** C7.  From every state in which the guards are held (the initial
    state is one) and after any events, at most one activation of
    [triggerTranscriptionCapture] is between its first [await] and its end,
    and [isTranscriptionInProgress] is set exactly then.  A call made
    while it is set starts nothing: it returns at once, having armed the
    timer with the retry delay when the loop is enabled and having changed
    nothing otherwise; so a click or a timer that fires while a capture is
    in flight leaves the activations as they are. *)
Theorem capture_single_flight :
  guards_held initial_system
  /\ (forall sys0 evs sys,
        guards_held sys0 -> run evs sys0 = Some sys ->
        (length (captures sys) <= 1)%nat
        /\ (isTranscriptionInProgress (vars sys) = true <-> captures sys <> []))
  /\ (forall v, isTranscriptionInProgress v = true ->
        triggerTranscriptionCapture v
        = (if autoTranscriptionEnabled v
           then set_autoTranscriptionTimer
                  (Some AUTO_TRANSCRIPTION_RETRY_DELAY_MS) v
           else v,
           None))
  /\ (forall sys0 evs sys e sys',
        guards_held sys0 -> run evs sys0 = Some sys ->
        captures sys <> [] ->
        e = Click_transcribe \/ e = Timer_fires ->
        step e sys = Some sys' ->
        captures sys' = captures sys
        /\ (autoTranscriptionEnabled (vars sys) = true ->
            autoTranscriptionTimer (vars sys')
            = Some AUTO_TRANSCRIPTION_RETRY_DELAY_MS)).
Proof.
  split; [exact initial_held|]. split; [|split; [exact trigger_while_busy|]].
  - intros sys0 evs sys H0 Hrun.
    destruct (run_held evs _ _ H0 Hrun) as (H1 & H2 & _). auto.
  - intros sys0 evs sys e sys' H0 Hrun Hne He.
    destruct (run_held evs _ _ H0 Hrun) as (_ & Hcf & _).
    assert (B : isTranscriptionInProgress (vars sys) = true) by now apply Hcf.
    destruct He as [-> | ->]; cbn [step].
    + intros E. injection E as <-. unfold launch.
      rewrite (trigger_while_busy _ B). cbn.
      split; [reflexivity|]. now intros ->.
    + destruct (autoTranscriptionTimer (vars sys)); [|discriminate]. cbv zeta.
      destruct (autoTranscriptionEnabled (vars sys)) eqn:A;
        cbn [negb autoTranscriptionEnabled set_autoTranscriptionTimer].
      * rewrite A. cbn [negb]. intros E. injection E as <-. unfold launch.
        rewrite (trigger_while_busy (set_autoTranscriptionTimer None (vars sys)) B).
        cbn. rewrite A. cbn. auto.
      * rewrite A. cbn [negb]. intros E. injection E as <-. cbn.
        split; [reflexivity|discriminate].
Qed.

(** The theorem after the loop started, its timer fired and the button
    was clicked: one capture; a further call is turned away with the retry
    delay of 1000 ms; and one more click leaves the capture alone. *)
Lemma capture_single_flight_witness :
  (length (captures (run_from_initial trace_rejected)) <= 1)%nat
  /\ snd (triggerTranscriptionCapture (vars (run_from_initial trace_rejected)))
     = None
  /\ autoTranscriptionTimer
       (fst (triggerTranscriptionCapture (vars (run_from_initial trace_rejected))))
     = Some 1000
  /\ captures (run_from_initial (trace_rejected ++ [Click_transcribe]))
     = captures (run_from_initial trace_rejected).
Proof.
  destruct capture_single_flight as (Hinit & Hrun & Htrig & Hstep).
  split; [|split; [|split]].
  - apply (Hrun initial_system trace_rejected); [exact Hinit|].
    vm_compute. reflexivity.
  - rewrite (Htrig (vars (run_from_initial trace_rejected)))
      by (vm_compute; reflexivity).
    vm_compute; reflexivity.
  - rewrite (Htrig (vars (run_from_initial trace_rejected)))
      by (vm_compute; reflexivity).
    vm_compute; reflexivity.
  - apply (Hstep initial_system trace_rejected
             (run_from_initial trace_rejected) Click_transcribe
             (run_from_initial (trace_rejected ++ [Click_transcribe]))).
    + exact Hinit.
    + vm_compute; reflexivity.
    + vm_compute; discriminate.
    + left; reflexivity.
    + vm_compute; reflexivity.
Defined.

(** C8.  From every state in which the guards are held and after any
    events, at most one activation of [requestBackgroundImage] waits for
    its render, and [isBackgroundImageInProgress] is set exactly then; a
    request made while it is set returns without starting a render and
    without changing anything.  The render guard does not depend on the
    capture guard, nor the capture guard on the render guard; and a
    second cycle does record while the render of the first is in
    flight. *)
Theorem render_single_flight :
  (forall sys0 evs sys,
     guards_held sys0 -> run evs sys0 = Some sys ->
     (length (renders sys) <= 1)%nat
     /\ (isBackgroundImageInProgress (vars sys) = true <-> renders sys <> []))
  /\ (forall prompt v, isBackgroundImageInProgress v = true ->
        requestBackgroundImage prompt v = (v, None))
  /\ (forall prompt v b,
        snd (requestBackgroundImage prompt (set_isTranscriptionInProgress b v))
        = snd (requestBackgroundImage prompt v))
  /\ (forall v b,
        snd (triggerTranscriptionCapture (set_isBackgroundImageInProgress b v))
        = snd (triggerTranscriptionCapture v))
  /\ (run trace_overlap initial_system = Some (run_from_initial trace_overlap)
      /\ renders (run_from_initial trace_overlap) = ["a beach"]
      /\ captures (run_from_initial trace_overlap) = [AtRecording]).
Proof.
  split; [|split; [|split; [|split]]].
  - intros sys0 evs sys H0 Hrun.
    destruct (run_held evs _ _ H0 Hrun) as (_ & _ & H1 & H2). auto.
  - intros prompt v B. unfold requestBackgroundImage. rewrite B.
    now destruct (is_empty (trim prompt)).
  - intros prompt v b. unfold requestBackgroundImage.
    destruct (is_empty (trim prompt)); [reflexivity|].
    now destruct (isBackgroundImageInProgress _).
  - intros v b. unfold triggerTranscriptionCapture.
    now destruct (isTranscriptionInProgress _).
  - repeat (match goal with |- _ /\ _ => split end); vm_compute; reflexivity.
Qed.

(** The theorem after a second decision arrived while the first render
    was in flight: one render, and a further request is turned away. *)
Lemma render_single_flight_witness :
  (length (renders (run_from_initial trace_render_busy)) <= 1)%nat
  /\ requestBackgroundImage "a forest"
       (vars (run_from_initial trace_render_busy))
     = (vars (run_from_initial trace_render_busy), None).
Proof.
  destruct render_single_flight as (Hrun & Hbusy & _).
  split.
  - apply (Hrun initial_system trace_render_busy); [exact initial_held|].
    vm_compute. reflexivity.
  - apply Hbusy. vm_compute. reflexivity.
Defined.

End PipelineFacts.

(** ** Starting and stopping a session *)

Module SessionFacts.
Import Session.

Lemma setGesturesLocked_false now c :
  gesturesLocked (setGesturesLocked false now c) = false.
Proof.
  unfold setGesturesLocked, gesturesLocked.
  destruct (Gesture.gesturesLocked (gestures c)) eqn:L; cbn [Bool.eqb].
  - destruct (permissionsGranted _); [|reflexivity].
    unfold startGestureRecognition. cbn.
    destruct (Gesture.gestureLoopId _); [reflexivity|].
    destruct (negb (videoEl _)); [reflexivity|].
    destruct (negb (handLandmarker _)); reflexivity.
  - exact L.
Qed.

Lemma setGesturesLocked_wheels b now c :
  wheels (setGesturesLocked b now c) = wheels c.
Proof.
  unfold setGesturesLocked.
  destruct (Bool.eqb _ _); [destruct b; reflexivity|].
  destruct b; [reflexivity|].
  destruct (Gesture.gesturesLocked _); [|reflexivity].
  destruct (permissionsGranted _); [|reflexivity].
  unfold startGestureRecognition. cbn.
  destruct (Gesture.gestureLoopId _); [reflexivity|].
  destruct (negb (videoEl _)); [reflexivity|].
  destruct (negb (handLandmarker _)); reflexivity.
Qed.

(** When the native call resolves, a stop unlocks the dials and the
    gestures. *)
Lemma stop_session_resolved response now c :
  controlsPresent (ui c) = true ->
  dialsLocked (stop_session (Resolved response) now c) = false
  /\ gesturesLocked (stop_session (Resolved response) now c) = false.
Proof.
  intros P. unfold stop_session, stopAgent. rewrite P. cbn [negb].
  unfold stopAgent_invoked. split.
  - unfold dialsLocked. cbn [wheels with_ui with_pipeline].
    now rewrite setGesturesLocked_wheels.
  - unfold gesturesLocked. cbn [gestures with_ui with_pipeline].
    apply setGesturesLocked_false.
Qed.

(** When it rejects, the locks stay as they were. *)
Lemma stop_session_rejected error now c :
  dialsLocked (stop_session (Rejected error) now c) = dialsLocked c
  /\ gesturesLocked (stop_session (Rejected error) now c) = gesturesLocked c.
Proof.
  unfold stop_session, stopAgent.
  destruct (negb (controlsPresent (ui c))); split; reflexivity.
Qed.

(** C1.  The code at the failing input: a session is active (the wheels
    spell "bcd", the registration resolved, so both locks are set and the
    loop runs), and [invoke("stop_agent")] rejects.  When [stopAgent]
    completes, the loop is off and the Start button is enabled again, but
    [wheelsLocked] and [gesturesLocked] are still set: the two unlocking
    calls are in the [try] block, after the [await]. *)
Theorem stop_after_failed_unregister :
  dialsLocked active_session = true
  /\ gesturesLocked active_session = true
  /\ Pipeline.autoTranscriptionEnabled (pipeline active_session) = true
  /\ dialsLocked failed_stop = true
  /\ gesturesLocked failed_stop = true
  /\ Pipeline.autoTranscriptionEnabled (pipeline failed_stop) = false
  /\ startBtn_disabled (ui failed_stop) = false
  /\ stopBtn_disabled (ui failed_stop) = true.
Proof. repeat (match goal with |- _ /\ _ => split end); vm_compute; reflexivity. Qed.

End SessionFacts.

(** ** Trimmed and normalised strings *)

Module TrimFacts.
Import Js NameSpec NameFacts.

Lemma trimStart_id s : starts_ws s = false -> trimStart s = s.
Proof. destruct s as [|c r]; simpl; [reflexivity|]. now intros ->. Qed.

Lemma trimEnd_id s : ends_clean s = true -> trimEnd s = s.
Proof.
  induction s as [|c r IH]; simpl; [reflexivity|].
  destruct r as [|d r'].
  - simpl. intros H. apply negb_true_iff in H. now rewrite H.
  - intros H. rewrite (IH H). reflexivity.
Qed.

Lemma trim_id s : starts_ws s = false -> ends_clean s = true -> trim s = s.
Proof.
  intros Hs He. unfold trim. rewrite (trimStart_id s Hs). now apply trimEnd_id.
Qed.

Lemma trim_starts s : starts_ws (trim s) = false.
Proof. unfold trim. apply trimEnd_starts, trimStart_starts. Qed.

Lemma trim_ends_clean s : ends_clean (trim s) = true.
Proof. unfold trim. apply trimEnd_ends_clean. Qed.


Lemma replace_true_starts s : starts_ws (replace_ws_from true s) = false.
Proof.
  induction s as [|c r IH]; simpl; [reflexivity|].
  destruct (is_whitespace c) eqn:W; simpl; [exact IH | exact W].
Qed.

Lemma replace_starts s :
  starts_ws s = false -> replace_ws_from true s = replace_ws_from false s.
Proof. destruct s as [|c r]; simpl; [reflexivity|]. now intros ->. Qed.

Lemma replace_false_starts s :
  starts_ws (replace_ws_from false s) = starts_ws s.
Proof.
  destruct s as [|c r]; simpl; [reflexivity|].
  destruct (is_whitespace c) eqn:W; simpl; [reflexivity | exact W].
Qed.

(** Replacing the runs of white space a second time changes nothing. *)
Lemma replace_replace b s :
  replace_ws_from false (replace_ws_from b s) = replace_ws_from b s.
Proof.
  revert b. induction s as [|c r IH]; intros b; simpl; [reflexivity|].
  destruct (is_whitespace c) eqn:W.
  - destruct b; [apply IH|].
    simpl. f_equal.
    rewrite (replace_starts _ (replace_true_starts r)). apply IH.
  - simpl. rewrite W. f_equal. apply IH.
Qed.

Lemma replace_nonempty b s :
  ends_clean s = true -> s <> EmptyString -> replace_ws_from b s <> EmptyString.
Proof.
  revert b. induction s as [|c r IH]; intros b He Hne; [congruence|].
  simpl. destruct (is_whitespace c) eqn:W.
  - destruct r as [|d r'].
    + simpl in He. rewrite W in He. discriminate.
    + destruct b; [|discriminate]. apply IH; [exact He | discriminate].
  - discriminate.
Qed.

Lemma ends_clean_cons c s :
  s <> EmptyString -> ends_clean (String c s) = ends_clean s.
Proof. destruct s; [congruence | reflexivity]. Qed.

Lemma replace_ends_clean b s :
  ends_clean s = true -> ends_clean (replace_ws_from b s) = true.
Proof.
  revert b. induction s as [|c r IH]; intros b He; [reflexivity|].
  destruct r as [|d r'].
  - simpl in He. apply negb_true_iff in He. simpl. rewrite He. simpl.
    now rewrite He.
  - assert (Hr : ends_clean (String d r') = true) by exact He.
    assert (Hne : forall b', replace_ws_from b' (String d r') <> EmptyString).
    { intros b'. apply replace_nonempty; [exact Hr | discriminate]. }
    change (replace_ws_from b (String c (String d r')))
      with (if is_whitespace c
            then if b then replace_ws_from true (String d r')
                 else String " " (replace_ws_from true (String d r'))
            else String c (replace_ws_from false (String d r'))).
    destruct (is_whitespace c); [destruct b|];
      rewrite ?ends_clean_cons by apply Hne; apply IH; exact Hr.
Qed.

Lemma lower_char_lower c : lower_char (lower_char c) = lower_char c.
Proof. destruct c as [[] [] [] [] [] [] [] []]; reflexivity. Qed.

Lemma lower_char_space : lower_char " " = " "%char.
Proof. reflexivity. Qed.

(** A string that [toLowerCase] leaves alone stays so when it is trimmed
    and when its runs of white space are replaced. *)
Lemma lower_trimStart s : toLowerCase s = s -> toLowerCase (trimStart s) = trimStart s.
Proof.
  induction s as [|c r IH]; simpl; [reflexivity|].
  intros H. injection H as Hc Hr.
  destruct (is_whitespace c); [now apply IH|].
  simpl. now rewrite Hc, Hr.
Qed.

Lemma lower_trimEnd s : toLowerCase s = s -> toLowerCase (trimEnd s) = trimEnd s.
Proof.
  induction s as [|c r IH]; simpl; [reflexivity|].
  intros H. injection H as Hc Hr. specialize (IH Hr).
  destruct (trimEnd r) as [|d r'].
  - destruct (is_whitespace c); simpl; [reflexivity | now rewrite Hc].
  - simpl. rewrite Hc. f_equal. exact IH.
Qed.

Lemma lower_replace b s :
  toLowerCase s = s -> toLowerCase (replace_ws_from b s) = replace_ws_from b s.
Proof.
  revert b. induction s as [|c r IH]; intros b; simpl; [reflexivity|].
  intros H. injection H as Hc Hr.
  destruct (is_whitespace c); [destruct b|]; simpl;
    rewrite ?Hc, ?IH by exact Hr; reflexivity.
Qed.

Lemma lower_lower s : toLowerCase (toLowerCase s) = toLowerCase s.
Proof.
  induction s as [|c r IH]; simpl; [reflexivity|].
  now rewrite lower_char_lower, IH.
Qed.

Lemma lower_append a b :
  toLowerCase (a ++ b) = (toLowerCase a ++ toLowerCase b)%string.
Proof. induction a as [|c r IH]; simpl; [reflexivity | now rewrite IH]. Qed.

(** The name that results from collapsing a trimmed string is a fixed
    point of the three steps of [normalizeScreenName]. *)
Lemma collapsed_fixed s :
  let n := replace_ws_runs (trim s) in
  trim n = n /\ replace_ws_runs n = n.
Proof.
  cbv zeta. unfold replace_ws_runs. split.
  - apply trim_id.
    + rewrite replace_false_starts. apply trim_starts.
    + apply replace_ends_clean, trim_ends_clean.
  - apply replace_replace.
Qed.

End TrimFacts.

(** ** Normal forms of names, transcripts and prompts *)

Module NormalFormFacts.
Import Js NameSpec NameFacts TrimFacts.

Lemma normalized_fixed s :
  let n := replace_ws_runs (toLowerCase (trim s)) in
  trim n = n /\ toLowerCase n = n /\ replace_ws_runs n = n.
Proof.
  cbv zeta. unfold replace_ws_runs. split; [|split].
  - apply trim_id.
    + rewrite replace_false_starts, toLowerCase_starts. apply trim_starts.
    + apply replace_ends_clean. rewrite toLowerCase_ends_clean.
      apply trim_ends_clean.
  - apply lower_replace, lower_lower.
  - apply replace_replace.
Qed.

(** X1 ([hub/index.js], [normalizeScreenName]): normalising is idempotent.
    The normal form of any input is a fixed point of each of the three
    steps (it has no white space at its ends, no capital letter, and no
    white space other than single spaces), so a name that is already
    normal is the key of its own record. *)
Theorem normalizeScreenName_idempotent (input : jsval) :
  let n := Hub.normalizeScreenName input in
  Hub.normalizeScreenName (JStr n) = n
  /\ ZoomApp.normalizeScreenName (JStr n) = n
  /\ trim n = n /\ toLowerCase n = n /\ replace_ws_runs n = n.
Proof.
  cbv zeta.
  assert (H : forall n, trim n = n /\ toLowerCase n = n /\ replace_ws_runs n = n ->
            Hub.normalizeScreenName (JStr n) = n
            /\ ZoomApp.normalizeScreenName (JStr n) = n
            /\ trim n = n /\ toLowerCase n = n /\ replace_ws_runs n = n).
  { intros n (Ht & Hl & Hr). unfold Hub.normalizeScreenName, ZoomApp.normalizeScreenName.
    rewrite Ht, Hl, Hr. repeat split; assumption. }
  apply H. destruct input; simpl; try (repeat split; reflexivity).
  apply normalized_fixed.
Qed.

Lemma CHARSET_lower : Forall (fun ch => lower_char ch = ch) Dial.CHARSET.
Proof. unfold Dial.CHARSET. simpl. repeat constructor. Qed.

Lemma getCharForPosition_lower v :
  toLowerCase (Session.getCharForPosition v) = Session.getCharForPosition v.
Proof.
  destruct v as [p|]; simpl; [|reflexivity].
  destruct (nth_error _ _) as [ch|] eqn:E; [|reflexivity].
  simpl. f_equal.
  apply nth_error_In in E.
  exact (proj1 (List.Forall_forall _ _) CHARSET_lower ch E).
Qed.

Lemma concat_lower (l : list string) :
  Forall (fun s => toLowerCase s = s) l ->
  toLowerCase (String.concat EmptyString l) = String.concat EmptyString l.
Proof.
  induction 1 as [|s l Hs Hl IH]; [reflexivity|].
  destruct l as [|s' l'].
  - exact Hs.
  - change (String.concat EmptyString (s :: s' :: l'))
      with (s ++ EmptyString ++ String.concat EmptyString (s' :: l'))%string.
    rewrite !lower_append, Hs, IH. reflexivity.
Qed.

(** X2 ([plan.md], [getScreenNameFromWheels] and [getCharForPosition]):
    whatever the wheels show, the screen name that the companion registers
    is already in the hub's normal form: the hub stores the agent under
    exactly the name read off the wheels. *)
Theorem dialled_name_is_normal (w : Dial.Wheels) :
  Hub.normalizeScreenName (JStr (Session.getScreenNameFromWheels w))
  = Session.getScreenNameFromWheels w.
Proof.
  unfold Session.getScreenNameFromWheels.
  set (raw := String.concat EmptyString _).
  assert (Hraw : toLowerCase raw = raw).
  { apply concat_lower. apply List.Forall_forall. intros s Hs.
    apply in_map_iff in Hs. destruct Hs as (i & <- & _).
    destruct (_ !! _); [apply getCharForPosition_lower | reflexivity]. }
  destruct (collapsed_fixed raw) as [Ht Hr]. cbv zeta in Ht, Hr.
  unfold Hub.normalizeScreenName. rewrite Ht.
  assert (Hl : toLowerCase (replace_ws_runs (trim raw)) = replace_ws_runs (trim raw)).
  { apply lower_replace. unfold trim. apply lower_trimEnd, lower_trimStart, Hraw. }
  rewrite Hl. exact Hr.
Qed.

End NormalFormFacts.

Module CompletionFacts.
Import Js Json Decision Completion TrimFacts.







(** X5 ([plan.md], [extractCompletionText]): the function returns a
    string for every payload but one kind: an object whose [choices] is a
    list that starts with [null] (or with an absent element), where reading
    [text] of the first choice throws.  Every other malformed payload gives
    the empty string. *)
Theorem extractCompletionText_throws (payload : jsval) :
  extractCompletionText payload = None <->
  exists props rest,
    payload = JObj props
    /\ (own_property "choices" props = JArr (JNull :: rest)
        \/ own_property "choices" props = JArr (JUndefined :: rest)).
Proof.
  unfold extractCompletionText. split.
  - destruct payload as [| |b|q|s|items|props]; simpl;
      try discriminate.
    + destruct b; discriminate.
    + destruct (negb (Qeq_bool q 0)); discriminate.
    + destruct (negb (is_empty s)); discriminate.
    + unfold prop. simpl.
      destruct (own_property "choices" props) as [| | | | |[|firstChoice rest]|] eqn:E;
        try discriminate.
      intros H. exists props, rest. split; [reflexivity|].
      destruct firstChoice as [| |b|q|s|items|ps]; simpl in H.
      * right. exact E.
      * left. exact E.
      * exfalso. destruct b; discriminate.
      * exfalso. destruct (negb (Qeq_bool q 0)); discriminate.
      * exfalso. destruct (negb (is_empty s)); discriminate.
      * discriminate.
      * exfalso. revert H. unfold prop. simpl.
        destruct (own_property "text" ps) as [| | | |s| |];
          try (destruct (is_empty (trim s)));
          try discriminate;
          destruct (negb (truthy (own_property "message" ps)));
          try discriminate;
          destruct (get_property (own_property "message" ps) "content") as [[]|];
          discriminate.
  - intros (props & rest & -> & [E|E]); simpl; unfold prop; simpl;
      rewrite E; reflexivity.
Qed.

Lemma extractCompletionText_throws_witness :
  extractCompletionText (JObj [("choices", JArr [JNull])]) = None
  /\ transcript_of_response (dq "{'choices':[null]}") = Some EmptyString
  /\ transcript_of_response (completion_body " waves on a beach ")
     = Some "waves on a beach".
Proof.
  destruct (extractCompletionText_throws (JObj [("choices", JArr [JNull])])) as [_ H].
  split; [|split; vm_compute; reflexivity].
  apply H. exists [("choices", JArr [JNull])], []. split; [reflexivity|].
  left. vm_compute. reflexivity.
Defined.

End CompletionFacts.

(** ** The hub: key delivery, look-up and expiry of agents *)

Module RegistryFacts.
Import Js Hub Registry HubFacts.

Local Open Scope list_scope.

Lemma is_empty_trim s : is_empty s = true -> is_empty (trim s) = true.
Proof. destruct s; [reflexivity | discriminate]. Qed.

Lemma nonblank_trim x :
  nonblank x = match env_trim x with
               | Some s => negb (is_empty s)
               | None => false
               end.
Proof.
  destruct x as [s|]; simpl; [|reflexivity].
  destruct (is_empty s) eqn:E; simpl; [|reflexivity].
  now rewrite (is_empty_trim s E).
Qed.

(** The secret that [deliverDefaultNanobananaKey] reads is there exactly
    when [hasDefaultNanobananaKey] says so. *)
Lemma secret_configured w :
  hasDefaultNanobananaKey w =
  match or_else (env_trim (HUB_NANOBANANA_API_KEY w))
                (env_trim (NANOBANANA_API_KEY w)) with
  | Some secret => negb (is_empty secret)
  | None => false
  end.
Proof.
  unfold hasDefaultNanobananaKey. rewrite !nonblank_trim.
  destruct (env_trim (HUB_NANOBANANA_API_KEY w)) as [a|]; simpl.
  - destruct (is_empty a) eqn:Ea; simpl; [|now rewrite Ea].
    reflexivity.
  - reflexivity.
Qed.

Lemma deliver_loop_first post url fuel :
  (1 <= count_posts (fst (deliver_loop post url (S fuel) 0)))%nat.
Proof.
  rewrite deliver_loop_S.
  change (0 <? maxAttempts)%nat with true. cbv iota.
  destruct (post 0%nat); [unfold count_posts; simpl; lia|].
  change (maxAttempts <=? 1)%nat with false. cbv iota.
  destruct (deliver_loop post url fuel 1) as [effs ok].
  unfold count_posts. simpl. lia.
Qed.

(** X6 ([hub/index.js], [hasDefaultNanobananaKey] and
    [deliverDefaultNanobananaKey]): the hub posts its key to a tunnel
    exactly when [hasDefaultNanobananaKey] reports a key, that is when one
    of the two environment variables is set to more than white space.
    Without a key the delivery fails at once, with no request and no
    wait. *)
Theorem delivery_attempted_iff_key_configured (w : World) (url : string) :
  (hasDefaultNanobananaKey w = true
     <-> (1 <= count_posts (fst (deliverDefaultNanobananaKey w (JStr url))))%nat)
  /\ (hasDefaultNanobananaKey w = false
        <-> deliverDefaultNanobananaKey w (JStr url) = ([], false)).
Proof.
  rewrite secret_configured. unfold deliverDefaultNanobananaKey.
  assert (Hnone : (false = true <-> (1 <= count_posts (fst ([] : list Effect, false)))%nat)
                  /\ (false = false <-> ([] : list Effect, false) = ([], false))).
  { unfold count_posts. simpl. repeat split; try discriminate; lia. }
  destruct (or_else _ _) as [secret|]; [|exact Hnone].
  destruct (is_empty secret); [exact Hnone|]. cbn [negb].
  pose proof (deliver_loop_first (axios_post_ok w)
                (strip_trailing_slash url ++ "/internal/secrets/nanobanana")%string
                14) as H.
  change (S 14) with maxAttempts in H.
  destruct (deliver_loop _ _ maxAttempts 0) as [effs ok].
  unfold count_posts in *. cbn [fst List.filter] in *.
  repeat split; try discriminate; try reflexivity.
  intros _. exact H.
Qed.

Lemma delivery_attempted_iff_key_configured_witness :
  (1 <= count_posts (fst (deliverDefaultNanobananaKey world_unreachable
                            (JStr "https://tunnel.example/"))))%nat
  /\ deliverDefaultNanobananaKey
       {| HUB_NANOBANANA_API_KEY := Some "   "; NANOBANANA_API_KEY := None;
          firestore_set_ok := true; firestore_delete_ok := true;
          axios_post_ok := fun _ => true |}
       (JStr "https://tunnel.example/") = ([], false).
Proof.
  destruct (delivery_attempted_iff_key_configured world_unreachable
              "https://tunnel.example/") as [[H _] _].
  destruct (delivery_attempted_iff_key_configured
              {| HUB_NANOBANANA_API_KEY := Some "   "; NANOBANANA_API_KEY := None;
                 firestore_set_ok := true; firestore_delete_ok := true;
                 axios_post_ok := fun _ => true |}
              "https://tunnel.example/") as [_ [H' _]].
  split; [apply H | apply H']; vm_compute; reflexivity.
Defined.

(** The back-offs that remain after [attempt] failed POSTs, at most. *)
Lemma deliver_loop_bounds post url fuel attempt :
  (attempt <= maxAttempts)%nat ->
  (count_posts (fst (deliver_loop post url fuel attempt)) <= maxAttempts - attempt)%nat
  /\ 0 <= total_sleep (fst (deliver_loop post url fuel attempt))
     <= fold_right Z.add 0
          (List.map (fun i => Z.min 12000 (1000 * Z.of_nat i))
                    (seq (S attempt) (maxAttempts - 1 - attempt))).
Proof.
  assert (Hnonneg : forall l, 0 <= fold_right Z.add 0
             (List.map (fun i => Z.min 12000 (1000 * Z.of_nat i)) l)).
  { induction l as [|i l IHl]; simpl; lia. }
  assert (Hstop : forall (effs : list Effect) n l,
            effs = [] \/ effs = [AxiosPost url] -> (1 <= n)%nat \/ effs = [] ->
            (count_posts effs <= n)%nat
            /\ 0 <= total_sleep effs
               <= fold_right Z.add 0
                    (List.map (fun i => Z.min 12000 (1000 * Z.of_nat i)) l)).
  { intros effs n l [->| ->] Hn; unfold count_posts; simpl;
      (split; [|split; [lia | apply Hnonneg]]).
    - lia.
    - destruct Hn as [Hn|Hn]; [lia | discriminate]. }
  revert attempt. induction fuel as [|fuel IH]; intros attempt Hle.
  - apply Hstop; now left + right.
  - rewrite deliver_loop_S.
    destruct (attempt <? maxAttempts)%nat eqn:Hlt.
    2:{ apply Hstop; now left + right. }
    apply Nat.ltb_lt in Hlt.
    destruct (post attempt).
    { apply Hstop; [now right | left; lia]. }
    destruct (maxAttempts <=? S attempt)%nat eqn:Hlast.
    { apply Hstop; [now right | left; lia]. }
    apply Nat.leb_gt in Hlast.
    destruct (IH (S attempt) ltac:(lia)) as (Hc & Hs0 & Hs).
    destruct (deliver_loop post url fuel (S attempt)) as [effs ok].
    cbn [fst] in *.
    replace (maxAttempts - 1 - attempt)%nat
      with (S (maxAttempts - 1 - S attempt)) by lia.
    cbn [seq List.map fold_right].
    unfold count_posts in *. cbn [List.filter length total_sleep fold_right].
    fold (total_sleep effs).
    split; [lia|]. lia.
Qed.

Lemma deliver_loop_last post url fuel attempt :
  (attempt < maxAttempts)%nat -> (maxAttempts - attempt <= fuel)%nat ->
  last (fst (deliver_loop post url fuel attempt)) = Some (AxiosPost url).
Proof.
  revert attempt. induction fuel as [|fuel IH]; intros attempt Hlt Hfuel; [lia|].
  rewrite deliver_loop_S.
  apply Nat.ltb_lt in Hlt as Hb. rewrite Hb.
  destruct (post attempt); [reflexivity|].
  destruct (maxAttempts <=? S attempt)%nat eqn:Hlast; [reflexivity|].
  apply Nat.leb_gt in Hlast.
  specialize (IH (S attempt) Hlast ltac:(lia)).
  destruct (deliver_loop post url fuel (S attempt)) as [effs ok].
  cbn [fst] in *.
  destruct effs as [|e l]; [discriminate|].
  rewrite !last_cons_cons. exact IH.
Qed.

(** X7 ([hub/index.js], [deliverDefaultNanobananaKey]): whatever the tunnel
    answers, one delivery makes at most 15 POSTs and spends at most 104
    seconds waiting between them (2 s before the first POST, then 1 s, 2 s,
    ... capped at 12 s); it never waits after the last POST: the last call
    of a delivery that made any call is a POST. *)
Theorem delivery_is_bounded (w : World) (tunnelUrl : jsval) :
  (count_posts (fst (deliverDefaultNanobananaKey w tunnelUrl)) <= 15)%nat
  /\ 0 <= total_sleep (fst (deliverDefaultNanobananaKey w tunnelUrl)) <= 104000
  /\ (fst (deliverDefaultNanobananaKey w tunnelUrl) = []
      \/ exists url,
           last (fst (deliverDefaultNanobananaKey w tunnelUrl)) = Some (AxiosPost url)).
Proof.
  unfold deliverDefaultNanobananaKey.
  assert (Hnil : (count_posts [] <= 15)%nat
                 /\ 0 <= total_sleep [] <= 104000
                 /\ (([] : list Effect) = []
                     \/ exists url, last ([] : list Effect) = Some (AxiosPost url))).
  { unfold count_posts. cbn. repeat split; try lia. now left. }
  destruct (or_else _ _) as [secret|]; [|exact Hnil].
  destruct (is_empty secret); [exact Hnil|].
  destruct tunnelUrl as [| | | |u| |]; try exact Hnil.
  set (url := (strip_trailing_slash u ++ "/internal/secrets/nanobanana")%string).
  destruct (deliver_loop_bounds (axios_post_ok w) url maxAttempts 0 ltac:(unfold maxAttempts; lia))
    as (Hc & Hs0 & Hs).
  pose proof (deliver_loop_last (axios_post_ok w) url maxAttempts 0
                ltac:(unfold maxAttempts; lia) ltac:(lia)) as Hlast.
  destruct (deliver_loop (axios_post_ok w) url maxAttempts 0) as [effs ok].
  cbn [fst] in *.
  split; [unfold count_posts in *; cbn; unfold maxAttempts in Hc; lia|].
  split.
  - cbn [total_sleep fold_right]. fold (total_sleep effs).
    change (fold_right Z.add 0 _) with 102000 in Hs. lia.
  - right. exists url.
    destruct effs as [|e l]; [discriminate|].
    rewrite last_cons_cons. exact Hlast.
Qed.

Lemma deliver_loop_success post url k : forall fuel attempt,
  (attempt + k < maxAttempts)%nat -> (k < fuel)%nat ->
  (forall i, (attempt <= i < attempt + k)%nat -> post i = false) ->
  post (attempt + k)%nat = true ->
  deliver_loop post url fuel attempt
  = (flat_map (fun i => [AxiosPost url; Sleep (Z.min 12000 (1000 * Z.of_nat i))])
              (seq (S attempt) k) ++ [AxiosPost url], true).
Proof.
  induction k as [|k IH]; intros fuel attempt Hlt Hfuel Hfail Hok.
  - destruct fuel as [|fuel]; [lia|]. rewrite deliver_loop_S.
    replace (attempt + 0)%nat with attempt in * by lia.
    apply Nat.ltb_lt in Hlt. rewrite Hlt, Hok. reflexivity.
  - destruct fuel as [|fuel]; [lia|]. rewrite deliver_loop_S.
    assert (Hb : (attempt <? maxAttempts)%nat = true) by (apply Nat.ltb_lt; lia).
    rewrite Hb, (Hfail attempt) by lia.
    assert (Hl : (maxAttempts <=? S attempt)%nat = false) by (apply Nat.leb_gt; lia).
    rewrite Hl.
    rewrite (IH fuel (S attempt)); try lia.
    + reflexivity.
    + intros i Hi. apply Hfail. lia.
    + replace (S attempt + k)%nat with (attempt + S k)%nat by lia. exact Hok.
Qed.

(** X8 ([hub/index.js], [deliverDefaultNanobananaKey]): when the hub has a
    key and the tunnel accepts the POST number [k] (counted from 0, below
    15) after refusing the ones before it, the delivery succeeds, and the
    hub has made exactly these calls: the 2 s wait, then [k] refused POSTs,
    the i-th followed by a wait of [min(12 s, i s)], then the POST that is
    accepted.  The URL is the tunnel URL without its trailing slash,
    followed by /internal/secrets/nanobanana. *)
Theorem delivery_succeeds_at (w : World) (u : string) (k : nat) :
  hasDefaultNanobananaKey w = true ->
  (k < 15)%nat ->
  (forall i, (i < k)%nat -> axios_post_ok w i = false) ->
  axios_post_ok w k = true ->
  deliverDefaultNanobananaKey w (JStr u)
  = (Sleep 2000
       :: delivery_trace (strip_trailing_slash u ++ "/internal/secrets/nanobanana") k,
     true)
  /\ count_posts (fst (deliverDefaultNanobananaKey w (JStr u))) = S k.
Proof.
  intros Hkey Hk Hfail Hok.
  rewrite secret_configured in Hkey. unfold deliverDefaultNanobananaKey.
  destruct (or_else _ _) as [secret|]; [|discriminate].
  destruct (is_empty secret); [discriminate|].
  rewrite (deliver_loop_success (axios_post_ok w) _ k maxAttempts 0);
    unfold maxAttempts; try lia; try assumption.
  2:{ intros i Hi. apply Hfail. lia. }
  split; [reflexivity|].
  unfold delivery_trace, count_posts. cbn [fst List.filter].
  generalize 1%nat. clear. induction k as [|k IH]; intros n; [reflexivity|].
  cbn [seq flat_map app List.filter length]. f_equal. apply IH.
Qed.

Lemma delivery_succeeds_at_witness :
  deliverDefaultNanobananaKey world_second_try (JStr "https://tunnel.example/")
  = ([Sleep 2000;
      AxiosPost "https://tunnel.example/internal/secrets/nanobanana";
      Sleep 1000;
      AxiosPost "https://tunnel.example/internal/secrets/nanobanana"], true).
Proof.
  apply (delivery_succeeds_at world_second_try "https://tunnel.example/" 1).
  - reflexivity.
  - lia.
  - intros i Hi. replace i with 0%nat by lia. reflexivity.
  - reflexivity.
Defined.

(** *** The collection of agents *)

Lemma deliver_loop_inert w r post url fuel attempt (agents : gmap string AgentDoc) :
  fold_left (apply_effect w r) (fst (deliver_loop post url fuel attempt)) agents
  = agents.
Proof.
  revert attempt. induction fuel as [|fuel IH]; intros attempt; [reflexivity|].
  rewrite deliver_loop_S.
  destruct (attempt <? maxAttempts)%nat; [|reflexivity].
  destruct (post attempt); [reflexivity|].
  destruct (maxAttempts <=? S attempt)%nat; [reflexivity|].
  specialize (IH (S attempt)).
  destruct (deliver_loop post url fuel (S attempt)) as [effs ok].
  exact IH.
Qed.

Lemma deliver_inert w r url (agents : gmap string AgentDoc) :
  fold_left (apply_effect w r) (fst (deliverDefaultNanobananaKey w url)) agents
  = agents.
Proof.
  unfold deliverDefaultNanobananaKey.
  destruct (or_else _ _) as [secret|]; [|reflexivity].
  destruct (is_empty secret); [reflexivity|].
  destruct url; try reflexivity.
  pose proof (deliver_loop_inert w r (axios_post_ok w)
                (strip_trailing_slash s ++ "/internal/secrets/nanobanana")%string
                maxAttempts 0 agents) as H.
  destruct (deliver_loop _ _ maxAttempts 0) as [effs ok]. exact H.
Qed.

(** A registration that is answered with 200 has written its document,
    and nothing else. *)
Lemma register_agent_at_ok w now b agents :
  status (fst (register_agent_at w now b agents)) = 200 ->
  snd (register_agent_at w now b agents)
  = <[normalizeScreenName (screenName b) := new_record b now]> agents
  /\ is_empty (normalizeScreenName (screenName b)) = false
  /\ truthy (tunnelUrl b) = true.
Proof.
  unfold register_agent_at, register_agent.
  destruct (is_empty (normalizeScreenName (screenName b))) eqn:En;
    [discriminate|].
  destruct (truthy (tunnelUrl b)) eqn:Et; [|discriminate].
  cbn [negb orb].
  destruct (firestore_set_ok w) eqn:Es; [|discriminate]. cbn [negb].
  destruct (needsDefaultNanobananaKey b).
  - pose proof (deliver_inert w (new_record b now) (tunnelUrl b)) as Hin.
    destruct (deliverDefaultNanobananaKey w (tunnelUrl b)) as [effs [|]];
      [|discriminate].
    intros _. cbn [snd fst fold_left apply_effect] in *. rewrite Es.
    rewrite Hin. auto.
  - intros _. cbn [snd fold_left apply_effect]. rewrite Es. auto.
Qed.

Lemma Timestamp_lt_false a b :
  seconds b < seconds a -> Timestamp_lt a b = false.
Proof.
  intros H. unfold Timestamp_lt.
  assert (H1 : (seconds a <? seconds b) = false) by (apply Z.ltb_ge; lia).
  assert (H2 : (seconds a =? seconds b) = false) by (apply Z.eqb_neq; lia).
  now rewrite H1, H2.
Qed.

Lemma Timestamp_lt_true a b :
  seconds a < seconds b -> Timestamp_lt a b = true.
Proof.
  intros H. unfold Timestamp_lt.
  assert (H1 : (seconds a <? seconds b) = true) by (apply Z.ltb_lt; lia).
  now rewrite H1.
Qed.

(** A look-up that finds a document seen less than 300 seconds ago. *)
Lemma getActiveAgent_fresh fs now name agents data seen :
  is_empty name = false -> get_ok fs = true ->
  agents !! name = Some data ->
  truthy (doc_tunnelUrl data) = true ->
  doc_lastSeenAt data = Some seen ->
  seconds now - seconds seen < 300 ->
  exists agents',
    getActiveAgent fs now name agents = (Active (doc_tunnelUrl data), agents')
    /\ ((agents' = agents /\ (seconds now - seconds seen < 30 \/ update_ok fs = false))
        \/ (agents' = <[name := set_lastSeenAt now data]> agents
            /\ update_ok fs = true)).
Proof.
  intros Hn Hg Hd Ht Hs Hfresh. unfold getActiveAgent.
  rewrite Hn, Hg, Hd, Ht, Hs. cbn [negb or_timestamp].
  rewrite Timestamp_lt_false by (unfold AGENT_URL_TTL_MINUTES; simpl; lia).
  destruct (30 <=? seconds now - seconds seen) eqn:E30; cbn [andb].
  - destruct (update_ok fs) eqn:Eu; eexists; (split; [reflexivity|]).
    + right. auto.
    + left. auto.
  - apply Z.leb_gt in E30. eexists; split; [reflexivity|]. left. auto.
Qed.

(** X9 ([hub/index.js], POST /api/register-agent, GET /api/get-agent-url
    and [getActiveAgent]): a registration that was answered with 200 can be
    looked up under every spelling of the screen name that has the same
    normal form, for the next five minutes: a look-up whose clock reads less
    than 300 seconds more than the registration's answers 200 with the
    tunnel URL that was registered, whatever the collection held before. *)
Theorem registered_agent_is_found (w : World) (fs : Firestore)
    (t0 t1 : Timestamp) (b : RegisterBody) (query : jsval) (agents : gmap string AgentDoc) :
  status (fst (register_agent_at w t0 b agents)) = 200 ->
  normalizeScreenName query = normalizeScreenName (screenName b) ->
  get_ok fs = true ->
  seconds t1 - seconds t0 < 300 ->
  fst (get_agent_url fs t1 query (snd (register_agent_at w t0 b agents)))
  = {| code := 200; json := JObj [("tunnelUrl", tunnelUrl b)] |}.
Proof.
  intros Hok Hq Hg Ht.
  destruct (register_agent_at_ok w t0 b agents Hok) as (-> & Hn & Hu).
  unfold get_agent_url. rewrite Hq, Hn.
  destruct (getActiveAgent_fresh fs t1 (normalizeScreenName (screenName b))
              (<[normalizeScreenName (screenName b) := new_record b t0]> agents)
              (new_record b t0) t0 Hn Hg (lookup_insert_eq _ _ _) Hu eq_refl Ht)
    as (agents' & -> & _).
  reflexivity.
Qed.

Lemma registered_agent_is_found_witness :
  fst (get_agent_url firestore_up (at_second 1299) (JStr "ADA  lovelace")
         (snd (register_agent_at world_second_try (at_second 1000) body_needs_key ∅)))
  = {| code := 200; json := JObj [("tunnelUrl", JStr "https://tunnel.example/")] |}.
Proof.
  apply (registered_agent_is_found world_second_try firestore_up
           (at_second 1000) (at_second 1299) body_needs_key (JStr "ADA  lovelace") ∅).
  - vm_compute. reflexivity.
  - vm_compute. reflexivity.
  - reflexivity.
  - simpl. lia.
Defined.

(** X10 ([hub/index.js], [getActiveAgent]): a registration that nobody
    looked up expires: a look-up whose clock reads more than 300 seconds
    more than the registration's answers 404, and it deletes the document,
    so that the agent stays unknown until it registers again. *)
Theorem unseen_agent_expires (w : World) (fs : Firestore)
    (t0 t1 : Timestamp) (b : RegisterBody) (query : jsval) (agents : gmap string AgentDoc) :
  status (fst (register_agent_at w t0 b agents)) = 200 ->
  normalizeScreenName query = normalizeScreenName (screenName b) ->
  get_ok fs = true -> delete_ok fs = true ->
  300 < seconds t1 - seconds t0 ->
  let r := get_agent_url fs t1 query (snd (register_agent_at w t0 b agents)) in
  code (fst r) = 404
  /\ snd r !! normalizeScreenName (screenName b) = None.
Proof.
  intros Hok Hq Hg Hd Ht.
  destruct (register_agent_at_ok w t0 b agents Hok) as (-> & Hn & Hu).
  cbv zeta. unfold get_agent_url, getActiveAgent. rewrite Hq, Hn, Hg.
  rewrite lookup_insert_eq. cbn [negb new_record doc_tunnelUrl doc_lastSeenAt
    doc_registeredAt or_timestamp]. rewrite Hu. cbn [negb].
  rewrite Timestamp_lt_true by (unfold AGENT_URL_TTL_MINUTES; simpl; lia).
  rewrite Hd. cbn [fst snd code error_reply].
  split; [reflexivity | apply lookup_delete_eq].
Qed.

Lemma unseen_agent_expires_witness :
  code (fst (get_agent_url firestore_up (at_second 1301) (JStr "ada lovelace")
               (snd (register_agent_at world_second_try (at_second 1000)
                       body_needs_key ∅)))) = 404.
Proof.
  apply (unseen_agent_expires world_second_try firestore_up
           (at_second 1000) (at_second 1301) body_needs_key (JStr "ada lovelace") ∅).
  - vm_compute. reflexivity.
  - vm_compute. reflexivity.
  - reflexivity.
  - reflexivity.
  - simpl. lia.
Defined.

(** The state that polling keeps: the document is there, with its tunnel
    URL, and was seen less than 30 seconds before [t]. *)
Lemma poll_keeps_alive fs name url : forall times t agents data seen,
  is_empty name = false -> get_ok fs = true -> update_ok fs = true ->
  truthy url = true ->
  agents !! name = Some data -> doc_tunnelUrl data = url ->
  doc_lastSeenAt data = Some seen ->
  seconds t - seconds seen < 30 ->
  gaps_within 270 t times ->
  fst (poll fs name times agents) = List.map (fun _ => Active url) times.
Proof.
  induction times as [|t1 rest IH];
    intros t agents data seen Hn Hg Hu Ht Hd Hurl Hs Hseen Hgaps; [reflexivity|].
  destruct Hgaps as [Hgap Hgaps].
  cbn [poll].
  rewrite <- Hurl in Ht.
  destruct (getActiveAgent_fresh fs t1 name agents data seen Hn Hg Hd Ht Hs
              ltac:(lia)) as (agents' & -> & Hcase).
  rewrite Hurl in *.
  destruct Hcase as [[-> [Hlt|Hno]]|[-> _]].
  - specialize (IH t1 agents data seen Hn Hg Hu Ht Hd Hurl Hs Hlt Hgaps).
    destruct (poll fs name rest agents) as [rs agents2].
    cbn [fst] in *. cbn [List.map]. now rewrite IH.
  - congruence.
  - specialize (IH t1 (<[name := set_lastSeenAt t1 data]> agents)
                  (set_lastSeenAt t1 data) t1 Hn Hg Hu Ht
                  (lookup_insert_eq _ _ _) Hurl eq_refl ltac:(lia) Hgaps).
    destruct (poll fs name rest _) as [rs agents2].
    cbn [fst] in *. cbn [List.map]. now rewrite IH.
Qed.

(** X11 ([hub/index.js], [getActiveAgent]): the five minutes count from the
    last look-up that refreshed [lastSeenAt], not from the registration.  An
    agent that is looked up again and again, each time at most 270 seconds
    after the time before (the first time after its registration), is found
    every time, however long that goes on, as long as Firestore accepts the
    reads and the refreshes. *)
Theorem polled_agent_stays_registered (w : World) (fs : Firestore)
    (t0 : Timestamp) (b : RegisterBody) (agents : gmap string AgentDoc)
    (times : list Timestamp) :
  status (fst (register_agent_at w t0 b agents)) = 200 ->
  get_ok fs = true -> update_ok fs = true ->
  gaps_within 270 t0 times ->
  fst (poll fs (normalizeScreenName (screenName b)) times
         (snd (register_agent_at w t0 b agents)))
  = List.map (fun _ => Active (tunnelUrl b)) times.
Proof.
  intros Hok Hg Hu Hgaps.
  destruct (register_agent_at_ok w t0 b agents Hok) as (-> & Hn & Ht).
  apply (poll_keeps_alive fs _ (tunnelUrl b) times t0 _ (new_record b t0) t0);
    try assumption; try reflexivity.
  - apply lookup_insert_eq.
  - lia.
Qed.

Lemma polled_agent_stays_registered_witness :
  fst (poll firestore_up "ada lovelace"
         [at_second 1270; at_second 1540; at_second 1800; at_second 2070]
         (snd (register_agent_at world_second_try (at_second 1000) body_needs_key ∅)))
  = [Active (JStr "https://tunnel.example/"); Active (JStr "https://tunnel.example/");
     Active (JStr "https://tunnel.example/"); Active (JStr "https://tunnel.example/")].
Proof.
  apply (polled_agent_stays_registered world_second_try firestore_up
           (at_second 1000) body_needs_key ∅
           [at_second 1270; at_second 1540; at_second 1800; at_second 2070]).
  - vm_compute. reflexivity.
  - reflexivity.
  - reflexivity.
  - simpl. lia.
Defined.

(** X12 ([hub/index.js], POST /api/unregister-agent and GET
    /api/get-agent-url): after an unregistration that was answered with
    200, a look-up of the name, in any spelling with the same normal form,
    answers 404 whatever the collection held.  A name that normalises to
    the empty string is refused with 400 by both handlers, and the
    collection is not touched. *)
Theorem unregistered_agent_is_gone (fs : Firestore) (now : Timestamp)
    (name query : jsval) (agents : gmap string AgentDoc) :
  (code (fst (unregister_agent fs name agents)) = 200 ->
   normalizeScreenName query = normalizeScreenName name ->
   get_ok fs = true ->
   code (fst (get_agent_url fs now query (snd (unregister_agent fs name agents))))
   = 404)
  /\ (normalizeScreenName name = EmptyString ->
      unregister_agent fs name agents
      = (error_reply 400 "screenName is required.", agents)
      /\ get_agent_url fs now name agents
         = (error_reply 400 "screenName query parameter is required.", agents)).
Proof.
  split.
  - unfold unregister_agent, get_agent_url, getActiveAgent.
    intros Hok Hq Hg. rewrite Hq.
    destruct (is_empty (normalizeScreenName name)) eqn:Hn; [discriminate|].
    destruct (delete_ok fs); [|discriminate].
    cbn [snd]. rewrite Hg, lookup_delete_eq. reflexivity.
  - intros Hn. unfold unregister_agent, get_agent_url. rewrite Hn. split; reflexivity.
Qed.

Lemma unregistered_agent_is_gone_witness :
  code (fst (get_agent_url firestore_up (at_second 1001) (JStr " Ada Lovelace ")
          (snd (unregister_agent firestore_up (JStr "ada lovelace")
                  (snd (register_agent_at world_second_try (at_second 1000)
                          body_needs_key ∅)))))) = 404
  /\ unregister_agent firestore_up (JStr "   ") ∅
     = (error_reply 400 "screenName is required.", ∅).
Proof.
  destruct (unregistered_agent_is_gone firestore_up (at_second 1001)
              (JStr "ada lovelace") (JStr " Ada Lovelace ")
              (snd (register_agent_at world_second_try (at_second 1000)
                      body_needs_key ∅))) as [H _].
  destruct (unregistered_agent_is_gone firestore_up (at_second 1001)
              (JStr "   ") (JStr "   ") ∅) as [_ H'].
  split.
  - apply H; vm_compute; reflexivity.
  - apply H'. vm_compute. reflexivity.
Defined.

End RegistryFacts.

(** ** The hub's proxy and the webview's polling *)

Module ProxyFacts.
Import Js Hub Registry Proxy.

Local Open Scope list_scope.

Lemma fetch_loop_S get url params fuel attempt :
  fetch_loop get url params (S fuel) attempt =
  if (attempt <? BACKGROUND_PROXY_RETRIES)%nat then
    match get attempt with
    | Answered r => ([Get url params], Some r)
    | FailedWith r => ([Get url params], Some r)
    | Failed =>
        let '(calls, r) := fetch_loop get url params fuel (S attempt) in
        (Get url params :: Wait (Z.min 1000 (250 * (Z.of_nat attempt + 1))) :: calls, r)
    end
  else ([], None).
Proof. reflexivity. Qed.

Lemma fetch_loop_gets get url params fuel attempt :
  (attempt <= BACKGROUND_PROXY_RETRIES)%nat ->
  (count_gets (fst (fetch_loop get url params fuel attempt))
   <= BACKGROUND_PROXY_RETRIES - attempt)%nat.
Proof.
  revert attempt. induction fuel as [|fuel IH]; intros attempt Hle.
  - unfold count_gets. simpl. lia.
  - rewrite fetch_loop_S.
    destruct (attempt <? BACKGROUND_PROXY_RETRIES)%nat eqn:Hlt;
      [|unfold count_gets; simpl; lia].
    apply Nat.ltb_lt in Hlt.
    destruct (get attempt); try (unfold count_gets; simpl; lia).
    specialize (IH (S attempt) ltac:(lia)).
    destruct (fetch_loop get url params fuel (S attempt)) as [calls r].
    unfold count_gets in *. cbn [fst List.filter length] in *. lia.
Qed.

Lemma fetch_loop_answered get url params k r : forall fuel attempt,
  (attempt + k < BACKGROUND_PROXY_RETRIES)%nat -> (k < fuel)%nat ->
  (forall i, (attempt <= i < attempt + k)%nat -> get i = Failed) ->
  get (attempt + k)%nat = Answered r \/ get (attempt + k)%nat = FailedWith r ->
  fetch_loop get url params fuel attempt
  = (flat_map (fun i => [Get url params; Wait (250 * Z.of_nat i)]) (seq (S attempt) k)
     ++ [Get url params], Some r).
Proof.
  induction k as [|k IH]; intros fuel attempt Hlt Hfuel Hfail Hok.
  - destruct fuel as [|fuel]; [lia|]. rewrite fetch_loop_S.
    replace (attempt + 0)%nat with attempt in * by lia.
    apply Nat.ltb_lt in Hlt. rewrite Hlt.
    destruct Hok as [-> | ->]; reflexivity.
  - destruct fuel as [|fuel]; [lia|]. rewrite fetch_loop_S.
    assert (Hb : (attempt <? BACKGROUND_PROXY_RETRIES)%nat = true)
      by (apply Nat.ltb_lt; lia).
    rewrite Hb, (Hfail attempt) by lia.
    rewrite (IH fuel (S attempt)); try lia.
    + cbn [seq flat_map app]. repeat f_equal.
      unfold BACKGROUND_PROXY_RETRIES in Hlt. lia.
    + intros i Hi. apply Hfail. lia.
    + replace (S attempt + k)%nat with (attempt + S k)%nat by lia. exact Hok.
Qed.

Lemma fetch_loop_unanswered get url params :
  (forall i, (i < BACKGROUND_PROXY_RETRIES)%nat -> get i = Failed) ->
  fetchBackgroundWithRetry get url params
  = ([Get url params; Wait 250; Get url params; Wait 500; Get url params; Wait 750],
     None).
Proof.
  intros Hfail. unfold fetchBackgroundWithRetry, BACKGROUND_PROXY_RETRIES in *.
  rewrite fetch_loop_S, (Hfail 0%nat) by lia.
  rewrite fetch_loop_S, (Hfail 1%nat) by lia.
  rewrite fetch_loop_S, (Hfail 2%nat) by lia.
  reflexivity.
Qed.

(** X13 ([hub/index.js], [fetchBackgroundWithRetry] and GET
    /api/background/latest): for one request of the webview the hub asks
    the agent's tunnel at most three times.  It retries only an attempt
    that got no response at all, after 250, 500 and 750 ms; the first
    response, of any status, is relayed at once with that status and with
    Cache-Control no-store, and a 204 is relayed without a body.  When the
    three attempts got no response the hub answers 502, after the third
    wait. *)
Theorem background_proxy_relays (fs : Firestore) (now : Timestamp)
    (get : nat -> Attempt) (screenName since wait : jsval)
    (agents agents' : gmap string AgentDoc) (u : string) :
  is_empty (normalizeScreenName screenName) = false ->
  getActiveAgent fs now (normalizeScreenName screenName) agents
  = (Active (JStr u), agents') ->
  let url := (strip_trailing_slash u ++ "/background/latest")%string in
  let params := forwarded_params since wait in
  let out := background_latest fs now get screenName since wait agents in
  (count_gets (snd (fst out)) <= 3)%nat
  /\ (forall k r,
        (k < 3)%nat ->
        (forall i, (i < k)%nat -> get i = Failed) ->
        get k = Answered r \/ get k = FailedWith r ->
        px_status (fst (fst out)) = up_status r
        /\ px_cacheControl (fst (fst out)) = Some "no-store"
        /\ (up_status r = 204 -> px_body (fst (fst out)) = NoBody)
        /\ snd (fst out) = fetch_trace url params k)
  /\ ((forall i, (i < 3)%nat -> get i = Failed) ->
      px_status (fst (fst out)) = 502
      /\ snd (fst out)
         = [Get url params; Wait 250; Get url params; Wait 500;
            Get url params; Wait 750]).
Proof.
  intros Hn Hagent. cbv zeta. unfold background_latest. rewrite Hn, Hagent.
  set (url := (strip_trailing_slash u ++ "/background/latest")%string).
  set (params := forwarded_params since wait).
  split; [|split].
  - pose proof (fetch_loop_gets get url params (S BACKGROUND_PROXY_RETRIES) 0
                  ltac:(lia)) as H.
    fold (fetchBackgroundWithRetry get url params) in H.
    destruct (fetchBackgroundWithRetry get url params) as [calls [r|]];
      cbn [fst snd] in *; exact H.
  - intros k r Hk Hfail Hok. unfold fetchBackgroundWithRetry.
    rewrite (fetch_loop_answered get url params k r);
      unfold BACKGROUND_PROXY_RETRIES; try lia; try assumption.
    2:{ intros i Hi. apply Hfail. lia. }
    cbn [fst snd px_status px_cacheControl px_body].
    repeat split.
    intros ->. reflexivity.
  - intros Hfail. rewrite (fetch_loop_unanswered get url params Hfail).
    split; reflexivity.
Qed.

Lemma background_proxy_relays_witness :
  let out :=
    background_latest firestore_up (at_second 1010)
      (fun n => match n with O => Failed | _ => Answered image_response end)
      (JStr " Ada  Lovelace") (JStr "6") JUndefined one_agent in
  px_status (fst (fst out)) = 200
  /\ snd (fst out)
     = [Get "https://tunnel.example/background/latest" [("since", JStr "6")];
        Wait 250;
        Get "https://tunnel.example/background/latest" [("since", JStr "6")]].
Proof.
  cbv zeta.
  destruct (background_proxy_relays firestore_up (at_second 1010)
              (fun n => match n with O => Failed | _ => Answered image_response end)
              (JStr " Ada  Lovelace") (JStr "6") JUndefined one_agent one_agent
              "https://tunnel.example/") as (_ & H & _).
  - vm_compute. reflexivity.
  - vm_compute. reflexivity.
  - destruct (H 1%nat image_response) as (Hs & _ & _ & Hc).
    + lia.
    + intros i Hi. replace i with 0%nat by lia. reflexivity.
    + left. reflexivity.
    + split; [exact Hs | exact Hc].
Defined.

End ProxyFacts.

Module ZoomPollFacts.
Import Js ZoomPoll.

Local Open Scope list_scope.

Lemma next_attempt_range a : 0 <= a <= 7 -> 0 <= next_attempt a <= 7.
Proof. unfold next_attempt. lia. Qed.

Lemma pow2_pos a : 0 <= 2 ^ a.
Proof. apply Z.pow_nonneg. lia. Qed.

(** One round: whether it waits, how long, and the counter it hands on. *)
Lemma round_spec r st :
  pollBackgroundAndApply r st
  = (if failed r
     then Some (Z.max (floor_of r) (Z.min 4000 (200 * 2 ^ backoffAttempt st)))
     else None,
     {| backoffAttempt := if failed r then Z.min (backoffAttempt st + 1) 7 else 0;
        lastVersion := lastVersion (snd (pollBackgroundAndApply r st)) |}).
Proof. destruct r; reflexivity. Qed.

Lemma pow2_le a : 0 <= a <= 7 -> 1 <= 2 ^ a <= 128.
Proof.
  intros H. split.
  - apply (Z.pow_le_mono_r 2 0 a); lia.
  - apply (Z.pow_le_mono_r 2 a 7); lia.
Qed.

(** X14 ([hub/zoom_app.js], [pollBackgroundAndApply] and [pollAgentTunnel]):
    the polling of the webview is paced.  Every round that fails (404,
    another status that is not ok, no SDK, a background that could not be
    applied, a fetch error) is followed by a wait of at least 500 ms (1000
    ms where the background could not be applied) and at most 4000 ms, and
    the counter of the back-off stays between 0 and 7; every 204 and every
    background that was applied is followed by the next request at once,
    with the counter back at 0.  In a run of failures the wait after the
    i-th is the maximum of that floor and min(4000, 200 * 2^min(7, a + i)),
    where a is the counter at the start.  The look-up of the tunnel waits
    once after each look-up that finds nothing, max(250, min(5000, 250 *
    2^min(7, a + i))) ms after the i-th, and stops at the first look-up
    that gives a URL. *)
Theorem zoom_polling_is_paced :
  (forall rounds st,
     0 <= backoffAttempt st <= 7 ->
     0 <= backoffAttempt (snd (poll_rounds rounds st)) <= 7
     /\ Forall2 (fun r w =>
                   if failed r
                   then exists ms, w = Some ms /\ floor_of r <= ms <= 4000
                   else w = None)
                rounds (fst (poll_rounds rounds st))
     /\ (forall r, last rounds = Some r -> failed r = false ->
           backoffAttempt (snd (poll_rounds rounds st)) = 0))
  /\ (forall rounds st i r,
        0 <= backoffAttempt st <= 7 ->
        Forall (fun r => failed r = true) rounds ->
        rounds !! i = Some r ->
        fst (poll_rounds rounds st) !! i
        = Some (Some (Z.max (floor_of r)
                        (Z.min 4000
                           (200 * 2 ^ Z.min 7 (backoffAttempt st + Z.of_nat i))))))
  /\ (forall fetches attempt,
        attempt <= 7 ->
        fst (pollAgentTunnel fetches attempt)
        = List.map (fun i => tunnel_delay (Z.min 7 (attempt + Z.of_nat i)))
                   (seq 0 (misses fetches))
        /\ Forall (fun ms => 250 <= ms <= 5000) (fst (pollAgentTunnel fetches attempt))
        /\ snd (pollAgentTunnel fetches attempt) = List.find truthy fetches).
Proof.
  split; [|split].
  - induction rounds as [|r rest IH]; intros st Ha.
    + cbn. split; [exact Ha|]. split; [constructor | discriminate].
    + cbn [poll_rounds]. rewrite round_spec.
      set (st1 := {| backoffAttempt := _; lastVersion := _ |}).
      assert (Ha1 : 0 <= backoffAttempt st1 <= 7).
      { subst st1. cbn [backoffAttempt]. destruct (failed r); lia. }
      destruct (IH st1 Ha1) as (Ha2 & Hws & Hlast).
      destruct (poll_rounds rest st1) as [waits st2] eqn:E. cbn [fst snd] in *.
      split; [exact Ha2|]. split.
      * constructor; [|exact Hws].
        destruct (failed r) eqn:F; [|reflexivity].
        eexists. split; [reflexivity|].
        pose proof (pow2_le _ Ha). destruct r; cbn [floor_of]; try discriminate; lia.
      * intros r' Hl F. destruct rest as [|r2 rest'].
        -- injection Hl as <-. cbn in E. injection E as <- <-.
           subst st1. cbn [backoffAttempt]. now rewrite F.
        -- apply (Hlast r'); [|exact F]. now rewrite last_cons_cons in Hl.
  - induction rounds as [|r0 rest IH]; intros st i r Ha Hf Hi; [discriminate|].
    cbn [poll_rounds]. rewrite round_spec.
    apply Forall_cons in Hf as [F Hf]. rewrite F.
    set (st1 := {| backoffAttempt := _; lastVersion := _ |}).
    assert (Ha1 : 0 <= backoffAttempt st1 <= 7) by (subst st1; cbn [backoffAttempt]; lia).
    specialize (IH st1).
    destruct (poll_rounds rest st1) as [waits st2]. cbn [fst snd] in *.
    destruct i as [|i].
    + injection Hi as ->. cbn [lookup list_lookup].
      replace (Z.min 7 (backoffAttempt st + Z.of_nat 0)) with (backoffAttempt st)
        by lia.
      reflexivity.
    + cbn in Hi. rewrite lookup_cons_ne_0 by lia. cbn [Nat.pred].
      rewrite (IH i r Ha1 Hf Hi).
      subst st1. cbn [backoffAttempt].
      replace (Z.min 7 (Z.min (backoffAttempt st + 1) 7 + Z.of_nat i))
        with (Z.min 7 (backoffAttempt st + Z.of_nat (S i))) by lia.
      reflexivity.
  - induction fetches as [|f rest IH]; intros attempt Ha.
    + cbn. split; [reflexivity|]. split; [constructor | reflexivity].
    + cbn [pollAgentTunnel List.find misses].
      destruct (truthy f); [cbn; split; [reflexivity|]; split; [constructor | reflexivity]|].
      destruct (IH (next_attempt attempt)) as (He & Hd & Hr);
        [unfold next_attempt; lia|].
      destruct (pollAgentTunnel rest (next_attempt attempt)) as [delays r].
      cbn [fst snd] in *. split; [|split; [|exact Hr]].
      * cbn [seq List.map]. f_equal; [f_equal; lia|].
        rewrite He, <- seq_shift, List.map_map. apply List.map_ext. intros i.
        f_equal. unfold next_attempt. lia.
      * constructor; [|exact Hd].
        unfold tunnel_delay. pose proof (pow2_pos attempt). lia.
Qed.

Lemma zoom_polling_is_paced_witness :
  fst (poll_rounds [FetchError; NoAgent; NotYet; ApplyFailed (Some "3"); Applied None]
         initial_poll)
  = [Some 500; Some 500; None; Some 1000; None]
  /\ lastVersion
       (snd (poll_rounds [FetchError; NoAgent; NotYet; ApplyFailed (Some "3");
                          Applied None] initial_poll)) = "3"
  /\ backoffAttempt
       (snd (poll_rounds [FetchError; NoAgent; NotYet; ApplyFailed (Some "3");
                          Applied None] initial_poll)) = 0
  /\ fst (poll_rounds [FetchError; NoAgent; NotOk; FetchError; FetchError; NoAgent]
            initial_poll) !! 5%nat = Some (Some 4000)
  /\ fst (pollAgentTunnel [JNull; JNull; JNull; JStr "https://tunnel.example"; JNull] 0)
     = [250; 500; 1000].
Proof.
  destruct zoom_polling_is_paced as (H1 & H2 & H3).
  split; [vm_compute; reflexivity|]. split; [vm_compute; reflexivity|].
  split; [|split].
  - apply (H1 [FetchError; NoAgent; NotYet; ApplyFailed (Some "3"); Applied None]
             initial_poll ltac:(simpl; lia)) with (r := Applied None); reflexivity.
  - rewrite (H2 [FetchError; NoAgent; NotOk; FetchError; FetchError; NoAgent]
               initial_poll 5%nat NoAgent ltac:(simpl; lia)).
    + reflexivity.
    + repeat constructor.
    + reflexivity.
  - rewrite (proj1 (H3 [JNull; JNull; JNull; JStr "https://tunnel.example"; JNull] 0
                      ltac:(lia))).
    reflexivity.
Defined.

End ZoomPollFacts.

(** ** Saving and loading the wheels *)

Module WheelStateFacts.
Import Js Dial WheelState DialFacts.

Local Open Scope list_scope.

Lemma double_rem_bound x n : 0 < n -> 0 <= Z.rem (Z.rem x n + n) n < n.
Proof.
  intros Hn. pose proof (Z.rem_bound_abs x n ltac:(lia)).
  apply Z.rem_bound_pos; lia.
Qed.

Lemma double_rem_range x :
  0 <= Z.rem (Z.rem x CHARSET_length + CHARSET_length) CHARSET_length < CHARSET_length.
Proof. apply double_rem_bound. rewrite CHARSET_length_40. lia. Qed.

Lemma double_rem_id x n : 0 < n -> 0 <= x < n -> Z.rem (Z.rem x n + n) n = x.
Proof.
  intros Hn Hx. rewrite (Z.rem_small x n) by lia.
  rewrite Z.rem_mod_nonneg by lia.
  replace (x + n) with (x + 1 * n) by lia.
  rewrite Z.mod_add by lia. apply Z.mod_small. lia.
Qed.

Lemma Math_round_integer z : Math_round (inject_Z z) = z.
Proof.
  unfold Math_round. cbn [inject_Z Qnum Qden].
  change (2 * Z.pos 1) with 2. change (Z.pos 1) with 1.
  replace (2 * z + 1) with (1 + z * 2) by lia.
  rewrite Z.div_add by lia. change (1 / 2) with 0. lia.
Qed.

Lemma Math_trunc_integer z : Math_trunc (inject_Z z) = z.
Proof. unfold Math_trunc. cbn [inject_Z Qnum Qden]. apply Z.quot_1_r. Qed.

Lemma forEach_outside values : forall index p k,
  ~ index <= k < index + Z.of_nat (length values) ->
  forEach_position index values p !! k = p !! k.
Proof.
  induction values as [|v rest IH]; intros index p k Hk; [reflexivity|].
  cbn [forEach_position]. cbn [length] in Hk.
  rewrite IH by lia. apply lookup_insert_ne. lia.
Qed.

Lemma forEach_inside values : forall index p n v,
  values !! n = Some v ->
  forEach_position index values p !! (index + Z.of_nat n) = Some (normalized v).
Proof.
  induction values as [|v0 rest IH]; intros index p n v Hv; [discriminate|].
  cbn [forEach_position]. destruct n as [|n].
  - injection Hv as ->. rewrite forEach_outside by lia.
    replace (index + Z.of_nat 0) with index by lia. apply lookup_insert_eq.
  - replace (index + Z.of_nat (S n)) with (index + 1 + Z.of_nat n) by lia.
    apply IH. exact Hv.
Qed.

Lemma applied_positions state values w :
  positions state = Some values -> Z.of_nat (length values) = WHEEL_COUNT ->
  wheelPositions (applyPersistedWheelState state w)
  = forEach_position 0 values (wheelPositions w)
  /\ activeWheelIndex (applyPersistedWheelState state w)
     = (let r := match activeIndex state with
                 | Finite q => Math_trunc q
                 | NotFinite => activeWheelIndex w
                 end in
        Z.rem (Z.rem r WHEEL_COUNT + WHEEL_COUNT) WHEEL_COUNT)
  /\ wheelStateSaveTimeout (applyPersistedWheelState state w)
     = wheelStateSaveTimeout w
  /\ wheelsLocked (applyPersistedWheelState state w) = wheelsLocked w
  /\ wheelStateLoaded (applyPersistedWheelState state w) = wheelStateLoaded w.
Proof.
  intros Hp Hlen. unfold applyPersistedWheelState. rewrite Hp.
  apply Z.eqb_eq in Hlen. rewrite Hlen. cbn [negb].
  unfold setActiveWheel, scheduleWheelStateSave.
  cbn [set_activeWheelIndex set_wheelPositions set_suppressWheelStateSave
       wheelStateLoaded suppressWheelStateSave wheelPositions activeWheelIndex
       wheelStateSaveTimeout wheelsLocked].
  rewrite orb_true_r. repeat split.
Qed.

(** X15 ([plan.md], [applyPersistedWheelState]): whatever numbers the store
    holds, applying a stored state leaves the wheels in range: every
    position is rounded and wrapped into [0, 40) and the active index into
    [0, 20).  Applying does not arm the save timer and changes neither
    lock.  A stored value that is not a list of exactly twenty positions is
    ignored: the wheels stay as they are. *)
Theorem applied_state_is_in_range (state : WheelPersistedState) (w : Wheels) :
  (in_range w -> finite_positions state ->
   in_range (applyPersistedWheelState state w)
   /\ wheelStateSaveTimeout (applyPersistedWheelState state w)
      = wheelStateSaveTimeout w
   /\ wheelsLocked (applyPersistedWheelState state w) = wheelsLocked w)
  /\ ((forall values, positions state = Some values ->
         Z.of_nat (length values) <> WHEEL_COUNT) ->
      applyPersistedWheelState state w = w).
Proof.
  split.
  - intros Hw Hfin. destruct (positions state) as [values|] eqn:Hp.
    2:{ unfold applyPersistedWheelState. rewrite Hp. auto. }
    destruct (Z.eq_dec (Z.of_nat (length values)) WHEEL_COUNT) as [Hlen|Hlen].
    2:{ unfold applyPersistedWheelState. rewrite Hp.
        apply Z.eqb_neq in Hlen. rewrite Hlen. auto. }
    destruct (applied_positions state values w Hp Hlen) as (Epos & Eact & Et & El & _).
    split; [|split; assumption].
    destruct Hw as (Hin & Hout & Hact).
    unfold finite_positions in Hfin. rewrite Hp in Hfin.
    unfold in_range. rewrite Epos, Eact. split; [|split].
    + intros i Hi.
      assert (Hn : (Z.to_nat i < length values)%nat) by lia.
      destruct (lookup_lt_is_Some_2 values (Z.to_nat i) Hn) as [v Hv].
      exists (normalized v). split.
      * replace i with (0 + Z.of_nat (Z.to_nat i)) at 1 by lia.
        apply forEach_inside. exact Hv.
      * pose proof (Forall_lookup_1 _ _ _ _ Hfin Hv) as Hf.
        destruct v as [q|]; [|contradiction]. apply double_rem_range.
    + intros i Hi. rewrite forEach_outside by lia. apply Hout. exact Hi.
    + cbv zeta. apply double_rem_bound. unfold WHEEL_COUNT. lia.
  - intros Hbad. unfold applyPersistedWheelState.
    destruct (positions state) as [values|]; [|reflexivity].
    specialize (Hbad values eq_refl). apply Z.eqb_neq in Hbad. now rewrite Hbad.
Qed.

Lemma applied_state_is_in_range_witness :
  in_range (applyPersistedWheelState stored_example initial_wheels)
  /\ wheelPositions (applyPersistedWheelState stored_example initial_wheels) !! 0
     = Some (Int 39)
  /\ wheelPositions (applyPersistedWheelState stored_example initial_wheels) !! 1
     = Some (Int 1)
  /\ activeWheelIndex (applyPersistedWheelState stored_example initial_wheels) = 18
  /\ applyPersistedWheelState
       {| positions := Some [Finite 3]; activeIndex := Finite 2 |} initial_wheels
     = initial_wheels.
Proof.
  destruct (applied_state_is_in_range stored_example initial_wheels) as [H _].
  destruct (applied_state_is_in_range
              {| positions := Some [Finite 3]; activeIndex := Finite 2 |}
              initial_wheels) as [_ H'].
  split; [|split; [vm_compute; reflexivity|]].
  - apply H; [apply initial_in_range|].
    unfold finite_positions, stored_example. cbn [positions].
    repeat constructor.
  - split; [vm_compute; reflexivity|]. split; [vm_compute; reflexivity|].
    apply H'. intros values [= <-]. discriminate.
Defined.

(** The length of the array is one more than its greatest index. *)
Lemma array_length_spec (p : gmap Z jsnum) :
  0 <= Session.array_length p
  /\ (forall k v, p !! k = Some v -> k + 1 <= Session.array_length p)
  /\ (Session.array_length p = 0
      \/ exists k, is_Some (p !! k) /\ Session.array_length p = k + 1).
Proof.
  unfold Session.array_length.
  apply (map_fold_weak_ind
           (fun acc (m : gmap Z jsnum) =>
              0 <= acc
              /\ (forall k v, m !! k = Some v -> k + 1 <= acc)
              /\ (acc = 0 \/ exists k, is_Some (m !! k) /\ acc = k + 1))).
  - split; [lia|]. split; [|now left].
    intros k v H. rewrite lookup_empty in H. discriminate.
  - intros i x m r Hi (H0 & Hub & Hwit). split; [lia|]. split.
    + intros k v Hk. destruct (decide (k = i)) as [->|Hne]; [lia|].
      rewrite lookup_insert_ne in Hk by congruence.
      specialize (Hub k v Hk). lia.
    + destruct (Z.max_spec r (i + 1)) as [[Hlt ->]|[Hge ->]].
      * right. exists i. split; [|reflexivity].
        rewrite lookup_insert_eq. eauto.
      * destruct Hwit as [->|(k & Hk & ->)].
        -- now left.
        -- right. exists k. split; [|reflexivity].
           destruct (decide (k = i)) as [->|Hne].
           ++ rewrite lookup_insert_eq. eauto.
           ++ rewrite lookup_insert_ne by congruence. exact Hk.
Qed.

Lemma array_length_in_range w :
  in_range w -> Session.array_length (wheelPositions w) = WHEEL_COUNT.
Proof.
  intros (Hin & Hout & _).
  destruct (array_length_spec (wheelPositions w)) as (H0 & Hub & Hwit).
  unfold WHEEL_COUNT in *.
  destruct (Hin 19 ltac:(lia)) as (v & Hv & _).
  pose proof (Hub 19 v Hv).
  destruct Hwit as [E|(k & [v' Hk] & E)]; [lia|].
  destruct (decide (0 <= k < 20)) as [Hk'|Hk']; [lia|].
  rewrite (Hout k Hk') in Hk. discriminate.
Qed.

Lemma stored_numbers_in_range (p : gmap Z jsnum) (l : list nat) :
  (forall i, In i l -> exists z, p !! Z.of_nat i = Some (Int z)) ->
  exists ns,
    stored_numbers (List.map (fun i => p !! Z.of_nat i) l) = Some ns
    /\ length ns = length l
    /\ forall n i, l !! n = Some i ->
         exists z, p !! Z.of_nat i = Some (Int z)
                   /\ ns !! n = Some (Finite (inject_Z z)).
Proof.
  induction l as [|i l IH]; intros H.
  - exists []. repeat split. intros n i Hn. discriminate.
  - destruct IH as (ns & Hns & Hlen & Hnth).
    { intros j Hj. apply H. now right. }
    destruct (H i (or_introl eq_refl)) as (z & Hz).
    exists (Finite (inject_Z z) :: ns). cbn [List.map stored_numbers].
    rewrite Hz, Hns. cbn [stored_number]. split; [reflexivity|].
    split; [cbn [length]; now rewrite Hlen|].
    intros [|n] j Hn.
    + injection Hn as <-. exists z. split; [exact Hz | reflexivity].
    + apply Hnth. exact Hn.
Qed.

(** X16 ([plan.md], [persistWheelState] and [applyPersistedWheelState]):
    saving and loading are inverse to each other on the wheels.  The state
    that the save timer sends for wheels that are in range, given back
    unchanged by the native side and applied to any wheels in range,
    restores every position and the active index. *)
Theorem saved_state_is_restored (w w' : Wheels) :
  in_range w -> in_range w' ->
  exists state,
    stored (snd (save_timer_fires w)) = Some state
    /\ wheelPositions (applyPersistedWheelState state w') = wheelPositions w
    /\ activeWheelIndex (applyPersistedWheelState state w') = activeWheelIndex w
    /\ wheelStateSaveTimeout (fst (save_timer_fires w)) = false.
Proof.
  intros Hw Hw'.
  pose proof (array_length_in_range w Hw) as Hlen.
  destruct Hw as (Hin & Hout & Hact). destruct Hw' as (Hin' & Hout' & Hact').
  unfold stored, save_timer_fires. cbn [snd fst saved_positions saved_activeIndex].
  unfold spread. rewrite Hlen.
  destruct (stored_numbers_in_range (wheelPositions w) (seq 0 (Z.to_nat WHEEL_COUNT)))
    as (ns & -> & Hnslen & Hnth).
  { intros i Hi. apply in_seq in Hi.
    destruct (Hin (Z.of_nat i) ltac:(unfold WHEEL_COUNT in *; lia)) as (v & Hv & Hr).
    destruct v as [z|]; [|contradiction]. eauto. }
  eexists. split; [reflexivity|].
  rewrite length_seq in Hnslen.
  destruct (applied_positions
              {| positions := Some ns;
                 activeIndex := Finite (inject_Z (activeWheelIndex w)) |}
              ns w' eq_refl ltac:(rewrite Hnslen; unfold WHEEL_COUNT; lia))
    as (-> & -> & _).
  split; [|split; [|reflexivity]].
  - apply map_eq. intros k.
    destruct (decide (0 <= k < WHEEL_COUNT)) as [Hk|Hk].
    + assert (Hseq : seq 0 (Z.to_nat WHEEL_COUNT) !! Z.to_nat k = Some (Z.to_nat k)).
      { apply lookup_seq. unfold WHEEL_COUNT in *. lia. }
      destruct (Hnth _ _ Hseq) as (z & Hz & Hn).
      replace k with (0 + Z.of_nat (Z.to_nat k)) at 1 by lia.
      rewrite (forEach_inside ns 0 (wheelPositions w') _ _ Hn).
      rewrite Z2Nat.id in Hz by lia. rewrite Hz. cbn [normalized].
      rewrite Math_round_integer.
      destruct (Hin k Hk) as (v & Hv & Hr). rewrite Hz in Hv. injection Hv as <-.
      cbn in Hr. rewrite double_rem_id; [reflexivity | rewrite CHARSET_length_40; lia | exact Hr].
    + rewrite forEach_outside by (rewrite Hnslen; unfold WHEEL_COUNT in *; lia).
      rewrite (Hout k Hk). apply Hout'. exact Hk.
  - cbv zeta. cbn [activeIndex]. rewrite Math_trunc_integer.
    apply double_rem_id; [unfold WHEEL_COUNT; lia | exact Hact].
Qed.

Lemma saved_state_is_restored_witness :
  exists state,
    stored (snd (save_timer_fires
                   (run_ops [Adjust 0 5; Adjust 1 (-1); SetActive 7] initial_wheels)))
    = Some state
    /\ wheelPositions (applyPersistedWheelState state initial_wheels)
       = wheelPositions (run_ops [Adjust 0 5; Adjust 1 (-1); SetActive 7] initial_wheels)
    /\ activeWheelIndex (applyPersistedWheelState state initial_wheels) = 7.
Proof.
  destruct (saved_state_is_restored
              (run_ops [Adjust 0 5; Adjust 1 (-1); SetActive 7] initial_wheels)
              initial_wheels) as (state & Hs & Hp & Ha & _).
  - unfold run_ops. cbn [fold_left run_op].
    apply setActiveWheel_in_range.
    apply adjustWheel_in_range; [unfold WHEEL_COUNT; lia | rewrite CHARSET_length_40; lia|].
    apply adjustWheel_in_range; [unfold WHEEL_COUNT; lia | rewrite CHARSET_length_40; lia|].
    apply initial_in_range.
  - apply initial_in_range.
  - exists state. split; [exact Hs|]. split; [exact Hp|].
    rewrite Ha. vm_compute. reflexivity.
Defined.

Lemma run_op_flags w op :
  wheelStateLoaded (run_op w op) = wheelStateLoaded w
  /\ suppressWheelStateSave (run_op w op) = suppressWheelStateSave w
  /\ wheelStateSaveTimeout (run_op w op)
     = (if negb (wheelStateLoaded w) || suppressWheelStateSave w
        then wheelStateSaveTimeout w else true).
Proof.
  destruct op; cbn [run_op]; unfold adjustWheel, setActiveWheel, scheduleWheelStateSave;
    cbn [set_wheelPositions set_activeWheelIndex wheelStateLoaded
         suppressWheelStateSave wheelStateSaveTimeout];
    destruct (negb (wheelStateLoaded w) || suppressWheelStateSave w); repeat split.
Qed.

Lemma applied_flags state w :
  wheelStateLoaded (applyPersistedWheelState state w) = wheelStateLoaded w
  /\ wheelStateSaveTimeout (applyPersistedWheelState state w)
     = wheelStateSaveTimeout w.
Proof.
  unfold applyPersistedWheelState.
  destruct (positions state) as [values|]; [|split; reflexivity].
  destruct (negb _); [split; reflexivity|].
  unfold setActiveWheel, scheduleWheelStateSave.
  cbn [set_activeWheelIndex set_wheelPositions set_suppressWheelStateSave
       wheelStateLoaded suppressWheelStateSave wheelStateSaveTimeout].
  rewrite orb_true_r. split; reflexivity.
Qed.

(** X17 ([plan.md], [scheduleWheelStateSave] and
    [loadPersistedWheelState]): nothing is saved before the stored state
    has been read: as long as the load has not settled, no sequence of
    wheel operations arms the save timer, so the defaults cannot overwrite
    the store.  When the load settles, with a state, with nothing or with
    an error, the wheels count as loaded and one save is armed; from then
    on every operation leaves a save armed. *)
Theorem no_save_before_load :
  (forall ops w,
     wheelStateLoaded w = false ->
     wheelStateSaveTimeout (run_ops ops w) = wheelStateSaveTimeout w
     /\ wheelStateLoaded (run_ops ops w) = false)
  /\ (forall r w,
        wheelStateLoaded w = false -> suppressWheelStateSave w = false ->
        wheelStateLoaded (loadPersistedWheelState r w) = true
        /\ wheelStateSaveTimeout (loadPersistedWheelState r w) = true
        /\ suppressWheelStateSave (loadPersistedWheelState r w) = false)
  /\ (forall op w,
        wheelStateLoaded w = true -> suppressWheelStateSave w = false ->
        wheelStateSaveTimeout (run_op w op) = true
        /\ wheelStateLoaded (run_op w op) = true
        /\ suppressWheelStateSave (run_op w op) = false).
Proof.
  split; [|split].
  - unfold run_ops. induction ops as [|op ops IH]; intros w Hl; [auto|].
    cbn [fold_left]. destruct (run_op_flags w op) as (Hl' & _ & Ht).
    rewrite Hl in Hl', Ht. cbn [negb orb] in Ht.
    destruct (IH (run_op w op) Hl') as [IHt IHl]. rewrite IHt, Ht. auto.
  - intros r w Hl Hs. unfold loadPersistedWheelState, scheduleWheelStateSave.
    assert (E : suppressWheelStateSave
                  match r with
                  | Loaded (Some state) => applyPersistedWheelState state w
                  | Loaded None => setActiveWheel (activeWheelIndex w) w
                  | LoadRejected => w
                  end = false).
    { destruct r as [[state|]|]; [| |exact Hs].
      - unfold applyPersistedWheelState.
        destruct (positions state); [|exact Hs]. destruct (negb _); [exact Hs|].
        reflexivity.
      - destruct (run_op_flags w (SetActive (activeWheelIndex w))) as (_ & E & _).
        cbn [run_op] in E. now rewrite E. }
    cbn [set_wheelStateLoaded wheelStateLoaded suppressWheelStateSave negb orb].
    rewrite E. cbn [set_wheelStateSaveTimeout set_wheelStateLoaded wheelStateLoaded
      wheelStateSaveTimeout suppressWheelStateSave].
    repeat split. exact E.
  - intros op w Hl Hs. destruct (run_op_flags w op) as (Hl' & Hs' & Ht).
    rewrite Hl, Hs in Ht. cbn in Ht. rewrite Ht, Hl', Hs'. auto.
Qed.

Lemma no_save_before_load_witness :
  wheelStateSaveTimeout (run_ops [Adjust 0 5; SetActive 3] initial_wheels) = false
  /\ wheelStateSaveTimeout
       (loadPersistedWheelState LoadRejected
          (run_ops [Adjust 0 5; SetActive 3] initial_wheels)) = true
  /\ wheelStateSaveTimeout
       (run_op (fst (save_timer_fires
                       (loadPersistedWheelState (Loaded None) initial_wheels)))
               (Adjust 2 1)) = true.
Proof.
  destruct no_save_before_load as (H1 & H2 & H3).
  split; [|split].
  - destruct (H1 [Adjust 0 5; SetActive 3] initial_wheels eq_refl) as [E _].
    rewrite E. reflexivity.
  - destruct (H1 [Adjust 0 5; SetActive 3] initial_wheels eq_refl) as [_ El].
    apply (H2 LoadRejected _ El). vm_compute. reflexivity.
  - apply H3; vm_compute; reflexivity.
Defined.

(** X18 ([plan.md], [adjustWheel]): on wheels that are in range a step of
    [delta] symbols (of at most one turn, 40) puts wheel [index] at
    [(p + delta) mod 40], and the opposite step undoes it: every position
    is as it was before the two steps. *)
Theorem adjust_then_undo (index delta : Z) (w : Wheels) :
  in_range w -> 0 <= index < WHEEL_COUNT -> -40 <= delta <= 40 ->
  (exists p, wheelPositions w !! index = Some (Int p)
             /\ wheelPositions (adjustWheel index delta w) !! index
                = Some (Int ((p + delta) mod 40)))
  /\ wheelPositions (adjustWheel index (- delta) (adjustWheel index delta w))
     = wheelPositions w.
Proof.
  intros (Hin & Hout & Hact) Hi Hd.
  destruct (Hin index Hi) as (v & Hv & Hr).
  destruct v as [p|]; [|contradiction]. cbn in Hr. rewrite CHARSET_length_40 in Hr.
  assert (E1 : wheelPositions (adjustWheel index delta w)
               = <[index := Int ((p + delta) mod 40)]> (wheelPositions w)).
  { rewrite adjustWheel_positions. unfold read_position. rewrite Hv.
    cbn [js_add js_rem]. rewrite CHARSET_length_40.
    rewrite Z.rem_mod_nonneg by lia.
    replace (p + delta + 40) with (p + delta + 1 * 40) by lia.
    now rewrite Z.mod_add by lia. }
  split.
  - exists p. split; [exact Hv|]. rewrite E1. apply lookup_insert_eq.
  - rewrite adjustWheel_positions, E1. unfold read_position.
    rewrite lookup_insert_eq. cbn [js_add js_rem]. rewrite CHARSET_length_40.
    pose proof (Z.mod_pos_bound (p + delta) 40 ltac:(lia)) as Hm.
    rewrite Z.rem_mod_nonneg by lia.
    replace ((p + delta) mod 40 + - delta + 40)
      with ((p + delta) mod 40 + (40 - delta)) by lia.
    rewrite Zplus_mod_idemp_l.
    replace (p + delta + (40 - delta)) with (p + 1 * 40) by lia.
    rewrite Z.mod_add, Z.mod_small by lia.
    rewrite insert_insert_eq. apply insert_id. exact Hv.
Qed.

Lemma adjust_then_undo_witness :
  wheelPositions (adjustWheel 4 (-1) initial_wheels) !! 4 = Some (Int 39)
  /\ wheelPositions (adjustWheel 4 1 (adjustWheel 4 (-1) initial_wheels))
     = wheelPositions initial_wheels.
Proof.
  destruct (adjust_then_undo 4 (-1) initial_wheels) as [(p & Hp & Hq) Hback].
  - apply initial_in_range.
  - unfold WHEEL_COUNT. lia.
  - lia.
  - split; [|exact Hback].
    rewrite (initial_lookup 4) in Hp by (unfold WHEEL_COUNT; lia).
    injection Hp as <-. exact Hq.
Defined.

End WheelStateFacts.

(** ** The gesture recognizer: histories, cool-downs and the loop *)

Module GestureLoopFacts.
Import Js Dial Gesture GestureLoop.

Local Open Scope Q_scope.
Local Open Scope list_scope.

Lemma Qltb_false a b : Qltb a b = false <-> b <= a.
Proof.
  unfold Qltb. rewrite negb_false_iff. apply Qle_bool_iff.
Qed.

Lemma Qltb_true a b : Qltb a b = true <-> a < b.
Proof.
  unfold Qltb. rewrite negb_true_iff. split.
  - intros H. apply Qnot_le_lt. intros Hle. apply Qle_bool_iff in Hle. congruence.
  - intros H. destruct (Qle_bool b a) eqn:E; [|reflexivity].
    apply Qle_bool_iff in E. lra.
Qed.

Lemma Qleb_true a b : Qleb a b = true <-> a <= b.
Proof. apply Qle_bool_iff. Qed.

Lemma shift_older_suffix cutoff h :
  exists older, h = older ++ shift_older cutoff h.
Proof.
  induction h as [|s rest (older & IH)]; [now exists []|].
  cbn [shift_older]. destruct (Qltb (time s) cutoff).
  - exists (s :: older). cbn. now rewrite <- IH.
  - now exists [].
Qed.

Lemma shift_older_head cutoff h :
  match shift_older cutoff h with
  | s :: _ => cutoff <= time s
  | [] => True
  end.
Proof.
  induction h as [|s rest IH]; [exact I|].
  cbn [shift_older]. destruct (Qltb (time s) cutoff) eqn:E; [exact IH|].
  now apply Qltb_false.
Qed.

Lemma shift_older_keeps_last cutoff h sample :
  cutoff <= time sample ->
  last (shift_older cutoff (h ++ [sample])) = Some sample.
Proof.
  intros Hs. induction h as [|s rest IH].
  - cbn. apply Qltb_false in Hs. rewrite Hs. reflexivity.
  - cbn [app shift_older]. destruct (Qltb (time s) cutoff); [exact IH|].
    change (s :: rest ++ [sample]) with ((s :: rest) ++ [sample]).
    apply last_snoc.
Qed.

Lemma chronological_app_r a b : chronological (a ++ b) -> chronological b.
Proof.
  induction a as [|s a IH]; [auto|]. cbn. intros [_ H]. auto.
Qed.

Lemma chronological_snoc h sample :
  chronological h -> not_after (time sample) h -> chronological (h ++ [sample]).
Proof.
  unfold not_after. induction h as [|s rest IH]; intros Hc Hn.
  - cbn. split; [constructor | exact I].
  - cbn in Hc |- *. destruct Hc as [Hs Hc].
    apply Forall_cons in Hn as [Hn1 Hn2]. split.
    + apply Forall_app. split; [exact Hs|]. constructor; [exact Hn1 | constructor].
    + apply IH; assumption.
Qed.

Lemma chronological_head_bound lo h :
  chronological h ->
  match h with s :: _ => lo <= time s | [] => True end ->
  Forall (fun s => lo <= time s) h.
Proof.
  destruct h as [|s rest]; [constructor|].
  cbn. intros [Hs _] Hlo. constructor; [exact Hlo|].
  eapply Forall_impl; [exact Hs|]. cbn. intros s' H. lra.
Qed.

(** What [pushHandSample] leaves in the history of the hand. *)
Lemma pushed_history l sample g :
  handHistories (pushHandSample l sample g) l
  = shift_older (time sample - GESTURE_HISTORY_WINDOW_MS)
                (handHistories g l ++ [sample]).
Proof. destruct l; reflexivity. Qed.

Lemma displacement_elapsed h dx dy elapsedMs now :
  within_window now h ->
  getRecentDisplacement h = Some (dx, dy, elapsedMs) ->
  0 < elapsedMs /\ elapsedMs <= GESTURE_HISTORY_WINDOW_MS.
Proof.
  intros Hw. unfold getRecentDisplacement.
  destruct h as [|first [|second rest]]; try discriminate.
  set (h := first :: second :: rest) in *.
  destruct (Qleb (time (List.last h first) - time first) 0) eqn:E; [discriminate|].
  intros [= _ _ <-].
  assert (Hpos : 0 < time (List.last h first) - time first).
  { apply Qnot_le_lt. intros Hle. apply Qleb_true in Hle. congruence. }
  split; [exact Hpos|].
  unfold within_window in Hw.
  assert (Hfirst : now - GESTURE_HISTORY_WINDOW_MS <= time first /\ time first <= now).
  { apply Forall_cons in Hw as [H _]. exact H. }
  assert (Hlast : In (List.last h first) h).
  { destruct (List.exists_last (l := h) ltac:(discriminate)) as (pre & a & Eh).
    rewrite Eh, List.last_last. apply in_or_app. right. now left. }
  pose proof (proj1 (List.Forall_forall _ _) Hw _ Hlast) as [_ Hl].
  cbn beta in *. destruct Hfirst as [Hf _].
  change (time (List.last h first) - time first <= GESTURE_HISTORY_WINDOW_MS).
  lra.
Qed.

(** X19 ([plan.md], [pushHandSample] and [getRecentDisplacement]): a
    history that is fed samples in the order of their times holds, after
    every push, only samples of the last 350 ms, the newest one last.  The
    displacement read from such a history therefore spans more than 0 and at
    most 350 ms: the window test of the swipe detection cannot fail on it.
    The history of the other hand is not touched. *)
Theorem pushed_history_is_recent (l : HandLabel) (sample : HandSample)
    (g : Gestures) :
  chronological (handHistories g l) ->
  not_after (time sample) (handHistories g l) ->
  let h := handHistories (pushHandSample l sample g) l in
  last h = Some sample
  /\ chronological h
  /\ within_window (time sample) h
  /\ (forall dx dy elapsedMs,
        getRecentDisplacement h = Some (dx, dy, elapsedMs) ->
        0 < elapsedMs /\ Qleb elapsedMs GESTURE_HISTORY_WINDOW_MS = true)
  /\ (forall l', l' <> l ->
        handHistories (pushHandSample l sample g) l' = handHistories g l').
Proof.
  intros Hc Hn. cbv zeta. rewrite pushed_history.
  set (cutoff := time sample - GESTURE_HISTORY_WINDOW_MS).
  assert (Hcut : cutoff <= time sample).
  { unfold cutoff, GESTURE_HISTORY_WINDOW_MS. lra. }
  pose proof (chronological_snoc _ _ Hc Hn) as Hall.
  destruct (shift_older_suffix cutoff (handHistories g l ++ [sample]))
    as (older & Eh).
  assert (Hc' : chronological (shift_older cutoff (handHistories g l ++ [sample]))).
  { rewrite Eh in Hall. exact (chronological_app_r _ _ Hall). }
  assert (Hw : within_window (time sample)
                 (shift_older cutoff (handHistories g l ++ [sample]))).
  { unfold within_window.
    pose proof (chronological_head_bound cutoff _ Hc' (shift_older_head cutoff _)) as Hlo.
    assert (Hhi : Forall (fun s => time s <= time sample)
                    (shift_older cutoff (handHistories g l ++ [sample]))).
    { assert (Hfull : Forall (fun s => time s <= time sample)
                        (handHistories g l ++ [sample])).
      { apply Forall_app. split; [exact Hn|]. constructor; [lra | constructor]. }
      rewrite Eh in Hfull. apply Forall_app in Hfull. tauto. }
    apply List.Forall_forall. intros s Hs.
    pose proof (proj1 (List.Forall_forall _ _) Hlo s Hs).
    pose proof (proj1 (List.Forall_forall _ _) Hhi s Hs).
    fold cutoff. split; assumption. }
  split; [apply shift_older_keeps_last, Hcut|].
  split; [exact Hc'|]. split; [exact Hw|]. split.
  - intros dx dy e He.
    destruct (displacement_elapsed _ _ _ _ _ Hw He) as [H0 H1].
    split; [exact H0 | now apply Qleb_true].
  - intros l' Hne. destruct l, l'; try congruence; reflexivity.
Qed.

Lemma pushed_history_is_recent_witness :
  let g := set_handHistory Right history_example initial_gestures in
  let sample := {| x := 1 # 2; y := 2 # 10; time := 3400 |} in
  List.map time (handHistories (pushHandSample Right sample g) Right)
  = [3100; 3300; 3400]
  /\ within_window 3400 (handHistories (pushHandSample Right sample g) Right).
Proof.
  cbv zeta. split; [vm_compute; reflexivity|].
  apply (pushed_history_is_recent Right {| x := 1 # 2; y := 2 # 10; time := 3400 |}
           (set_handHistory Right history_example initial_gestures)).
  - cbn. repeat (split || constructor); cbn; lra.
  - unfold not_after. cbn. repeat constructor; cbn; lra.
Defined.

(** *** One frame *)

Lemma scan_hand_clocks r now acc index lms :
  clocks_of (scan_gestures (scan_hand r now acc index lms))
  = clocks_of (scan_gestures acc).
Proof.
  unfold scan_hand. destruct (label_of r index) as [l|]; [|reflexivity].
  destruct (negb (isPalmOpen lms)); destruct l; reflexivity.
Qed.

Lemma scan_hands_clocks r now hands : forall acc index,
  clocks_of (scan_gestures (scan_hands r now acc index hands))
  = clocks_of (scan_gestures acc).
Proof.
  induction hands as [|lms rest IH]; intros acc index; [reflexivity|].
  cbn [scan_hands]. rewrite IH. apply scan_hand_clocks.
Qed.

Lemma clear_unseen_clocks seen g : clocks_of (clear_unseen seen g) = clocks_of g.
Proof.
  unfold clear_unseen. cbn [fold_left].
  destruct (existsb (HandLabel_eqb Left) seen);
    destruct (existsb (HandLabel_eqb Right) seen); reflexivity.
Qed.

Lemma idle_status_clocks message now g :
  clocks_of (idle_status message now g) = clocks_of g.
Proof. unfold idle_status. now destruct (Qltb _ _). Qed.

Lemma spin_loop_spec now obs : forall f f' handled,
  spin_loop now obs f = (f', handled) ->
  (handled = false /\ f' = f)
  \/ (handled = true
      /\ exists c message,
           (c = SpinUp \/ c = SpinDown)
           /\ f' = {| fr_wheels := command_op (fr_wheels f) c;
                      fr_gestures :=
                        set_lastWheelAdjustTime now
                          (setGestureStatus message now (fr_gestures f));
                      fr_commands := fr_commands f ++ [c] |}).
Proof.
  induction obs as [|o rest IH]; intros f f' handled; cbn [spin_loop].
  - intros [= <- <-]. now left.
  - destruct (getRecentDisplacement _) as [[[dx dy] e]|]; [|apply IH].
    destruct (_ && _ && _); [|apply IH].
    destruct (Qleb dy (- SWIPE_MIN_DISPLACEMENT)).
    { intros [= <- <-]. right. split; [reflexivity|].
      exists SpinUp. eexists. split; [now left | reflexivity]. }
    destruct (Qleb SWIPE_MIN_DISPLACEMENT dy); [|apply IH].
    intros [= <- <-]. right. split; [reflexivity|].
    exists SpinDown. eexists. split; [now right | reflexivity].
Qed.

Lemma switch_loop_spec now obs : forall f f' handled,
  switch_loop now obs f = (f', handled) ->
  (handled = false /\ f' = f)
  \/ (handled = true
      /\ exists c message,
           (c = NextDial \/ c = PrevDial)
           /\ f' = {| fr_wheels := command_op (fr_wheels f) c;
                      fr_gestures :=
                        set_lastWheelSwitchTime now
                          (setGestureStatus message now (fr_gestures f));
                      fr_commands := fr_commands f ++ [c] |}).
Proof.
  induction obs as [|o rest IH]; intros f f' handled; cbn [switch_loop].
  - intros [= <- <-]. now left.
  - destruct (getRecentDisplacement _) as [[[dx dy] e]|]; [|apply IH].
    destruct (_ && _ && _); [|apply IH].
    destruct (Qleb dx (- SWIPE_MIN_DISPLACEMENT)).
    { intros [= <- <-]. right. split; [reflexivity|].
      exists NextDial. eexists. split; [now left | reflexivity]. }
    destruct (Qleb SWIPE_MIN_DISPLACEMENT dx); [|apply IH].
    intros [= <- <-]. right. split; [reflexivity|].
    exists PrevDial. eexists. split; [now right | reflexivity].
Qed.

Lemma clap_spec centers now g g' fired :
  handleClapDetection centers now g = (g', fired) ->
  lastWheelAdjustTime (gestureState g') = lastWheelAdjustTime (gestureState g)
  /\ lastWheelSwitchTime (gestureState g') = lastWheelSwitchTime (gestureState g)
  /\ if fired
     then CLAP_COOLDOWN_MS < now - lastClapTime (gestureState g)
          /\ lastClapTime (gestureState g') = now
          /\ lastTwoHandDistance g' = None
          /\ (exists distance lastDistance lastTime,
                lastTwoHandDistance g = Some (lastDistance, lastTime)
                /\ now - lastTime <= CLAP_MAX_INTERVAL_MS
                /\ distance - lastDistance <= CLAP_DELTA_THRESHOLD
                /\ distance <= CLAP_DISTANCE_THRESHOLD)
          /\ (exists left_ right_,
                In left_ centers /\ label left_ = Left
                /\ In right_ centers /\ label right_ = Right)
     else lastClapTime (gestureState g') = lastClapTime (gestureState g).
Proof.
  unfold handleClapDetection.
  destruct (List.find _ centers) as [left_|] eqn:EL;
    [|intros [= <- <-]; repeat split].
  destruct (List.find (fun e => HandLabel_eqb (label e) Right) centers)
    as [right_|] eqn:ER; [|intros [= <- <-]; repeat split].
  destruct (lastTwoHandDistance g) as [[lastDistance lastTime]|] eqn:ED;
    [|intros [= <- <-]; repeat split].
  destruct (_ && _ && _ && _) eqn:EC; [|intros [= <- <-]; repeat split].
  intros [= <- <-].
  apply andb_prop in EC as [EC E4]. apply andb_prop in EC as [EC E3].
  apply andb_prop in EC as [E1 E2].
  apply Qleb_true in E1, E2, E3. apply Qltb_true in E4.
  split; [reflexivity|]. split; [reflexivity|].
  split; [exact E4|]. split; [reflexivity|]. split; [reflexivity|]. split.
  - eexists _, lastDistance, lastTime. split; [reflexivity|].
    split; [exact E1|]. split; [exact E2 | exact E3].
  - apply List.find_some in EL as [HL1 HL2]. apply List.find_some in ER as [HR1 HR2].
    exists left_, right_. repeat split; try assumption.
    + now destruct (label left_).
    + now destruct (label right_).
Qed.

(** What one frame does, seen from outside: the commands issued are a
    swipe part followed by a clap part; the wheels are the wheels before
    with the swipe applied; the three times of [gestureState] move only
    with their command, which is issued only after its cool-down. *)
Lemma frame_spec result now w g :
  let f := processHandLandmarks result now w g in
  let gs := gestureState g in
  let gs' := gestureState (fr_gestures f) in
  exists swipe clap,
    fr_commands f = swipe ++ clap
    /\ fr_wheels f = fold_left command_op swipe w
    /\ ((swipe = []
         /\ lastWheelAdjustTime gs' = lastWheelAdjustTime gs
         /\ lastWheelSwitchTime gs' = lastWheelSwitchTime gs)
        \/ ((swipe = [SpinUp] \/ swipe = [SpinDown])
            /\ WHEEL_ADJUST_COOLDOWN_MS < now - lastWheelAdjustTime gs
            /\ lastWheelAdjustTime gs' = now
            /\ lastWheelSwitchTime gs' = lastWheelSwitchTime gs)
        \/ ((swipe = [NextDial] \/ swipe = [PrevDial])
            /\ WHEEL_SWITCH_COOLDOWN_MS < now - lastWheelSwitchTime gs
            /\ lastWheelSwitchTime gs' = now
            /\ lastWheelAdjustTime gs' = lastWheelAdjustTime gs))
    /\ ((clap = [] /\ lastClapTime gs' = lastClapTime gs)
        \/ (clap = [Clap]
            /\ CLAP_COOLDOWN_MS < now - lastClapTime gs
            /\ lastClapTime gs' = now
            /\ lastTwoHandDistance (fr_gestures f) = None
            /\ exists lastDistance lastTime,
                 lastTwoHandDistance g = Some (lastDistance, lastTime)
                 /\ now - lastTime <= CLAP_MAX_INTERVAL_MS)).
Proof.
  cbv zeta.
  assert (Hnone : forall g0,
            gestureState g0 = gestureState g ->
            exists swipe clap : list Command,
              ([] : list Command) = swipe ++ clap
              /\ w = fold_left command_op swipe w
              /\ ((swipe = []
                   /\ lastWheelAdjustTime (gestureState g0) = lastWheelAdjustTime (gestureState g)
                   /\ lastWheelSwitchTime (gestureState g0) = lastWheelSwitchTime (gestureState g))
                  \/ ((swipe = [SpinUp] \/ swipe = [SpinDown])
                      /\ WHEEL_ADJUST_COOLDOWN_MS < now - lastWheelAdjustTime (gestureState g)
                      /\ lastWheelAdjustTime (gestureState g0) = now
                      /\ lastWheelSwitchTime (gestureState g0) = lastWheelSwitchTime (gestureState g))
                  \/ ((swipe = [NextDial] \/ swipe = [PrevDial])
                      /\ WHEEL_SWITCH_COOLDOWN_MS < now - lastWheelSwitchTime (gestureState g)
                      /\ lastWheelSwitchTime (gestureState g0) = now
                      /\ lastWheelAdjustTime (gestureState g0) = lastWheelAdjustTime (gestureState g)))
              /\ ((clap = [] /\ lastClapTime (gestureState g0) = lastClapTime (gestureState g))
                  \/ (clap = [Clap]
                      /\ CLAP_COOLDOWN_MS < now - lastClapTime (gestureState g)
                      /\ lastClapTime (gestureState g0) = now
                      /\ lastTwoHandDistance g0 = None
                      /\ exists lastDistance lastTime,
                           lastTwoHandDistance g = Some (lastDistance, lastTime)
                           /\ now - lastTime <= CLAP_MAX_INTERVAL_MS))).
  { intros g0 E. exists [], []. rewrite E.
    split; [reflexivity|]. split; [reflexivity|].
    split; [left; repeat split | left; repeat split]. }
  unfold processHandLandmarks.
  destruct (gesturesLocked g); [apply Hnone; reflexivity|].
  assert (Hidle : forall message g0,
            clocks_of g0 = clocks_of g ->
            gestureState (idle_status message now (set_lastTwoHandDistance None g0))
            = gestureState g).
  { intros message g0 E.
    pose proof (idle_status_clocks message now (set_lastTwoHandDistance None g0)) as H.
    unfold clocks_of in *. injection H as H _. injection E as E _.
    rewrite H. exact E. }
  destruct result as [r|];
    [|apply Hnone; apply (Hidle _ (clearHandHistory Right (clearHandHistory Left g)));
      reflexivity].
  destruct (landmarks r) as [[|lms hands]|];
    try (apply Hnone; apply (Hidle _ (clearHandHistory Right (clearHandHistory Left g)));
         reflexivity).
  set (sc := scan_hands r now _ O (lms :: hands)).
  set (g1 := clear_unseen (seenLabels sc) (scan_gestures sc)).
  assert (Hg1 : clocks_of g1 = clocks_of g).
  { unfold g1, sc. rewrite clear_unseen_clocks, scan_hands_clocks. reflexivity. }
  destruct (observations sc) as [|o obs] eqn:Eobs.
  { apply Hnone. apply Hidle. exact Hg1. }
  set (f0 := {| fr_wheels := w; fr_gestures := g1; fr_commands := [] |}).
  unfold clocks_of in Hg1. injection Hg1 as Hgs Hdist.
  (* the spin loop *)
  destruct (Qltb WHEEL_ADJUST_COOLDOWN_MS (now - lastWheelAdjustTime (gestureState g1)))
    eqn:Ecool1.
  - destruct (spin_loop now (o :: obs) f0) as [f1 handled1] eqn:Espin.
    destruct (spin_loop_spec _ _ _ _ _ Espin) as [[-> ->]|(-> & c & message & Hc & ->)].
    + (* no spin: the switch loop *)
      cbn [negb andb fr_gestures f0].
      destruct (Qltb WHEEL_SWITCH_COOLDOWN_MS (now - lastWheelSwitchTime (gestureState g1)))
        eqn:Ecool2.
      * destruct (switch_loop now (o :: obs) f0) as [f2 handled2] eqn:Eswitch.
        destruct (switch_loop_spec _ _ _ _ _ Eswitch)
          as [[-> ->]|(-> & c & message & Hc & ->)].
        -- cbn [fr_gestures fr_wheels fr_commands f0].
           destruct (handleClapDetection (o :: obs) now g1) as [g3 fired] eqn:Eclap.
           destruct (clap_spec _ _ _ _ _ Eclap) as (Ha & Hs & Hf).
           exists []. exists (if fired then [Clap] else []).
           rewrite Hgs, Hdist in *.
           destruct fired; cbn [orb negb fr_commands fr_wheels fr_gestures app];
             (split; [reflexivity|]); (split; [reflexivity|]).
           ++ destruct Hf as (Hcd & Ht & Hd & (d & ld & lt & Hld & Hint & _) & _).
              split; [left; auto|]. right. repeat split; try assumption. eauto.
           ++ pose proof (idle_status_clocks "Hands ready." now g3) as Hi.
              unfold clocks_of in Hi. injection Hi as Hi _. rewrite Hi.
              split; [left; auto | left; auto].
        -- cbn [fr_gestures fr_wheels fr_commands f0].
           match goal with |- context [handleClapDetection ?o ?n ?g0] =>
             destruct (handleClapDetection o n g0) as [g3 fired] eqn:Eclap end.
           destruct (clap_spec _ _ _ _ _ Eclap) as (Ha & Hs & Hf).
           cbn [set_lastWheelSwitchTime set_gestureState gestureState setGestureStatus
                lastWheelAdjustTime lastWheelSwitchTime lastClapTime
                lastTwoHandDistance] in Ha, Hs, Hf.
           apply Qltb_true in Ecool2.
           exists [c]. exists (if fired then [Clap] else []).
           rewrite Hgs, Hdist in *.
           destruct fired; cbn [orb negb fr_commands fr_wheels fr_gestures app];
             (split; [reflexivity|]); (split; [reflexivity|]).
           ++ destruct Hf as (Hcd & Ht & Hd & (d & ld & lt & Hld & Hint & _) & _).
              split.
              ** right. right. split; [destruct Hc as [-> | ->]; auto|]. auto.
              ** right. repeat split; try assumption. eauto.
           ++ split.
              ** right. right. split; [destruct Hc as [-> | ->]; auto|]. auto.
              ** left. auto.
      * cbn [fr_gestures fr_wheels fr_commands f0].
        destruct (handleClapDetection (o :: obs) now g1) as [g3 fired] eqn:Eclap.
        destruct (clap_spec _ _ _ _ _ Eclap) as (Ha & Hs & Hf).
        exists []. exists (if fired then [Clap] else []).
        rewrite Hgs, Hdist in *.
        destruct fired; cbn [orb negb fr_commands fr_wheels fr_gestures app];
          (split; [reflexivity|]); (split; [reflexivity|]).
        -- destruct Hf as (Hcd & Ht & Hd & (d & ld & lt & Hld & Hint & _) & _).
           split; [left; auto|]. right. repeat split; try assumption. eauto.
        -- pose proof (idle_status_clocks "Hands ready." now g3) as Hi.
           unfold clocks_of in Hi. injection Hi as Hi _. rewrite Hi.
           split; [left; auto | left; auto].
    + (* a spin *)
      cbn [negb andb fr_gestures fr_wheels fr_commands f0].
      match goal with |- context [handleClapDetection ?o ?n ?g0] =>
        destruct (handleClapDetection o n g0) as [g3 fired] eqn:Eclap end.
      destruct (clap_spec _ _ _ _ _ Eclap) as (Ha & Hs & Hf).
      cbn [set_lastWheelAdjustTime set_gestureState gestureState setGestureStatus
           lastWheelAdjustTime lastWheelSwitchTime lastClapTime
           lastTwoHandDistance] in Ha, Hs, Hf.
      apply Qltb_true in Ecool1.
      exists [c]. exists (if fired then [Clap] else []).
      rewrite Hgs, Hdist in *.
      destruct fired; cbn [orb negb fr_commands fr_wheels fr_gestures app];
        (split; [reflexivity|]); (split; [reflexivity|]).
      * destruct Hf as (Hcd & Ht & Hd & (d & ld & lt & Hld & Hint & _) & _).
        split.
        -- right. left. split; [destruct Hc as [-> | ->]; auto|]. auto.
        -- right. repeat split; try assumption. eauto.
      * split.
        -- right. left. split; [destruct Hc as [-> | ->]; auto|]. auto.
        -- left. auto.
  - (* the adjust cool-down has not elapsed *)
    cbn [negb andb fr_gestures f0].
    destruct (Qltb WHEEL_SWITCH_COOLDOWN_MS (now - lastWheelSwitchTime (gestureState g1)))
      eqn:Ecool2.
    + destruct (switch_loop now (o :: obs) f0) as [f2 handled2] eqn:Eswitch.
      destruct (switch_loop_spec _ _ _ _ _ Eswitch)
        as [[-> ->]|(-> & c & message & Hc & ->)].
      * cbn [fr_gestures fr_wheels fr_commands f0].
        destruct (handleClapDetection (o :: obs) now g1) as [g3 fired] eqn:Eclap.
        destruct (clap_spec _ _ _ _ _ Eclap) as (Ha & Hs & Hf).
        exists []. exists (if fired then [Clap] else []).
        rewrite Hgs, Hdist in *.
        destruct fired; cbn [orb negb fr_commands fr_wheels fr_gestures app];
          (split; [reflexivity|]); (split; [reflexivity|]).
        -- destruct Hf as (Hcd & Ht & Hd & (d & ld & lt & Hld & Hint & _) & _).
           split; [left; auto|]. right. repeat split; try assumption. eauto.
        -- pose proof (idle_status_clocks "Hands ready." now g3) as Hi.
           unfold clocks_of in Hi. injection Hi as Hi _. rewrite Hi.
           split; [left; auto | left; auto].
      * cbn [fr_gestures fr_wheels fr_commands f0].
        match goal with |- context [handleClapDetection ?o ?n ?g0] =>
          destruct (handleClapDetection o n g0) as [g3 fired] eqn:Eclap end.
        destruct (clap_spec _ _ _ _ _ Eclap) as (Ha & Hs & Hf).
        cbn [set_lastWheelSwitchTime set_gestureState gestureState setGestureStatus
             lastWheelAdjustTime lastWheelSwitchTime lastClapTime
             lastTwoHandDistance] in Ha, Hs, Hf.
        apply Qltb_true in Ecool2.
        exists [c]. exists (if fired then [Clap] else []).
        rewrite Hgs, Hdist in *.
        destruct fired; cbn [orb negb fr_commands fr_wheels fr_gestures app];
          (split; [reflexivity|]); (split; [reflexivity|]).
        -- destruct Hf as (Hcd & Ht & Hd & (d & ld & lt & Hld & Hint & _) & _).
           split.
           ++ right. right. split; [destruct Hc as [-> | ->]; auto|]. auto.
           ++ right. repeat split; try assumption. eauto.
        -- split.
           ++ right. right. split; [destruct Hc as [-> | ->]; auto|]. auto.
           ++ left. auto.
    + cbn [fr_gestures fr_wheels fr_commands f0].
      destruct (handleClapDetection (o :: obs) now g1) as [g3 fired] eqn:Eclap.
      destruct (clap_spec _ _ _ _ _ Eclap) as (Ha & Hs & Hf).
      exists []. exists (if fired then [Clap] else []).
      rewrite Hgs, Hdist in *.
      destruct fired; cbn [orb negb fr_commands fr_wheels fr_gestures app];
        (split; [reflexivity|]); (split; [reflexivity|]).
      * destruct Hf as (Hcd & Ht & Hd & (d & ld & lt & Hld & Hint & _) & _).
        split; [left; auto|]. right. repeat split; try assumption. eauto.
      * pose proof (idle_status_clocks "Hands ready." now g3) as Hi.
        unfold clocks_of in Hi. injection Hi as Hi _. rewrite Hi.
        split; [left; auto | left; auto].
Qed.

Lemma command_op_in_range w c :
  in_range w -> in_range (command_op w c).
Proof.
  intros Hw. pose proof Hw as (_ & _ & Hact).
  destruct c; cbn [command_op];
    try (apply DialFacts.adjustWheel_in_range;
         [exact Hact | rewrite DialFacts.CHARSET_length_40; lia | exact Hw]);
    try (apply DialFacts.setActiveWheel_in_range; exact Hw).
  exact Hw.
Qed.

Lemma commands_in_range cmds : forall w,
  in_range w -> in_range (fold_left command_op cmds w).
Proof.
  induction cmds as [|c cmds IH]; intros w Hr; [exact Hr|].
  cbn [fold_left]. apply IH. now apply command_op_in_range.
Qed.

(** X20 ([plan.md], [processHandLandmarks]): a frame changes the wheels
    only through the commands it issues: the wheels after the frame are the
    wheels before it with the calls of the issued commands applied, in
    order, to the active wheel.  So a frame without a command leaves the
    wheels alone, and no frame takes the wheels out of range. *)
Theorem frame_changes_wheels_by_commands
    (result : option HandLandmarkerResult) (now : Q) (w : Wheels) (g : Gestures) :
  let f := processHandLandmarks result now w g in
  fr_wheels f = fold_left command_op (fr_commands f) w
  /\ (in_range w -> in_range (fr_wheels f)).
Proof.
  cbv zeta. destruct (frame_spec result now w g) as (swipe & clap & Hc & Hw & _ & Hclap).
  cbv zeta in Hc, Hw, Hclap.
  assert (E : fr_wheels (processHandLandmarks result now w g)
              = fold_left command_op (fr_commands (processHandLandmarks result now w g)) w).
  { rewrite Hc, Hw, fold_left_app.
    destruct Hclap as [[-> _]|[-> _]]; reflexivity. }
  split; [exact E|].
  intros Hr. rewrite E. now apply commands_in_range.
Qed.

Lemma frame_changes_wheels_by_commands_witness :
  fr_commands drop_frame_2 = [SpinDown; Clap]
  /\ fr_wheels drop_frame_2 = adjustWheel 0 1 (fr_wheels drop_frame_1)
  /\ in_range (fr_wheels drop_frame_2).
Proof.
  destruct (frame_changes_wheels_by_commands
              (Some (two_open_hands (50#100) (50#100) (55#100) (50#100)))
              3100 (fr_wheels drop_frame_1) (fr_gestures drop_frame_1)) as [E H].
  split; [vm_compute; reflexivity|]. split; [vm_compute; reflexivity|].
  apply H.
  destruct (frame_changes_wheels_by_commands
              (Some (two_open_hands (50#100) (30#100) (55#100) (50#100)))
              3000 initial_wheels initial_gestures) as [_ H0].
  apply H0, DialFacts.initial_in_range.
Defined.

(** The time that records a command moves only when a command of its kind
    is issued, and that happens only after the cool-down. *)
Lemma frame_clock c result now w g :
  let f := processHandLandmarks result now w g in
  if existsb (same_kind c) (fr_commands f)
  then cooldown_of c < now - clock_of c (gestureState g)
       /\ clock_of c (gestureState (fr_gestures f)) = now
  else clock_of c (gestureState (fr_gestures f)) = clock_of c (gestureState g).
Proof.
  cbv zeta. destruct (frame_spec result now w g) as (swipe & clap & Hc & _ & Hs & Hcl).
  cbv zeta in Hc, Hs, Hcl. rewrite Hc.
  destruct Hs as [(-> & Ha & Hs)|[([-> | ->] & Hcd & Ha & Hs)|([-> | ->] & Hcd & Hs & Ha)]];
    destruct Hcl as [(-> & Ht)|(-> & Hcc & Ht & _)];
    destruct c; cbn; auto.
Qed.

Lemma same_kind_clock c d gs :
  same_kind c d = true -> clock_of c gs = clock_of d gs /\ cooldown_of c = cooldown_of d.
Proof. destruct c, d; cbn; intros H; try discriminate; split; reflexivity. Qed.

Lemma same_kind_refl c : same_kind c c = true.
Proof. destruct c; reflexivity. Qed.

Lemma cooldown_pos c : 0 < cooldown_of c.
Proof. destruct c; cbn; reflexivity. Qed.

Lemma frame_clock_grows c result now w g :
  clock_of c (gestureState g)
  <= clock_of c (gestureState (fr_gestures (processHandLandmarks result now w g))).
Proof.
  pose proof (frame_clock c result now w g) as H. cbv zeta in H.
  pose proof (cooldown_pos c).
  destruct (existsb _ _).
  - destruct H as [Hcd ->]. lra.
  - rewrite H. lra.
Qed.

Lemma later_command_after_clock frames : forall w g j tj cj d,
  run_frames frames w g !! j = Some (tj, cj) -> In d cj ->
  clock_of d (gestureState g) + cooldown_of d < tj.
Proof.
  induction frames as [|[result now] rest IH]; intros w g j tj cj d Hj Hd;
    [discriminate|].
  cbn [run_frames] in Hj. destruct j as [|j].
  - injection Hj as <- <-.
    pose proof (frame_clock d result now w g) as H. cbv zeta in H.
    assert (E : existsb (same_kind d) (fr_commands (processHandLandmarks result now w g))
                = true).
    { apply existsb_exists. exists d. split; [exact Hd | apply same_kind_refl]. }
    rewrite E in H. destruct H as [H _]. lra.
  - specialize (IH _ _ _ _ _ _ Hj Hd).
    pose proof (frame_clock_grows d result now w g). lra.
Qed.

(** X21 ([plan.md], [processHandLandmarks] and [handleClapDetection]): the
    cool-downs hold over any sequence of frames, whatever the detector
    reports and whatever the clock reads: two spins of the active wheel are
    more than 400 ms apart, two changes of the active wheel are more than
    400 ms apart, and two claps are more than 2000 ms apart. *)
Theorem commands_are_spaced (frames : list (option HandLandmarkerResult * Q))
    (w : Wheels) (g : Gestures) (i j : nat) (ti tj : Q) (ci cj : list Command)
    (c d : Command) :
  (i < j)%nat ->
  run_frames frames w g !! i = Some (ti, ci) ->
  run_frames frames w g !! j = Some (tj, cj) ->
  In c ci -> In d cj -> same_kind c d = true ->
  cooldown_of c < tj - ti.
Proof.
  revert w g i j. induction frames as [|[result now] rest IH];
    intros w g i j Hij Hi Hj Hc Hd Hk; [discriminate|].
  cbn [run_frames] in Hi, Hj.
  destruct j as [|j]; [lia|]. cbn in Hj.
  destruct i as [|i].
  - injection Hi as <- <-.
    pose proof (frame_clock c result now w g) as H. cbv zeta in H.
    assert (E : existsb (same_kind c) (fr_commands (processHandLandmarks result now w g))
                = true).
    { apply existsb_exists. exists c. split; [exact Hc | apply same_kind_refl]. }
    rewrite E in H. destruct H as [_ Hnow].
    pose proof (later_command_after_clock _ _ _ _ _ _ _ Hj Hd) as Hlater.
    destruct (same_kind_clock c d
                (gestureState (fr_gestures (processHandLandmarks result now w g))) Hk)
      as [Eclock Ecd].
    rewrite <- Eclock, <- Ecd, Hnow in Hlater. lra.
  - cbn in Hi. eapply (IH _ _ i j); [lia | exact Hi | exact Hj | | |]; assumption.
Qed.

Lemma commands_are_spaced_witness :
  List.map snd (run_frames two_claps initial_wheels initial_gestures)
  = [[]; [PrevDial; Clap]; []; [PrevDial; Clap]]
  /\ CLAP_COOLDOWN_MS < 6100 - 3100.
Proof.
  split; [vm_compute; reflexivity|].
  apply (commands_are_spaced two_claps initial_wheels initial_gestures 1 3
           3100 6100 [PrevDial; Clap] [PrevDial; Clap] Clap Clap).
  - lia.
  - vm_compute. reflexivity.
  - vm_compute. reflexivity.
  - right. now left.
  - right. now left.
  - reflexivity.
Defined.

(** *** The histories and the loop *)

Lemma spin_loop_view now obs f f' handled :
  spin_loop now obs f = (f', handled) ->
  loop_of (fr_gestures f') = loop_of (fr_gestures f)
  /\ histories_of (fr_gestures f') = histories_of (fr_gestures f).
Proof.
  intros H. destruct (spin_loop_spec _ _ _ _ _ H)
    as [[_ ->]|(_ & c & message & _ & ->)]; split; reflexivity.
Qed.

Lemma switch_loop_view now obs f f' handled :
  switch_loop now obs f = (f', handled) ->
  loop_of (fr_gestures f') = loop_of (fr_gestures f)
  /\ histories_of (fr_gestures f') = histories_of (fr_gestures f).
Proof.
  intros H. destruct (switch_loop_spec _ _ _ _ _ H)
    as [[_ ->]|(_ & c & message & _ & ->)]; split; reflexivity.
Qed.

Lemma clap_view centers now g :
  loop_of (fst (handleClapDetection centers now g)) = loop_of g
  /\ histories_of (fst (handleClapDetection centers now g)) = histories_of g.
Proof.
  unfold handleClapDetection.
  destruct (List.find _ centers); [|split; reflexivity].
  destruct (List.find _ centers); [|split; reflexivity].
  destruct (lastTwoHandDistance g) as [[d t]|]; [|split; reflexivity].
  destruct (_ && _ && _ && _); split; reflexivity.
Qed.

Lemma idle_status_view message now g :
  loop_of (idle_status message now g) = loop_of g
  /\ histories_of (idle_status message now g) = histories_of g.
Proof. unfold idle_status. destruct (Qltb _ _); split; reflexivity. Qed.

Lemma scan_hand_loop r now acc index lms :
  loop_of (scan_gestures (scan_hand r now acc index lms))
  = loop_of (scan_gestures acc).
Proof.
  unfold scan_hand. destruct (label_of r index) as [l|]; [|reflexivity].
  destruct (negb (isPalmOpen lms)); destruct l; reflexivity.
Qed.

Lemma scan_hands_loop r now hands : forall acc index,
  loop_of (scan_gestures (scan_hands r now acc index hands))
  = loop_of (scan_gestures acc).
Proof.
  induction hands as [|lms rest IH]; intros acc index; [reflexivity|].
  cbn [scan_hands]. rewrite IH. apply scan_hand_loop.
Qed.

Lemma clear_unseen_loop seen g : loop_of (clear_unseen seen g) = loop_of g.
Proof.
  unfold clear_unseen. cbn [fold_left].
  destruct (existsb (HandLabel_eqb Left) seen);
    destruct (existsb (HandLabel_eqb Right) seen); reflexivity.
Qed.

(** The histories after a frame are those that the scan of the hands
    leaves; the variables of the loop are not written. *)
Lemma frame_view result now w g :
  let f := processHandLandmarks result now w g in
  loop_of (fr_gestures f) = loop_of g
  /\ histories_of (fr_gestures f)
     = histories_of
         (if gesturesLocked g then g
          else match hands_of result with
               | [] => clearHandHistory Right (clearHandHistory Left g)
               | hands =>
                   match result with
                   | Some r =>
                       let sc :=
                         scan_hands r now
                           {| scan_gestures := g; seenLabels := [];
                              observations := []; closedPalmDetected := false |}
                           O hands in
                       clear_unseen (seenLabels sc) (scan_gestures sc)
                   | None => g
                   end
               end).
Proof.
  cbv zeta. unfold processHandLandmarks, hands_of.
  destruct (gesturesLocked g); [split; reflexivity|].
  assert (Hnone : forall message,
            loop_of (idle_status message now
                       (set_lastTwoHandDistance None
                          (clearHandHistory Right (clearHandHistory Left g))))
            = loop_of g
            /\ histories_of (idle_status message now
                               (set_lastTwoHandDistance None
                                  (clearHandHistory Right (clearHandHistory Left g))))
               = histories_of (clearHandHistory Right (clearHandHistory Left g))).
  { intros message. destruct (idle_status_view message now
      (set_lastTwoHandDistance None (clearHandHistory Right (clearHandHistory Left g))))
      as [-> ->]. split; reflexivity. }
  destruct result as [r|]; [|apply Hnone].
  destruct (landmarks r) as [[|lms hands]|]; try apply Hnone.
  cbv zeta.
  set (sc := scan_hands r now _ O (lms :: hands)).
  set (g1 := clear_unseen (seenLabels sc) (scan_gestures sc)).
  assert (Hg1 : loop_of g1 = loop_of g).
  { unfold g1, sc. rewrite clear_unseen_loop, scan_hands_loop. reflexivity. }
  destruct (observations sc) as [|o obs].
  { cbn [fr_gestures].
    destruct (idle_status_view
                (if closedPalmDetected sc then "Palms closed – move freely."
                 else "Hands not detected.") now (set_lastTwoHandDistance None g1))
      as [-> ->]. split; [exact Hg1 | reflexivity]. }
  set (f0 := {| fr_wheels := w; fr_gestures := g1; fr_commands := [] |}).
  assert (H1 : forall p : Frame * bool,
            p = (if Qltb WHEEL_ADJUST_COOLDOWN_MS
                      (now - lastWheelAdjustTime (gestureState g1))
                 then spin_loop now (o :: obs) f0 else (f0, false)) ->
            loop_of (fr_gestures (fst p)) = loop_of g1
            /\ histories_of (fr_gestures (fst p)) = histories_of g1).
  { intros [f1 h1] E. destruct (Qltb _ _).
    - symmetry in E. apply spin_loop_view in E. exact E.
    - injection E as -> _. split; reflexivity. }
  destruct (if Qltb WHEEL_ADJUST_COOLDOWN_MS _ then _ else _) as [f1 handled1] eqn:E1.
  destruct (H1 _ eq_refl) as [L1 T1]. cbn [fst] in L1, T1.
  assert (H2 : forall p : Frame * bool,
            p = (if negb handled1
                    && Qltb WHEEL_SWITCH_COOLDOWN_MS
                         (now - lastWheelSwitchTime (gestureState (fr_gestures f1)))
                 then switch_loop now (o :: obs) f1 else (f1, handled1)) ->
            loop_of (fr_gestures (fst p)) = loop_of (fr_gestures f1)
            /\ histories_of (fr_gestures (fst p)) = histories_of (fr_gestures f1)).
  { intros [f2 h2] E. destruct (_ && _).
    - symmetry in E. apply switch_loop_view in E. exact E.
    - injection E as -> _. split; reflexivity. }
  destruct (if negb handled1 && _ then _ else _) as [f2 handled2] eqn:E2.
  destruct (H2 _ eq_refl) as [L2 T2]. cbn [fst] in L2, T2.
  destruct (clap_view (o :: obs) now (fr_gestures f2)) as [L3 T3].
  destruct (handleClapDetection (o :: obs) now (fr_gestures f2)) as [g3 fired].
  cbn [fst] in L3, T3.
  destruct (negb (handled2 || fired)); cbn [fr_gestures].
  - destruct (idle_status_view "Hands ready." now g3) as [-> ->].
    split; congruence.
  - split; congruence.
Qed.

Lemma histories_of_eq a b l :
  histories_of a = histories_of b -> handHistories a l = handHistories b l.
Proof. unfold histories_of. intros [= HL HR]. destruct l; assumption. Qed.

Lemma scan_hand_seen r now acc index lms l :
  label_of r index <> Some l ->
  existsb (HandLabel_eqb l) (seenLabels (scan_hand r now acc index lms))
  = existsb (HandLabel_eqb l) (seenLabels acc).
Proof.
  intros Hl. unfold scan_hand. destruct (label_of r index) as [l'|]; [|reflexivity].
  assert (E : existsb (HandLabel_eqb l) (seenLabels acc ++ [l'])
              = existsb (HandLabel_eqb l) (seenLabels acc)).
  { rewrite existsb_app. cbn.
    destruct l, l'; cbn; try congruence; now rewrite ?orb_false_r. }
  destruct (negb (isPalmOpen lms)); exact E.
Qed.

Lemma scan_hands_seen r now l hands : forall acc index,
  (forall i lms, hands !! i = Some lms -> label_of r (index + i) <> Some l) ->
  existsb (HandLabel_eqb l) (seenLabels (scan_hands r now acc index hands))
  = existsb (HandLabel_eqb l) (seenLabels acc).
Proof.
  induction hands as [|lms rest IH]; intros acc index H; [reflexivity|].
  cbn [scan_hands]. rewrite IH.
  - apply scan_hand_seen. specialize (H 0%nat lms eq_refl).
    now rewrite Nat.add_0_r in H.
  - intros i lms' Hi. specialize (H (S i) lms' Hi).
    now replace (S index + i)%nat with (index + S i)%nat by lia.
Qed.

Lemma clear_unseen_history seen g l :
  existsb (HandLabel_eqb l) seen = false ->
  handHistories (clear_unseen seen g) l = [].
Proof.
  unfold clear_unseen. cbn [fold_left]. intros H.
  destruct l; rewrite H;
    [destruct (existsb (HandLabel_eqb Right) seen)
    |destruct (existsb (HandLabel_eqb Left) seen)]; reflexivity.
Qed.

(** X22 ([plan.md], [processHandLandmarks]): a hand that a frame does not
    show loses its history: after every frame processed while the gestures
    are unlocked, the history of a label that no hand of the detection
    carries is empty (both histories, when the detection shows no hand at
    all).  A swipe is therefore never put together from samples taken
    before and after the hand was out of view. *)
Theorem unseen_hand_has_no_history (result : option HandLandmarkerResult)
    (now : Q) (w : Wheels) (g : Gestures) (l : HandLabel) :
  gesturesLocked g = false ->
  (forall i lms, hands_of result !! i = Some lms -> hand_label result i <> Some l) ->
  handHistories (fr_gestures (processHandLandmarks result now w g)) l = [].
Proof.
  intros Hlock Hunseen.
  destruct (frame_view result now w g) as [_ Hh]. cbv zeta in Hh.
  rewrite Hlock in Hh. apply histories_of_eq with (l := l) in Hh. rewrite Hh.
  destruct (hands_of result) as [|lms hands] eqn:Eh.
  - destruct l; reflexivity.
  - destruct result as [r|]; [|discriminate].
    apply clear_unseen_history. rewrite scan_hands_seen; [reflexivity|].
    intros i lms' Hi. apply (Hunseen i lms' Hi).
Qed.

Lemma unseen_hand_has_no_history_witness :
  handHistories (fr_gestures drop_frame_2) Left <> []
  /\ handHistories
       (fr_gestures
          (processHandLandmarks
             (Some {| landmarks := Some [open_hand_at (55#100) (50#100)];
                      handednesses := Some [[category "Right"]] |})
             3200 (fr_wheels drop_frame_2) (fr_gestures drop_frame_2))) Left = [].
Proof.
  split; [vm_compute; discriminate|].
  apply unseen_hand_has_no_history.
  - vm_compute. reflexivity.
  - intros [|i] lms Hi; [vm_compute; discriminate | discriminate].
Defined.

(** X23 ([plan.md], [runGestureLoop]): a video frame is classified at most
    once.  After a call of the loop on a video that has data, a further
    call that finds the same [currentTime] changes nothing, whatever the
    detector would report: it issues no command and leaves the wheels and
    the recognizer as they are (the next animation frame is requested
    again).  Without a video element or a detector the loop stops. *)
Theorem video_frame_is_processed_once (v : Video)
    (detect detect' : Q -> option HandLandmarkerResult) (now now' : Q)
    (w : Wheels) (g : Gestures) :
  (HAVE_CURRENT_DATA <= readyState v)%Z ->
  let f := runGestureLoop (Some v) detect now w g in
  runGestureLoop (Some v) detect' now' (fr_wheels f) (fr_gestures f)
  = {| fr_wheels := fr_wheels f; fr_gestures := fr_gestures f; fr_commands := [] |}
  /\ gestureLoopId (fr_gestures f) = true
  /\ runGestureLoop None detect now w g
     = {| fr_wheels := w;
          fr_gestures := set_loop false (lastGestureVideoTimeMs g) g;
          fr_commands := [] |}.
Proof.
  intros Hready. cbv zeta.
  assert (Hr : (readyState v <? HAVE_CURRENT_DATA)%Z = false) by (apply Z.ltb_ge; lia).
  split; [|split; [|reflexivity]].
  - unfold runGestureLoop. rewrite Hr.
    destruct (Qeq_bool (currentTime v * 1000) (lastGestureVideoTimeMs g)) eqn:E.
    + cbn [fr_wheels fr_gestures set_loop lastGestureVideoTimeMs]. rewrite E.
      reflexivity.
    + set (g1 := set_loop (gestureLoopId g) (currentTime v * 1000) g).
      destruct (frame_view (detect (currentTime v * 1000)) now w g1) as [Hl _].
      cbv zeta in Hl. unfold loop_of in Hl. injection Hl as _ Hl _.
      cbn [fr_wheels fr_gestures set_loop lastGestureVideoTimeMs] in *.
      rewrite Hl. unfold g1 at 1. cbn [set_loop lastGestureVideoTimeMs].
      rewrite Qeq_bool_refl. reflexivity.
  - unfold runGestureLoop. rewrite Hr.
    destruct (Qeq_bool _ _); reflexivity.
Qed.

Lemma video_frame_is_processed_once_witness :
  let v := {| readyState := 4; currentTime := 31 # 10 |} in
  let detect := fun _ : Q => Some (two_open_hands (50#100) (50#100) (55#100) (50#100)) in
  let f := runGestureLoop (Some v) detect 3100 (fr_wheels drop_frame_1)
             (fr_gestures drop_frame_1) in
  fr_commands f = [SpinDown; Clap]
  /\ fr_commands (runGestureLoop (Some v) detect 3120 (fr_wheels f) (fr_gestures f))
     = [].
Proof.
  cbv zeta. split; [vm_compute; reflexivity|].
  destruct (video_frame_is_processed_once
              {| readyState := 4; currentTime := 31 # 10 |}
              (fun _ : Q => Some (two_open_hands (50#100) (50#100) (55#100) (50#100)))
              (fun _ : Q => Some (two_open_hands (50#100) (50#100) (55#100) (50#100)))
              3100 3120 (fr_wheels drop_frame_1) (fr_gestures drop_frame_1))
    as [E _].
  - vm_compute. discriminate.
  - cbv zeta in E. rewrite E. reflexivity.
Defined.

End GestureLoopFacts.

(** ** The automatic loop does not stall *)

Module AutoLoopFacts.
Import Js Decision Pipeline AutoLoop.

Local Open Scope list_scope.

Lemma schedule_fields d v :
  autoTranscriptionEnabled (scheduleAutoTranscription d v) = autoTranscriptionEnabled v
  /\ autoAwaitingBackgroundImage (scheduleAutoTranscription d v)
     = autoAwaitingBackgroundImage v
  /\ (if autoTranscriptionEnabled v
      then autoTranscriptionTimer (scheduleAutoTranscription d v) = Some (Z.max 0 d)
      else scheduleAutoTranscription d v = v).
Proof.
  unfold scheduleAutoTranscription.
  destruct (autoTranscriptionEnabled v) eqn:E; cbn [negb].
  - cbn. rewrite E. repeat split.
  - rewrite E. repeat split.
Qed.

Lemma capture_abort_fields v :
  autoTranscriptionEnabled (capture_abort v) = autoTranscriptionEnabled v
  /\ autoAwaitingBackgroundImage (capture_abort v) = autoAwaitingBackgroundImage v
  /\ (if autoTranscriptionEnabled v
      then autoTranscriptionTimer (capture_abort v) <> None
      else autoTranscriptionTimer (capture_abort v) = autoTranscriptionTimer v).
Proof.
  unfold capture_abort, scheduleAutoTranscription.
  cbn [set_isTranscriptionInProgress autoTranscriptionEnabled].
  destruct (autoTranscriptionEnabled v) eqn:E; cbn; rewrite ?E; repeat split.
  discriminate.
Qed.

Lemma capture_finally_fields v :
  autoTranscriptionEnabled (capture_finally v) = autoTranscriptionEnabled v
  /\ autoAwaitingBackgroundImage (capture_finally v) = autoAwaitingBackgroundImage v
  /\ (if autoTranscriptionEnabled v
      then autoAwaitingBackgroundImage v = false ->
           autoTranscriptionTimer (capture_finally v) <> None
      else autoTranscriptionTimer (capture_finally v) = autoTranscriptionTimer v).
Proof.
  unfold capture_finally, scheduleAutoTranscription.
  cbn [set_isTranscriptionInProgress autoTranscriptionEnabled
       autoAwaitingBackgroundImage].
  destruct (autoTranscriptionEnabled v) eqn:E;
    destruct (autoAwaitingBackgroundImage v) eqn:A; cbn; rewrite ?E, ?A;
    repeat split; try discriminate.
Qed.

Lemma handle_decided_fields d v :
  let r := handleVirtualBackgroundPrompt_decided d v in
  autoTranscriptionEnabled (fst r) = autoTranscriptionEnabled v
  /\ autoTranscriptionTimer (fst r) = autoTranscriptionTimer v
  /\ (autoAwaitingBackgroundImage (fst r) = true ->
      snd r <> None \/ autoAwaitingBackgroundImage v = true).
Proof.
  cbv zeta. unfold handleVirtualBackgroundPrompt_decided.
  destruct d as [[prompt raw|reason raw]|].
  2,3: cbn [fst snd]; repeat split; auto.
  unfold requestBackgroundImage.
  destruct (is_empty (trim prompt)).
  { cbn. repeat split; auto. }
  cbn [set_lastBackgroundPrompt isBackgroundImageInProgress autoTranscriptionEnabled].
  destruct (isBackgroundImageInProgress v).
  { cbn. repeat split; auto. }
  destruct (autoTranscriptionEnabled v) eqn:E; cbn; rewrite ?E; repeat split; auto;
    intros _; left; discriminate.
Qed.

(** The ways in which a resumption of a capture ends. *)
Lemma capture_resume_shape a s v v' next render :
  capture_resume a s v = Some (v', next, render) ->
  (v' = capture_abort v /\ next = None /\ render = None)
  \/ (v' = v /\ next <> None /\ render = None)
  \/ (exists d,
        v' = capture_finally (fst (handleVirtualBackgroundPrompt_decided d v))
        /\ next = None
        /\ render = snd (handleVirtualBackgroundPrompt_decided d v)).
Proof.
  assert (Hfin : forall x : Vars * option CaptureAwait * option string,
            x = (capture_finally v, None, None) ->
            exists d,
              fst (fst x) = capture_finally (fst (handleVirtualBackgroundPrompt_decided d v))
              /\ snd (fst x) = None
              /\ snd x = snd (handleVirtualBackgroundPrompt_decided d v)).
  { intros x ->. exists None. repeat split. }
  unfold capture_resume. destruct a, s; try discriminate.
  - destruct captureReady.
    + destruct (negb (transcribeBtnEl v)); intros [= <- <- <-].
      * left. auto.
      * right. left. repeat split. discriminate.
    + intros [= <- <- <-]. left. auto.
  - intros [= <- <- <-]. right. left. repeat split. discriminate.
  - intros [= <- <- <-]. right. right. exact (Hfin _ eq_refl).
  - intros [= <- <- <-]. right. left. repeat split. discriminate.
  - intros [= <- <- <-]. right. right. exact (Hfin _ eq_refl).
  - destruct response_ok.
    + destruct (is_empty transcript);
        [intros [= <- <- <-]; right; right; exact (Hfin _ eq_refl)|].
      destruct (is_empty (trim transcript)); intros [= <- <- <-].
      * right. right. exact (Hfin _ eq_refl).
      * right. left. repeat split. discriminate.
    + intros [= <- <- <-]. right. right. exact (Hfin _ eq_refl).
  - intros [= <- <- <-]. right. right. exact (Hfin _ eq_refl).
  - destruct (handleVirtualBackgroundPrompt_decided (Some decision) v)
      as [v1 r] eqn:E.
    intros [= <- <- <-]. right. right. exists (Some decision). rewrite E. auto.
  - destruct (handleVirtualBackgroundPrompt_decided None v) as [v1 r] eqn:E.
    intros [= <- <- <-]. right. right. exists None. rewrite E. auto.
Qed.

Lemma snoc_not_nil {A} (l : list A) x : l ++ [x] <> [].
Proof. destruct l; discriminate. Qed.

Lemma launch_alive sys :
  loop_alive sys ->
  (autoTranscriptionEnabled (vars sys) = true \/ autoTranscriptionTimer (vars sys) = None) ->
  loop_alive (launch sys (triggerTranscriptionCapture (vars sys))).
Proof.
  intros (HA & HB & HC) Hor. unfold loop_alive, launch, triggerTranscriptionCapture.
  destruct (isTranscriptionInProgress (vars sys)); cbn [fst snd vars captures renders].
  - destruct (autoTranscriptionEnabled (vars sys)) eqn:E.
    + destruct (schedule_fields AUTO_TRANSCRIPTION_RETRY_DELAY_MS (vars sys))
        as (He & Ha & Ht). rewrite E in Ht. rewrite He, Ha, Ht, E.
      split; [discriminate|]. split; [exact HB|]. intros _. left. discriminate.
    + rewrite E. split; [exact HA|]. split; [exact HB | discriminate].
  - cbn [set_isTranscriptionInProgress set_autoAwaitingBackgroundImage
         autoTranscriptionEnabled autoTranscriptionTimer autoAwaitingBackgroundImage].
    split; [exact HA|]. split; [discriminate|].
    intros _. right. left. apply snoc_not_nil.
Qed.

Lemma step_alive e sys sys' :
  loop_alive sys -> step e sys = Some sys' -> loop_alive sys'.
Proof.
  intros Halive. pose proof Halive as (HA & HB & HC). destruct e; cbn [step].
  - (* a click *)
    intros [= <-]. apply launch_alive; [exact Halive|].
    destruct (autoTranscriptionEnabled (vars sys)) eqn:E; [now left | right; auto].
  - (* the timer *)
    destruct (autoTranscriptionTimer (vars sys)) as [d|] eqn:Et; [|discriminate].
    assert (Hen : autoTranscriptionEnabled (vars sys) = true).
    { destruct (autoTranscriptionEnabled (vars sys)) eqn:E; [reflexivity|].
      specialize (HA eq_refl). congruence. }
    cbn [set_autoTranscriptionTimer autoTranscriptionEnabled]. rewrite Hen.
    cbn [negb]. intros [= <-].
    unfold loop_alive, launch, triggerTranscriptionCapture.
    cbn [vars captures renders set_autoTranscriptionTimer isTranscriptionInProgress
         autoTranscriptionEnabled].
    destruct (isTranscriptionInProgress (vars sys)); cbn [fst snd]; rewrite ?Hen.
    + unfold scheduleAutoTranscription. cbn. rewrite Hen. cbn. rewrite ?Hen.
      split; [discriminate|]. split; [exact HB|]. intros _. left. discriminate.
    + cbn. rewrite ?Hen. split; [discriminate|]. split; [discriminate|].
      intros _. right. left. apply snoc_not_nil.
  - (* an await of a capture settles *)
    destruct (nth_error (captures sys) i) as [a|] eqn:Ea; [|discriminate].
    destruct (capture_resume a s (vars sys)) as [[[v next] render]|] eqn:Er;
      [|discriminate].
    intros [= <-]. unfold loop_alive. cbn [vars captures renders].
    destruct (capture_resume_shape _ _ _ _ _ _ Er)
      as [(-> & -> & ->)|[(-> & Hnext & ->)|(d & -> & -> & ->)]].
    + destruct (capture_abort_fields (vars sys)) as (He & Ha & Ht).
      rewrite He, Ha.
      destruct (autoTranscriptionEnabled (vars sys)) eqn:E.
      * split; [discriminate|]. split; [exact HB|]. intros _. now left.
      * split; [intros _; rewrite Ht; auto|]. split; [exact HB | discriminate].
    + split; [exact HA|]. split; [exact HB|]. intros _. right. left.
      destruct next as [a'|]; [|congruence].
      destruct (firstn i (captures sys)); discriminate.
    + destruct (handle_decided_fields d (vars sys)) as (He & Ht & Haw).
      cbv zeta in He, Ht, Haw.
      destruct (handleVirtualBackgroundPrompt_decided d (vars sys)) as [v1 render].
      cbn [fst snd] in *.
      destruct (capture_finally_fields v1) as (He' & Ha' & Ht').
      rewrite He', Ha', He. rewrite He in Ht'.
      assert (HB' : autoAwaitingBackgroundImage v1 = true ->
                    match render with
                    | Some p => renders sys ++ [p]
                    | None => renders sys
                    end <> []).
      { intros Hw. destruct render as [p|]; [apply snoc_not_nil|].
        destruct (Haw Hw) as [?|Hold]; [congruence | auto]. }
      destruct (autoTranscriptionEnabled (vars sys)) eqn:E.
      * split; [discriminate|]. split; [exact HB'|]. intros _.
        destruct (autoAwaitingBackgroundImage v1) eqn:Ew.
        -- right. right. auto.
        -- left. auto.
      * split; [intros _; rewrite Ht', Ht; auto|]. split; [exact HB' | discriminate].
  - (* a render settles *)
    destruct (nth_error (renders sys) i); [|discriminate].
    intros [= <-]. clear Halive HC.
    destruct sys as [[en timer aw tip bip lbp src btn] cs rs].
    unfold loop_alive, requestBackgroundImage_settled, scheduleAutoTranscription.
    cbn [vars captures renders] in *.
    destruct r as [[u|]|]; [destruct (is_empty u)| |]; destruct en; cbn in *;
      repeat split; intros; try congruence; auto; left; discriminate.
  - (* the loop is started *)
    intros [= <-]. clear Halive HC.
    destruct sys as [[en timer aw tip bip lbp src btn] cs rs].
    unfold loop_alive, startAutoTranscriptionLoop, scheduleAutoTranscription.
    cbn [vars captures renders] in *.
    destruct en; cbn in *; repeat split; intros; try congruence; auto;
      left; discriminate.
  - (* the loop is stopped *)
    intros [= <-]. clear Halive.
    destruct sys as [[en timer aw tip bip lbp src btn] cs rs].
    unfold loop_alive, stopAutoTranscriptionLoop.
    cbn [vars captures renders] in *.
    destruct en; cbn in *; repeat split; intros; try congruence; auto.
Qed.

(** X24 ([plan.md], [scheduleAutoTranscription], [startAutoTranscriptionLoop],
    [stopAutoTranscriptionLoop], [triggerTranscriptionCapture],
    [requestBackgroundImage]): the automatic loop cannot stall.  In every
    state that the page reaches, while the loop is enabled either its timer
    is pending, or a capture is in flight, or a render is in flight, and
    each of them arms the timer when it ends; the flag that defers
    rescheduling is set only while a render is in flight.  While the loop is
    disabled no timer is pending, so a stopped loop starts no cycle. *)
Theorem auto_loop_never_stalls :
  loop_alive initial_system
  /\ (forall evs sys0 sys,
        loop_alive sys0 -> run evs sys0 = Some sys -> loop_alive sys)
  /\ (forall sys,
        loop_alive sys -> autoTranscriptionEnabled (vars sys) = false ->
        step Timer_fires sys = None).
Proof.
  split; [|split].
  - unfold loop_alive. cbn. repeat split; try discriminate.
  - induction evs as [|e evs IH]; intros sys0 sys H0; cbn [run].
    + now intros [= <-].
    + destruct (step e sys0) as [sys1|] eqn:E; [|discriminate].
      apply IH. exact (step_alive _ _ _ H0 E).
  - intros sys (HA & _) Hoff. cbn [step]. now rewrite (HA Hoff).
Qed.

Lemma auto_loop_never_stalls_witness :
  loop_alive (run_from_initial trace_loop)
  /\ autoTranscriptionEnabled (vars (run_from_initial trace_loop)) = false
  /\ step Timer_fires (run_from_initial trace_loop) = None
  /\ loop_alive (run_from_initial trace_render_busy).
Proof.
  destruct auto_loop_never_stalls as (H0 & Hrun & Hstop).
  assert (H1 : loop_alive (run_from_initial trace_loop)).
  { apply (Hrun trace_loop initial_system); [exact H0|]. vm_compute. reflexivity. }
  split; [exact H1|]. split; [vm_compute; reflexivity|]. split.
  - apply Hstop; [exact H1|]. vm_compute. reflexivity.
  - apply (Hrun trace_render_busy initial_system); [exact H0|]. vm_compute. reflexivity.
Defined.

End AutoLoopFacts.

(** ** Starting a session *)

Module SubmitFacts.
Import Js Session Submit SessionFacts.

Local Open Scope list_scope.

Lemma setGesturesLocked_true now c :
  gesturesLocked (setGesturesLocked true now c) = true.
Proof.
  unfold setGesturesLocked, gesturesLocked.
  destruct (Gesture.gesturesLocked (gestures c)) eqn:L; cbn [Bool.eqb].
  - cbn. exact L.
  - unfold stopGestureRecognition. cbn. reflexivity.
Qed.

Lemma setGesturesLocked_rest b now c :
  pipeline (setGesturesLocked b now c) = pipeline c
  /\ ui (setGesturesLocked b now c) = ui c.
Proof.
  unfold setGesturesLocked.
  destruct (Bool.eqb _ _); [destruct b; split; reflexivity|].
  destruct b; [split; reflexivity|].
  destruct (Gesture.gesturesLocked _); [|split; reflexivity].
  destruct (permissionsGranted _); [|split; reflexivity].
  unfold startGestureRecognition. cbn.
  destruct (Gesture.gestureLoopId _); [split; reflexivity|].
  destruct (negb (videoEl _)); [split; reflexivity|].
  destruct (negb (handLandmarker _)); split; reflexivity.
Qed.

Lemma startAutoTranscriptionLoop_fields d v :
  Pipeline.autoTranscriptionEnabled (Pipeline.startAutoTranscriptionLoop d v) = true
  /\ Pipeline.autoTranscriptionTimer (Pipeline.startAutoTranscriptionLoop d v)
     = Some (Z.max 0 d).
Proof.
  destruct v as [en timer aw tip bip lbp src btn].
  unfold Pipeline.startAutoTranscriptionLoop, Pipeline.scheduleAutoTranscription.
  destruct en; cbn; split; reflexivity.
Qed.

Lemma stopGestureRecognition_rest now c :
  wheels (stopGestureRecognition now c) = wheels c
  /\ pipeline (stopGestureRecognition now c) = pipeline c
  /\ ui (stopGestureRecognition now c) = ui c
  /\ gesturesLocked (stopGestureRecognition now c) = gesturesLocked c.
Proof. repeat split. Qed.

Lemma startGestureRecognition_rest now c :
  wheels (startGestureRecognition now c) = wheels c
  /\ pipeline (startGestureRecognition now c) = pipeline c
  /\ ui (startGestureRecognition now c) = ui c
  /\ gesturesLocked (startGestureRecognition now c) = gesturesLocked c.
Proof.
  unfold startGestureRecognition.
  destruct (Gesture.gestureLoopId _); [repeat split|].
  destruct (Gesture.gesturesLocked _); [repeat split|].
  destruct (negb (videoEl _)); [repeat split|].
  destruct (negb (handLandmarker _)); repeat split.
Qed.

(** [ensureCapture] writes the recognizer only, and not its lock. *)
Lemma ensureCapture_rest capture now c :
  wheels (fst (ensureCapture capture now c)) = wheels c
  /\ pipeline (fst (ensureCapture capture now c)) = pipeline c
  /\ ui (fst (ensureCapture capture now c)) = ui c
  /\ gesturesLocked (fst (ensureCapture capture now c)) = gesturesLocked c.
Proof.
  destruct capture as [|[]]; cbn [ensureCapture startCameraAndMic fst];
    try (repeat split; fail).
  unfold stopCameraAndMic.
  destruct (Gesture.gesturesLocked (gestures (stopGestureRecognition now c)));
    [repeat split|].
  destruct (startGestureRecognition_rest now (stopGestureRecognition now c))
    as (Hw & Hp & Hu & Hl).
  rewrite Hw, Hp, Hu, Hl. repeat split.
Qed.

Lemma ensureCapture_result capture now c :
  snd (ensureCapture capture now c)
  = match capture with
    | StreamHeld | StreamAbsent Started => true
    | StreamAbsent Unsupported | StreamAbsent StartFailed => false
    end.
Proof. destruct capture as [|[]]; reflexivity. Qed.

(** The page while the registration is pending: both locks are set, the
    Start button is disabled, and the loop has not been started. *)
Lemma start_in_flight_spec capture now c c2 :
  start_in_flight capture now c = Some c2 ->
  controlsPresent (ui c) = true /\ permissionsGranted (ui c) = true
  /\ snd (ensureCapture capture now c) = true
  /\ (3 <= String.length (getScreenNameFromWheels (wheels c)))%nat
  /\ dialsLocked c2 = true /\ gesturesLocked c2 = true
  /\ startBtn_disabled (ui c2) = true /\ stopBtn_disabled (ui c2) = false
  /\ controlsPresent (ui c2) = true /\ permissionsGranted (ui c2) = true
  /\ pipeline c2 = pipeline c
  /\ Dial.wheelPositions (wheels c2) = Dial.wheelPositions (wheels c).
Proof.
  unfold start_in_flight, registerAgent.
  destruct (controlsPresent (ui c)) eqn:P; [|discriminate]. cbn [negb].
  destruct (permissionsGranted (ui c)) eqn:G; [|discriminate]. cbn [negb].
  unfold registerAgent_captured.
  destruct (ensureCapture_rest capture now c) as (Hw0 & Hp0 & Hu0 & _).
  destruct (ensureCapture capture now c) as [c0 captureReady]. cbn [fst snd] in *.
  destruct captureReady; [|discriminate]. cbn [negb]. rewrite Hw0.
  destruct (is_empty (getScreenNameFromWheels (wheels c))); [discriminate|].
  destruct (String.length (getScreenNameFromWheels (wheels c)) <? 3)%nat eqn:L;
    [discriminate|].
  apply Nat.ltb_ge in L.
  intros [= <-].
  set (c1 := setWheelsLocked true _).
  destruct (setGesturesLocked_rest true now c1) as [Hp Hu].
  repeat split; try assumption.
  - unfold dialsLocked. now rewrite setGesturesLocked_wheels.
  - apply setGesturesLocked_true.
  - now rewrite Hu.
  - now rewrite Hu.
  - rewrite Hu. cbn. rewrite Hu0. exact P.
  - rewrite Hu. cbn. rewrite Hu0. exact G.
  - rewrite Hp. cbn. exact Hp0.
  - rewrite setGesturesLocked_wheels. cbn. now rewrite Hw0.
Qed.

(** X25 ([plan.md], [registerAgent], [ensureCapture], [startCameraAndMic]):
    a start locks the controls for exactly as long as the registration
    stands.  When the controls exist, the permissions are granted, the
    capture is ready and the wheels spell at least three characters, both
    locks are set before the native call; if the call resolves they stay
    set and the automatic loop is started with a first delay of 500 ms; if
    it rejects both locks are released, the Start button is enabled again
    and the loop is left as it was.  A start that fails one of the checks
    touches neither the wheels, nor the loop, nor the buttons, nor the lock
    of the recognizer.  It leaves the recognizer as it is when it returns
    before [ensureCapture()], when the camera is on, and when there is no
    [getUserMedia]; when the camera had to be started and the streams were
    refused, it leaves the recognizer stopped. *)
Theorem start_locks_while_registered (capture : Capture) (r : InvokeResult)
    (now : Q) (c : Companion) :
  (forall c2, start_in_flight capture now c = Some c2 ->
     dialsLocked c2 = true /\ gesturesLocked c2 = true
     /\ match r with
        | Resolved _ =>
            dialsLocked (start_session capture r now c) = true
            /\ gesturesLocked (start_session capture r now c) = true
            /\ Pipeline.autoTranscriptionEnabled
                 (pipeline (start_session capture r now c)) = true
            /\ Pipeline.autoTranscriptionTimer
                 (pipeline (start_session capture r now c)) = Some 500%Z
        | Rejected _ =>
            dialsLocked (start_session capture r now c) = false
            /\ gesturesLocked (start_session capture r now c) = false
            /\ pipeline (start_session capture r now c) = pipeline c
            /\ startBtn_disabled (ui (start_session capture r now c)) = false
        end)
  /\ (start_in_flight capture now c = None ->
      same_but_recognizer c (start_session capture r now c)
      /\ (reaches_capture c = false \/ capture = StreamHeld
          \/ capture = StreamAbsent Unsupported ->
          same_but_status c (start_session capture r now c))
      /\ (reaches_capture c = true -> capture = StreamAbsent StartFailed ->
          gestures (start_session capture r now c)
          = gestures (stopGestureRecognition now c))).
Proof.
  split.
  - intros c2 Hf.
    destruct (start_in_flight_spec _ _ _ _ Hf)
      as (P & G & _ & _ & Hd & Hg & _ & _ & _ & _ & Hpipe & _).
    split; [exact Hd|]. split; [exact Hg|].
    assert (E : start_session capture r now c = registerAgent_invoked r now c2).
    { revert Hf. unfold start_in_flight, start_session.
      destruct (registerAgent c) as [c1 [|]]; [|discriminate].
      destruct (registerAgent_captured capture now c1) as [c2' [|]];
        [|discriminate].
      now intros [= ->]. }
    rewrite E. destruct r as [response|error]; cbn [registerAgent_invoked].
    + unfold dialsLocked, gesturesLocked in *.
      cbn [wheels gestures pipeline with_ui with_pipeline].
      split; [exact Hd|]. split; [exact Hg|].
      apply startAutoTranscriptionLoop_fields.
    + destruct (setGesturesLocked_rest false now (setWheelsLocked false c2)) as [Hp Hu].
      unfold dialsLocked, gesturesLocked.
      cbn [wheels gestures pipeline ui with_ui set_buttons startBtn_disabled].
      split; [now rewrite setGesturesLocked_wheels|].
      split; [apply setGesturesLocked_false|].
      split; [|reflexivity]. rewrite Hp. exact Hpipe.
  - unfold start_in_flight, start_session, registerAgent, reaches_capture.
    destruct (controlsPresent (ui c)); cbn [negb andb];
      [|intros _; repeat split; discriminate].
    destruct (permissionsGranted (ui c)); cbn [negb];
      [|intros _; repeat split; discriminate].
    unfold registerAgent_captured.
    destruct (ensureCapture_rest capture now c) as (Hw0 & Hp0 & Hu0 & Hl0).
    assert (Hheld : capture = StreamHeld \/ capture = StreamAbsent Unsupported ->
                    fst (ensureCapture capture now c) = c).
    { intros [-> | ->]; reflexivity. }
    assert (Hfailed : capture = StreamAbsent StartFailed ->
                      fst (ensureCapture capture now c) = stopGestureRecognition now c).
    { intros ->. reflexivity. }
    destruct (ensureCapture capture now c) as [c0 captureReady].
    cbn [fst snd] in *.
    assert (Hgoal : forall m,
      same_but_recognizer c (with_ui (set_statusMsg m (ui c0)) c0)
      /\ (true = false \/ capture = StreamHeld \/ capture = StreamAbsent Unsupported ->
          same_but_status c (with_ui (set_statusMsg m (ui c0)) c0))
      /\ (true = true -> capture = StreamAbsent StartFailed ->
          gestures (with_ui (set_statusMsg m (ui c0)) c0)
          = gestures (stopGestureRecognition now c))).
    { intros m.
      assert (Hrec : same_but_recognizer c (with_ui (set_statusMsg m (ui c0)) c0)).
      { unfold same_but_recognizer, gesturesLocked in *.
        cbn [wheels pipeline gestures ui with_ui set_statusMsg startBtn_disabled
             stopBtn_disabled].
        rewrite Hw0, Hp0, Hu0, Hl0. repeat split. }
      split; [exact Hrec|]. split.
      - intros [H | H]; [discriminate|].
        rewrite (Hheld H). unfold same_but_status. repeat split.
      - intros _ H. cbn [gestures with_ui]. now rewrite (Hfailed H). }
    destruct (negb captureReady); [intros _; apply Hgoal|].
    destruct (is_empty _); [intros _; apply Hgoal|].
    destruct (_ <? 3)%nat; [intros _; apply Hgoal|].
    discriminate.
Qed.

Lemma start_locks_while_registered_witness :
  dialsLocked (start_session (StreamAbsent Started) (Rejected "hub unreachable") 5000
                 named_companion)
  = false
  /\ gesturesLocked (start_session (StreamAbsent Started)
                       (Rejected "hub unreachable") 5000 named_companion)
     = false
  /\ same_but_status ready_companion
       (start_session StreamHeld (Resolved "Agent registered.") 5000 ready_companion)
  /\ gestures (start_session (StreamAbsent StartFailed) (Resolved "Agent registered.")
                 5000 named_companion)
     = gestures (stopGestureRecognition 5000 named_companion).
Proof.
  destruct (start_locks_while_registered (StreamAbsent Started)
              (Rejected "hub unreachable") 5000 named_companion) as [H _].
  destruct (start_locks_while_registered StreamHeld (Resolved "Agent registered.") 5000
              ready_companion) as [_ H'].
  destruct (start_locks_while_registered (StreamAbsent StartFailed)
              (Resolved "Agent registered.") 5000 named_companion) as [_ H''].
  destruct (start_in_flight (StreamAbsent Started) 5000 named_companion) as [c2|] eqn:E;
    [|vm_compute in E; discriminate].
  destruct (H c2 eq_refl) as (_ & _ & Hd & Hg & _).
  split; [exact Hd|]. split; [exact Hg|]. split.
  - apply H'; [vm_compute; reflexivity | right; left; reflexivity].
  - apply H''; [vm_compute; reflexivity | reflexivity | reflexivity].
Defined.

(** X26 ([plan.md], [handleClapSubmit] and [registerAgent]): a clap cannot
    start a second registration.  While a registration is pending, and
    after it resolved, [handleClapSubmit] returns without calling
    [registerAgent]; after a registration that was rejected a clap starts a
    new attempt. *)
Theorem clap_submits_once (capture : Capture) (now now' : Q) (c c2 : Companion) :
  start_in_flight capture now c = Some c2 ->
  handleClapSubmit c2 = (c2, false)
  /\ (forall response,
        handleClapSubmit (registerAgent_invoked (Resolved response) now' c2)
        = (registerAgent_invoked (Resolved response) now' c2, false))
  /\ (forall error,
        handleClapSubmit (registerAgent_invoked (Rejected error) now' c2)
        = (registerAgent_invoked (Rejected error) now' c2, true)).
Proof.
  intros Hf.
  destruct (start_in_flight_spec _ _ _ _ Hf)
    as (_ & _ & _ & _ & Hd & Hg & Hs & _ & P & G & _ & _).
  split; [|split].
  - unfold handleClapSubmit. rewrite Hs, P. reflexivity.
  - intros response. unfold handleClapSubmit.
    cbn [registerAgent_invoked ui gestures with_ui with_pipeline set_statusMsg
         controlsPresent startBtn_disabled].
    rewrite Hs, P. reflexivity.
  - intros error. unfold handleClapSubmit, registerAgent.
    destruct (setGesturesLocked_rest false now' (setWheelsLocked false c2)) as [Hp Hu].
    pose proof (setGesturesLocked_false now' (setWheelsLocked false c2)) as Hl.
    unfold gesturesLocked in Hl.
    cbn [registerAgent_invoked ui gestures with_ui set_buttons set_statusMsg
         controlsPresent startBtn_disabled permissionsGranted].
    rewrite Hl, Hu. cbn [setWheelsLocked with_wheels ui]. rewrite P, G. reflexivity.
Qed.

Lemma clap_submits_once_witness :
  exists c2,
    start_in_flight StreamHeld 5000 named_companion = Some c2
    /\ handleClapSubmit c2 = (c2, false)
    /\ snd (handleClapSubmit active_session) = false.
Proof.
  destruct (start_in_flight StreamHeld 5000 named_companion) as [c2|] eqn:E;
    [|vm_compute in E; discriminate].
  exists c2. split; [reflexivity|].
  destruct (clap_submits_once StreamHeld 5000 5000 named_companion c2 E) as (H1 & _ & _).
  split; [exact H1 | vm_compute; reflexivity].
Defined.

End SubmitFacts.

(** ** The WAV encoder *)

Module WavFacts.
Import Js Wav.

Local Open Scope list_scope.

Ltac look_up :=
  repeat first [rewrite lookup_insert_eq | rewrite lookup_insert_ne by lia].

Lemma setUint8_within lo hi offset value view :
  lo <= offset < hi -> written_within lo hi view ->
  written_within lo hi (setUint8 offset value view).
Proof.
  intros Ho Hw k v. cbn [setUint8 bytes].
  destruct (decide (k = offset)) as [->|Hne].
  - rewrite lookup_insert_eq. intros [= <-]. split; [exact Ho|].
    apply Z.mod_pos_bound. lia.
  - rewrite lookup_insert_ne by congruence. apply Hw.
Qed.

Lemma setUint16_within lo hi offset value view :
  lo <= offset -> offset + 2 <= hi -> written_within lo hi view ->
  written_within lo hi (setUint16 offset value view).
Proof.
  intros H1 H2 Hw. unfold setUint16.
  repeat (apply setUint8_within; [lia|]). exact Hw.
Qed.

Lemma setUint32_within lo hi offset value view :
  lo <= offset -> offset + 4 <= hi -> written_within lo hi view ->
  written_within lo hi (setUint32 offset value view).
Proof.
  intros H1 H2 Hw. unfold setUint32.
  repeat (apply setUint8_within; [lia|]). exact Hw.
Qed.

Lemma writeUtf8String_within lo hi text : forall offset view,
  lo <= offset -> offset + Z.of_nat (String.length text) <= hi ->
  written_within lo hi view ->
  written_within lo hi (writeUtf8String offset text view).
Proof.
  induction text as [|c rest IH]; intros offset view H1 H2 Hw; [exact Hw|].
  cbn [writeUtf8String]. cbn [String.length] in H2.
  apply IH; [lia | lia|]. apply setUint8_within; [lia | exact Hw].
Qed.

Lemma write_samples_within lo hi samples : forall offset view,
  lo <= offset -> offset + 2 * Z.of_nat (length samples) <= hi ->
  written_within lo hi view ->
  written_within lo hi (write_samples offset samples view).
Proof.
  induction samples as [|s rest IH]; intros offset view H1 H2 Hw; [exact Hw|].
  cbn [write_samples]. cbn [length] in H2.
  apply IH; [lia | lia|]. apply setUint16_within; [lia | lia | exact Hw].
Qed.

Lemma write_samples_length samples : forall offset view,
  byteLength (write_samples offset samples view) = byteLength view.
Proof.
  induction samples as [|s rest IH]; intros offset view; [reflexivity|].
  cbn [write_samples]. now rewrite IH.
Qed.

Lemma write_samples_below samples : forall offset view k,
  k < offset -> bytes (write_samples offset samples view) !! k = bytes view !! k.
Proof.
  induction samples as [|s rest IH]; intros offset view k Hk; [reflexivity|].
  cbn [write_samples]. rewrite IH by lia.
  cbn [setInt16 setUint16 setUint8 bytes]. now look_up.
Qed.

Lemma write_samples_at samples : forall offset view i s,
  samples !! i = Some s ->
  bytes (write_samples offset samples view) !! (offset + 2 * Z.of_nat i)
  = Some (pcm16 s mod 256)
  /\ bytes (write_samples offset samples view) !! (offset + 2 * Z.of_nat i + 1)
     = Some ((pcm16 s / 256) mod 256).
Proof.
  induction samples as [|s0 rest IH]; intros offset view i s Hs; [discriminate|].
  cbn [write_samples]. destruct i as [|i].
  - injection Hs as ->. rewrite !write_samples_below by lia.
    cbn [setInt16 setUint16 setUint8 bytes].
    replace (offset + 2 * Z.of_nat 0) with offset by lia.
    split; now look_up.
  - replace (offset + 2 * Z.of_nat (S i)) with (offset + 2 + 2 * Z.of_nat i) by lia.
    apply IH. exact Hs.
Qed.

Lemma trunc_between (q : Q) (a b : Z) :
  (inject_Z a <= q)%Q -> (q <= inject_Z b)%Q ->
  a <= WheelState.Math_trunc q <= b.
Proof.
  intros Ha Hb. unfold WheelState.Math_trunc.
  destruct q as [n d]. unfold Qle in Ha, Hb. cbn [Qnum Qden inject_Z] in *.
  pose proof (Pos2Z.is_pos d) as Hd.
  pose proof (Z.quot_rem' n (Z.pos d)) as Hqr.
  pose proof (Z.rem_bound_abs n (Z.pos d) ltac:(lia)) as Hr.
  apply Z.abs_lt in Hr. rewrite Z.abs_eq in Hr by lia.
  set (t := Z.quot n (Z.pos d)) in *. set (r := Z.rem n (Z.pos d)) in *.
  split.
  - assert (Z.pos d * (a - 1) < Z.pos d * t) by lia.
    assert (a - 1 < t) by (apply (Z.mul_lt_mono_pos_l (Z.pos d)); lia). lia.
  - assert (Z.pos d * t < Z.pos d * (b + 1)) by lia.
    assert (t < b + 1) by (apply (Z.mul_lt_mono_pos_l (Z.pos d)); lia). lia.
Qed.

Lemma pcm16_range sample : -32768 <= pcm16 sample <= 32767.
Proof.
  unfold pcm16, Math_max, Math_min, Gesture.Qleb, Gesture.Qltb.
  destruct (Qle_bool 1 sample) eqn:E1.
  - change (Qle_bool (-1) 1) with true. cbv iota.
    change (Qle_bool 0 1) with true. cbn [negb]. cbv iota.
    vm_compute. split; discriminate.
  - destruct (Qle_bool (-1) sample) eqn:E2.
    + apply Qle_bool_iff in E2.
      assert (H1 : (sample < 1)%Q).
      { apply Qnot_le_lt. intros H. apply Qle_bool_iff in H. congruence. }
      destruct (Qle_bool 0 sample) eqn:E3; cbn [negb].
      * apply Qle_bool_iff in E3.
        assert (0 <= WheelState.Math_trunc (sample * 32767) <= 32767); [|lia].
        apply trunc_between; unfold inject_Z; lra.
      * assert (H0 : (sample < 0)%Q).
        { apply Qnot_le_lt. intros H. apply Qle_bool_iff in H. congruence. }
        assert (-32768 <= WheelState.Math_trunc (sample * 32768) <= 0); [|lia].
        apply trunc_between; unfold inject_Z; lra.
    + change (Qle_bool 0 (-1)) with false. cbn [negb].
      vm_compute. split; discriminate.
Qed.

Lemma int16_bytes p :
  -32768 <= p <= 32767 ->
  (let u := p mod 256 + 256 * ((p / 256) mod 256) in
   if 32768 <=? u then u - 65536 else u) = p.
Proof.
  intros Hp. cbv zeta.
  destruct (32768 <=? _) eqn:E; [apply Z.leb_le in E | apply Z.leb_gt in E];
    Z.to_euclidean_division_equations; lia.
Qed.

Lemma uint32_bytes v :
  0 <= v < 4294967296 ->
  v mod 256 + 256 * ((v / 256) mod 256) + 65536 * ((v / 65536) mod 256)
  + 16777216 * ((v / 16777216) mod 256) = v.
Proof. intros Hv. Z.to_euclidean_division_equations. lia. Qed.

Lemma uint16_bytes v :
  0 <= v < 65536 -> v mod 256 + 256 * ((v / 256) mod 256) = v.
Proof. intros Hv. Z.to_euclidean_division_equations. lia. Qed.

(** The header that [encodeWav] writes before the samples. *)
Lemma encodeWav_header samples sampleRate k :
  k < 44 ->
  bytes (encodeWav samples sampleRate) !! k
  = bytes
      (setUint32 40 (Z.of_nat (length samples) * 2)
         (writeUtf8String 36 "data"
            (setUint16 34 16
               (setUint16 32 2
                  (setUint32 28 (sampleRate * 2)
                     (setUint32 24 sampleRate
                        (setUint16 22 1
                           (setUint16 20 1
                              (setUint32 16 16
                                 (writeUtf8String 12 "fmt "
                                    (writeUtf8String 8 "WAVE"
                                       (setUint32 4 (36 + Z.of_nat (length samples) * 2)
                                          (writeUtf8String 0 "RIFF"
                                             (new_view
                                                (44 + Z.of_nat (length samples) * 2)))))))))))))))
    !! k.
Proof. intros Hk. unfold encodeWav. cbv zeta. now rewrite write_samples_below by lia. Qed.

Ltac header_byte :=
  unfold getUint8; rewrite encodeWav_header by lia;
  cbn [writeUtf8String setUint32 setUint16 setUint8 bytes new_view Z.add Pos.add
       Pos.succ Pos.add_carry];
  look_up.

(** X27 ([plan.md], [encodeWav] and [writeUtf8String]): the buffer that
    [encodeWav] returns is a well-formed 16-bit mono PCM file.  It is 44
    bytes longer than twice the number of samples, and every byte it writes
    lies inside it.  The header reads RIFF, WAVE, fmt and data; its sizes
    agree with the buffer (the RIFF size is the length less 8, the data size
    is the length less 44), and it declares PCM, one channel, the sample
    rate, two bytes per frame and 16 bits.  Every sample is stored as a
    number of [-32768, 32767], clipped to [-1, 1] and scaled. *)
Theorem encodeWav_is_well_formed (samples : list Q) (sampleRate : Z) :
  0 <= sampleRate < 2147483648 ->
  Z.of_nat (length samples) < 1073741824 ->
  let view := encodeWav samples sampleRate in
  byteLength view = 44 + 2 * Z.of_nat (length samples)
  /\ written_within 0 (byteLength view) view
  /\ read_chars view 0 4 = char_codes "RIFF"
  /\ getUint32 view 4 = byteLength view - 8
  /\ read_chars view 8 8 = char_codes "WAVEfmt "
  /\ getUint32 view 16 = 16
  /\ getUint16 view 20 = 1
  /\ getUint16 view 22 = 1
  /\ getUint32 view 24 = sampleRate
  /\ getUint32 view 28 = sampleRate * 2
  /\ getUint16 view 32 = 2
  /\ getUint16 view 34 = 16
  /\ read_chars view 36 4 = char_codes "data"
  /\ getUint32 view 40 = byteLength view - 44
  /\ forall i sample,
       samples !! i = Some sample ->
       getInt16 view (44 + 2 * Z.of_nat i) = pcm16 sample
       /\ -32768 <= pcm16 sample <= 32767.
Proof.
  intros Hrate Hn. cbv zeta.
  assert (Hlen : byteLength (encodeWav samples sampleRate)
                 = 44 + 2 * Z.of_nat (length samples)).
  { unfold encodeWav. cbv zeta. rewrite write_samples_length.
    cbn [byteLength writeUtf8String setUint32 setUint16 setUint8 new_view]. lia. }
  rewrite Hlen.
  split; [reflexivity|]. split.
  { unfold encodeWav. cbv zeta.
    apply write_samples_within; [lia | lia|].
    repeat first
      [ apply setUint32_within; [lia | lia|]
      | apply setUint16_within; [lia | lia|]
      | apply writeUtf8String_within; [lia | cbn; lia|] ].
    intros k v H. cbn in H. rewrite lookup_empty in H. discriminate. }
  split. { cbn [read_chars Z.add Pos.add Pos.succ]. now repeat (header_byte; f_equal). }
  split. { unfold getUint32. repeat header_byte.
           rewrite uint32_bytes by lia. lia. }
  split. { cbn [read_chars Z.add Pos.add Pos.succ]. now repeat (header_byte; f_equal). }
  split. { unfold getUint32. repeat header_byte. reflexivity. }
  split. { unfold getUint16. repeat header_byte. reflexivity. }
  split. { unfold getUint16. repeat header_byte. reflexivity. }
  split. { unfold getUint32. repeat header_byte. apply uint32_bytes. lia. }
  split. { unfold getUint32. repeat header_byte. apply uint32_bytes. lia. }
  split. { unfold getUint16. repeat header_byte. reflexivity. }
  split. { unfold getUint16. repeat header_byte. reflexivity. }
  split. { cbn [read_chars Z.add Pos.add Pos.succ]. now repeat (header_byte; f_equal). }
  split. { unfold getUint32. repeat header_byte.
           rewrite uint32_bytes by lia. lia. }
  intros i sample Hs. split; [|apply pcm16_range].
  unfold getInt16, getUint16, getUint8, encodeWav. cbv zeta.
  match goal with |- context [write_samples 44 samples ?v] =>
    destruct (write_samples_at samples 44 v i sample Hs) as [-> ->] end.
  apply int16_bytes, pcm16_range.
Qed.

Lemma encodeWav_is_well_formed_witness :
  let view := encodeWav example_samples TRANSCRIPTION_SAMPLE_RATE in
  byteLength view = 56
  /\ getUint32 view 4 = 48
  /\ getUint32 view 24 = 16000
  /\ List.map (fun i => getInt16 view (44 + 2 * Z.of_nat i)) (seq 0 6)
     = [0; 32767; -32768; 16383; -32768; 9830].
Proof.
  cbv zeta.
  destruct (encodeWav_is_well_formed example_samples
              TRANSCRIPTION_SAMPLE_RATE)
    as (H1 & _ & _ & H2 & _ & _ & _ & _ & H3 & _).
  - unfold TRANSCRIPTION_SAMPLE_RATE. lia.
  - cbn. lia.
  - split; [exact H1|]. split; [rewrite H2, H1; reflexivity|].
    split; [exact H3|]. vm_compute. reflexivity.
Defined.

End WavFacts.

(** ** The event log and the preflight *)

Module EventLogFacts.
Import Js EventLog.

Local Open Scope list_scope.

Lemma firstn_removelast {A} (l : list A) :
  removelast l = firstn (length l - 1) l.
Proof.
  induction l as [|a l IH]; [reflexivity|].
  destruct l as [|b l]; [reflexivity|].
  change (removelast (a :: b :: l)) with (a :: removelast (b :: l)).
  rewrite IH. cbn [length]. replace (S (S (length l)) - 1)%nat with (S (length l)) by lia.
  replace (S (length l) - 1)%nat with (length l) by lia. reflexivity.
Qed.

Lemma remove_last_children_firstn excess : forall children,
  remove_last_children excess children = firstn (length children - excess) children.
Proof.
  induction excess as [|n IH]; intros children; cbn [remove_last_children].
  - rewrite Nat.sub_0_r. symmetry. apply firstn_all.
  - rewrite IH, firstn_removelast, length_firstn, firstn_firstn.
    f_equal. lia.
Qed.

Lemma firstn_excess {A} (l : list A) n :
  firstn (length l - (length l - n)) l = firstn n l.
Proof.
  destruct (Nat.le_gt_cases (length l) n) as [H|H].
  - replace (length l - (length l - n))%nat with (length l) by lia.
    rewrite firstn_all. symmetry. apply firstn_all2. exact H.
  - f_equal. lia.
Qed.

Lemma logEvent_firstn timestamp message level children :
  logEvent timestamp message level (Some children)
  = Some (firstn MAX_LOG_ENTRIES
            (entry_of {| at_time := timestamp; message := message; level := level |}
               :: children)).
Proof.
  unfold logEvent. cbv zeta. rewrite remove_last_children_firstn. f_equal.
  apply firstn_excess.
Qed.

Lemma firstn_app_firstn {A} n (a b : list A) :
  firstn n (a ++ firstn n b) = firstn n (a ++ b).
Proof.
  rewrite !firstn_app, firstn_firstn. do 2 f_equal. lia.
Qed.

Lemma logEvents_short calls : forall children,
  (length children <= MAX_LOG_ENTRIES)%nat ->
  logEvents calls (Some children)
  = Some (firstn MAX_LOG_ENTRIES (rev (List.map entry_of calls) ++ children)).
Proof.
  unfold logEvents. induction calls as [|[t m lv] calls IH]; intros children Hlen.
  - cbn. now rewrite firstn_all2.
  - cbn [fold_left at_time message level]. rewrite logEvent_firstn.
    rewrite IH by (rewrite length_firstn; lia).
    rewrite firstn_app_firstn. cbn [List.map rev]. now rewrite <- app_assoc.
Qed.

(** X28 ([plan.md], [logEvent]): the log on the page is the 200 most
    recent entries, the newest first: after any calls of [logEvent] the
    container holds the entries of these calls in reverse order, followed
    by what it held before, cut after the 200th; it never holds more than
    200 entries after a call.  A page without the container stays without
    it. *)
Theorem log_keeps_newest_entries (calls : list LogCall) (children : list Entry) :
  logEvents calls (Some children)
  = Some (match calls with
          | [] => children
          | _ => firstn MAX_LOG_ENTRIES (rev (List.map entry_of calls) ++ children)
          end)
  /\ logEvents calls None = None.
Proof.
  split.
  - destruct calls as [|[t m lv] calls]; [reflexivity|].
    unfold logEvents. cbn [fold_left at_time message level].
    rewrite logEvent_firstn.
    fold (logEvents calls
            (Some (firstn MAX_LOG_ENTRIES
                     (entry_of {| at_time := t; message := m; level := lv |}
                        :: children)))).
    rewrite logEvents_short by (rewrite length_firstn; lia).
    rewrite firstn_app_firstn. cbn [List.map rev]. now rewrite <- app_assoc.
  - unfold logEvents. induction calls as [|call calls IH]; [reflexivity | exact IH].
Qed.

End EventLogFacts.

Module PreflightFacts.
Import Js Preflight.

Local Open Scope list_scope.

(** X29 ([plan.md], [runPreflightChecks], [ensurePermissions],
    [completePreflight]): the preflight is a gate of four checks in a fixed
    order.  A run from a page that has not passed it opens the application
    exactly when Docker, the model runner, the models and the media access
    all succeed.  Otherwise the run stops at the first check that fails: the
    checks before it are marked as passed, the ones after it stay pending,
    and the application stays hidden.  In every case the run ends with
    [preflightInProgress] reset, so that the run can be repeated; a run
    that is called while another is in progress, or after the gate was
    passed, does nothing. *)
Theorem preflight_is_a_gate (o : Outcomes) (p : Page) :
  (preflightCompleted p = false -> preflightInProgress p = false ->
   permissionsGranted p = false -> appVisible p = false ->
   let p' := runPreflightChecks o p in
   preflightInProgress p' = false
   /\ preflightCompleted p' = all_ok o
   /\ appVisible p' = all_ok o
   /\ permissionsGranted p' = all_ok o
   /\ checks p'
      = (if negb (docker_ok o) then [Failure; Pending; Pending; Pending]
         else if negb (dmr_ok o) then [Success; Failure; Pending; Pending]
         else if negb (models_ok o) then [Success; Success; Failure; Pending]
         else if negb (media_ok o) then [Success; Success; Success; Waiting]
         else [Success; Success; Success; Success])
   /\ retryBtn_hidden p' = docker_ok o && dmr_ok o && models_ok o)
  /\ (preflightCompleted p || preflightInProgress p = true ->
      runPreflightChecks o p = p).
Proof.
  split.
  - intros Hc Hi Hg Hv. cbv zeta. unfold runPreflightChecks, all_ok, checks.
    rewrite Hc, Hi. cbn [orb].
    destruct o as [[|] [|] [|] [|]];
      cbn [docker_ok dmr_ok models_ok media_ok negb andb];
      unfold ensurePermissions, completePreflight; cbn; rewrite ?Hg, ?Hc, ?Hv; cbn;
      rewrite ?Hc, ?Hg, ?Hv; repeat split; reflexivity.
  - intros H. unfold runPreflightChecks. now rewrite H.
Qed.

Lemma preflight_is_a_gate_witness :
  appVisible
    (runPreflightChecks
       {| docker_ok := true; dmr_ok := true; models_ok := true; media_ok := true |}
       (runPreflightChecks
          {| docker_ok := true; dmr_ok := false; models_ok := true; media_ok := true |}
          initial_page)) = true
  /\ checks (runPreflightChecks
               {| docker_ok := true; dmr_ok := false; models_ok := true;
                  media_ok := true |} initial_page)
     = [Success; Failure; Pending; Pending].
Proof.
  destruct (preflight_is_a_gate
              {| docker_ok := true; dmr_ok := false; models_ok := true; media_ok := true |}
              initial_page) as [H1 _].
  destruct (H1 eq_refl eq_refl eq_refl eq_refl) as (Hi & Hc & Hv & Hg & Hk & _).
  destruct (preflight_is_a_gate
              {| docker_ok := true; dmr_ok := true; models_ok := true; media_ok := true |}
              (runPreflightChecks
                 {| docker_ok := true; dmr_ok := false; models_ok := true;
                    media_ok := true |} initial_page)) as [H2 _].
  destruct (H2 Hc Hi Hg Hv) as (_ & _ & Hv' & _).
  split; [exact Hv' | exact Hk].
Defined.

End PreflightFacts.
